(** * Filing assistant: a shallow embedding of the pattern-learning and
      column-identification pipeline

    The development follows the Python sources module by module:

    - [Py]             the Python primitives the code relies on (string
                       methods, the fragment of [re] that the patterns use,
                       [sorted], [max], [min]);
    - [Binary64]       the order and the rounding of binary64 numbers, for
                       the bounds on confidences and thresholds;
    - [Store]          [store.py]: the pattern store and [merge_patterns];
    - [EnhancedTrainer] [enhanced_trainer.py]: [analyze_column_filling_patterns];
    - [HeaderDetector] [enhanced_header_detector.py]: the four heuristic
                       strategies, [clean_header_name], [parse_openai_response];
    - [CrossSheet]     [cross_sheet_analyzer.py];
    - [Identifier]     [identifier.py]: [identify_required_columns].

    Modelling conventions.

    - A Python [str] is a Rocq [string].  ASCII characters are modelled
      exactly (case mapping, white space, digits); the bytes of a non-ASCII
      character are kept as they are and count as caseless, non-space,
      non-digit characters.
    - A Python [dict] used as a finite map is a [gmap].  A document and the
      per-sheet results of an analysis, whose order decides the first-wins
      ties of the primary sheet, are lists of items.  Where the code walks
      through the store, the items come in the order of [map_to_list]; that
      order only decides which of several equally good candidates supplies
      the label.
    - The floats of [enhanced_trainer.py], and the confidences, thresholds
      and sheet scores of the identification ([cross_sheet_analyzer.py],
      [identifier.py], [verifier.py] and the confidences kept in the
      store), are binary64 floats ([PrimFloat]), so the model computes and
      compares what Python computes; [sum] adds from the left, as CPython
      does up to version 3.11.  The scores of the header strategies are
      exact rationals [Q]: rounding is not modelled there. *)

From Stdlib Require Import QArith Lqa Lia Floats Ascii.
From stdpp Require Import gmap strings list fin_maps sorting pretty.

Set Warnings "-inexact-float".

(* ===================================================================== *)
(** * Python primitives *)
(* ===================================================================== *)

Module Py.

(** ** Sets of strings and [sorted] *)

(** [set(l)] *)
Definition set_of (l : list string) : gset string := list_to_set l.

(** [s.update(l)] *)
Definition update (s : gset string) (l : list string) : gset string :=
  s ∪ list_to_set l.

(** [sorted(s)] for a set of strings: the elements in ascending order
    (strings compare lexicographically by character code). *)
Definition sorted (s : gset string) : list string :=
  merge_sort String.le (elements s).

(** ** Updating a dict from the items of another one

    [for k, x in inc.items(): acc[k] = g(acc.get(k), x)].  The keys of a
    dict are distinct, so the order of the items does not show in the
    result; [map_fold] visits them in some order. *)
Definition update_from {A B} (g : option B → A → B)
    (inc : gmap string A) (acc : gmap string B) : gmap string B :=
  map_fold (λ k x acc, <[k := g (acc !! k) x]> acc) acc inc.

(** ** Characters and the [str] methods *)

Definition chars (s : string) : list ascii := String.list_ascii_of_string s.
Definition text (l : list ascii) : string := String.string_of_list_ascii l.

Definition code (c : ascii) : N := Ascii.N_of_ascii c.
Definition in_range (lo hi : N) (c : ascii) : bool :=
  ((lo <=? code c) && (code c <=? hi))%N.

(** [str.isspace] on ASCII: TAB..CR, FS..US and the space. *)
Definition is_space (c : ascii) : bool := in_range 9 13 c || in_range 28 32 c.
Definition is_digit (c : ascii) : bool := in_range 48 57 c.
Definition is_upper (c : ascii) : bool := in_range 65 90 c.
Definition is_lower (c : ascii) : bool := in_range 97 122 c.
Definition newline : ascii := "010"%char.

Definition lower_char (c : ascii) : ascii :=
  if is_upper c then Ascii.ascii_of_N (code c + 32) else c.

Fixpoint drop_while (p : ascii → bool) (l : list ascii) : list ascii :=
  match l with
  | [] => []
  | c :: l' => if p c then drop_while p l' else l
  end.

(** Drop the trailing characters of a class. *)
Fixpoint drop_end (p : ascii → bool) (l : list ascii) : list ascii :=
  match l with
  | [] => []
  | c :: l' =>
      match drop_end p l' with
      | [] => if p c then [] else [c]
      | kept => c :: kept
      end
  end.

(** Remove the characters of a class from both ends. *)
Definition strip_with (p : ascii → bool) (l : list ascii) : list ascii :=
  drop_end p (drop_while p l).

(** [s.strip()] *)
Definition strip (s : string) : string := text (strip_with is_space (chars s)).
(** [s.strip(c)] for a single character [c] *)
Definition strip_char (c : ascii) (s : string) : string :=
  text (strip_with (λ x, bool_decide (x = c)) (chars s)).
(** [s.lower()] *)
Definition lower (s : string) : string := text (lower_char <$> chars s).
(** [s.replace(c, '')] for a single character [c] *)
Definition remove_char (c : ascii) (s : string) : string :=
  text (filter (λ x, x ≠ c) (chars s)).

Fixpoint starts_with (needle hay : list ascii) : bool :=
  match needle, hay with
  | [], _ => true
  | _ :: _, [] => false
  | a :: needle', b :: hay' => bool_decide (a = b) && starts_with needle' hay'
  end.

Fixpoint contains_go (needle hay : list ascii) : bool :=
  starts_with needle hay ||
  match hay with
  | [] => false
  | _ :: hay' => contains_go needle hay'
  end.

(** [needle in hay] for two strings *)
Definition contains (needle hay : string) : bool :=
  contains_go (chars needle) (chars hay).

(** [len(s)] *)
Definition len (s : string) : nat := length (chars s).

(** ** JSON cell values and [str(...)] *)

Inductive cell :=
| CStr (s : string)
| CInt (z : Z)
| CFloat (repr : string)   (* a number with a fraction, with its [repr] *)
| CBool (b : bool)
| CNull.

Definition str_of (c : cell) : string :=
  match c with
  | CStr s => s
  | CInt z => pretty z
  | CFloat repr => repr
  | CBool true => "True"
  | CBool false => "False"
  | CNull => "None"
  end.

(** A decoded JSON document. *)
#[warnings="-register-all"]
Inductive json :=
| JNull
| JBool (b : bool)
| JNum (q : Q)
| JStr (s : string)
| JArr (items : list json)
| JObj (fields : list (string * json)).

Fixpoint assoc {A} (key : string) (fields : list (string * A)) : option A :=
  match fields with
  | [] => None
  | (k, v) :: fields' => if decide (k = key) then Some v else assoc key fields'
  end.

(** [obj.get(key)] on a decoded object *)
Definition json_get (key : string) (obj : json) : option json :=
  match obj with
  | JObj fields => assoc key fields
  | _ => None
  end.

(** ** Floats *)

Definition float_of_nat (n : nat) : float :=
  PrimFloat.of_uint63 (Uint63.of_Z (Z.of_nat n)).

(** [a / b] for two non-negative [int]s, [b] not zero *)
Definition truediv (a b : nat) : float :=
  (float_of_nat a / float_of_nat b)%float.

(** [min(a, b)] on floats: [b] when [b < a], else [a] *)
Definition fmin (a b : float) : float :=
  if PrimFloat.ltb b a then b else a.

(** [sum(l)] for a list of floats: the additions from the left, starting
    from 0. *)
Definition fsum (l : list float) : float := foldl PrimFloat.add 0%float l.

(** ** Exact rationals *)

Definition Q_of_nat (n : nat) : Q := inject_Z (Z.of_nat n).

(** [a / b] for two counts, as an exact rational *)
Definition qdiv (a b : nat) : Q := (Q_of_nat a / Q_of_nat b)%Q.

Definition Qltb (a b : Q) : bool := negb (Qle_bool b a).

(** [sum(l) / len(l)] *)
Definition qmean (l : list Q) : Q :=
  (foldr Qplus 0 l / Q_of_nat (length l))%Q.

(** [sorted(l, key=key, reverse=True)]: a stable sort, largest key first;
    elements with equal keys keep their order. *)
Fixpoint insert_desc {A} (key : A → Q) (x : A) (l : list A) : list A :=
  match l with
  | [] => [x]
  | y :: l' =>
      if Qltb (key x) (key y) then y :: insert_desc key x l'
      else x :: l
  end.

Definition sorted_desc {A} (key : A → Q) (l : list A) : list A :=
  foldr (insert_desc key) [] l.

(** [max(l, key=key)] for float keys: the running best is replaced by an
    element whose key is greater. *)
Fixpoint max_by {A} (key : A → float) (best : A) (l : list A) : A :=
  match l with
  | [] => best
  | x :: l' =>
      max_by key (if PrimFloat.ltb (key best) (key x) then x else best) l'
  end.

(** ** The fragment of [re] that the patterns of the code use

    A backtracking matcher with Python's priorities: alternatives left to
    right, [*] greedy, [*?] lazy.  [run r bos s k] matches [r] at the head of
    [s] and hands what is left to the continuation [k]; [bos] tells whether
    the head of [s] is the beginning of the subject string. *)

Inductive regex : Type :=
| Eps
| Cls (p : ascii → bool)      (* one character of a class *)
| Cat (r1 r2 : regex)
| Alt (r1 r2 : regex)
| Star (r : regex)            (* r*  *)
| StarLazy (r : regex)        (* r*? *)
| Bol                         (* ^ *)
| Eol.                        (* $ : at the end, or before a final newline *)

Definition cont : Type := bool → list ascii → option (list ascii).

(** The loop of a starred group: [step] matches the group once.  An
    iteration has to consume a character, so [length s] rounds are enough. *)
Fixpoint star_iter (greedy : bool) (step : bool → list ascii → cont → option (list ascii))
    (k : cont) (fuel : nat) (b : bool) (s : list ascii)
    : option (list ascii) :=
  match fuel with
  | O => k b s
  | S fuel' =>
      let again :=
        step b s (λ b' s', if bool_decide (length s' < length s)
                           then star_iter greedy step k fuel' b' s'
                           else None) in
      if greedy
      then match again with
           | Some rest => Some rest
           | None => k b s
           end
      else match k b s with
           | Some rest => Some rest
           | None => again
           end
  end.

Fixpoint run (r : regex) (bos : bool) (s : list ascii) (k : cont)
    {struct r} : option (list ascii) :=
  match r with
  | Eps => k bos s
  | Cls p =>
      match s with
      | c :: s' => if p c then k false s' else None
      | [] => None
      end
  | Cat r1 r2 => run r1 bos s (λ b s', run r2 b s' k)
  | Alt r1 r2 =>
      match run r1 bos s k with
      | Some rest => Some rest
      | None => run r2 bos s k
      end
  | Star r1 => star_iter true (run r1) k (length s) bos s
  | StarLazy r1 => star_iter false (run r1) k (length s) bos s
  | Bol => if bos then k bos s else None
  | Eol =>
      match s with
      | [] => k bos s
      | [c] => if bool_decide (c = newline) then k bos s else None
      | _ => None
      end
  end.

(** The first match of [r] at the head of [s]: what follows it. *)
Definition match_at (r : regex) (bos : bool) (s : list ascii)
    : option (list ascii) :=
  run r bos s (λ _ rest, Some rest).

Fixpoint search_from (r : regex) (bos : bool) (s : list ascii) : bool :=
  match match_at r bos s with
  | Some _ => true
  | None =>
      match s with
      | [] => false
      | _ :: s' => search_from r false s'
      end
  end.

(** Replace the non-overlapping matches, leftmost first. *)
Fixpoint sub_go (fuel : nat) (r : regex) (repl : list ascii) (bos : bool)
    (s : list ascii) : list ascii :=
  match fuel with
  | O => s
  | S fuel' =>
      match match_at r bos s with
      | Some rest =>
          if bool_decide (length rest < length s)
          then repl ++ sub_go fuel' r repl false rest
          else match s with
               | [] => repl
               | c :: s' => repl ++ c :: sub_go fuel' r repl false s'
               end
      | None =>
          match s with
          | [] => []
          | c :: s' => c :: sub_go fuel' r repl false s'
          end
      end
  end.

Definition sub_chars (r : regex) (repl s : list ascii) : list ascii :=
  sub_go (S (length s)) r repl true s.

(** [re.sub(r, repl, s)] *)
Definition re_sub (r : regex) (repl s : string) : string :=
  text (sub_chars r (chars repl) (chars s)).
(** [re.search(r, s)] as a truth value *)
Definition re_search (r : regex) (s : string) : bool :=
  search_from r true (chars s).
(** [re.match(r, s)] as a truth value *)
Definition re_match (r : regex) (s : string) : bool :=
  bool_decide (is_Some (match_at r true (chars s))).

(** [re.search(r, s).group()]: the text of the leftmost match, if any *)
Fixpoint group_from (r : regex) (bos : bool) (s : list ascii)
    : option (list ascii) :=
  match match_at r bos s with
  | Some rest => Some (take (length s - length rest) s)
  | None =>
      match s with
      | [] => None
      | _ :: s' => group_from r false s'
      end
  end.

Definition re_search_group (r : regex) (s : string) : option string :=
  text <$> group_from r true (chars s).

(** Pattern syntax. *)
Definition Plus (r : regex) : regex := Cat r (Star r).               (* r+ *)
Definition Opt (r : regex) : regex := Alt r Eps.                     (* r? *)
Definition Chr (c : ascii) : regex := Cls (λ x, bool_decide (x = c)).
Definition OneOf (cs : string) : regex :=                            (* [..] *)
  Cls (λ x, bool_decide (x ∈ chars cs)).
Definition Dot : regex := Cls (λ c, negb (bool_decide (c = newline))).
Definition AnyChar : regex := Cls (λ _, true).        (* . under re.DOTALL *)
Fixpoint Seq (rs : list regex) : regex :=
  match rs with
  | [] => Eps
  | r :: rs' => Cat r (Seq rs')
  end.
Definition Lit (s : string) : regex := Seq (Chr <$> chars s).
Fixpoint Rep (n : nat) (r : regex) : regex :=                        (* r{n} *)
  match n with
  | O => Eps
  | S n' => Cat r (Rep n' r)
  end.
Fixpoint UpTo (n : nat) (r : regex) : regex :=                     (* r{0,n} *)
  match n with
  | O => Eps
  | S n' => Opt (Cat r (UpTo n' r))
  end.

(** ** More [str] and [list] methods *)

(** [s.replace(c, r)] for two single characters *)
Definition replace_char (c r : ascii) (s : string) : string :=
  text ((λ x, if bool_decide (x = c) then r else x) <$> chars s).

(** The words of [s.split()]: the maximal runs without white space.
    [word] holds the characters of the word being read. *)
Fixpoint split_go (word : list ascii) (l : list ascii) : list string :=
  match l with
  | [] => if bool_decide (word = []) then [] else [text word]
  | c :: l' =>
      if is_space c
      then if bool_decide (word = []) then split_go [] l'
           else text word :: split_go [] l'
      else split_go (word ++ [c]) l'
  end.

(** [s.split()] *)
Definition split (s : string) : list string := split_go [] (chars s).

(** [l[-n:]] for a positive [n] *)
Definition last_n {A} (n : nat) (l : list A) : list A :=
  drop (length l - n) l.

(** [s.split(sep)] for a single character [sep]: the pieces between the
    separators, the empty ones included.  [piece] holds the characters of
    the piece being read. *)
Fixpoint split_on_go (sep : ascii) (piece : list ascii) (l : list ascii)
    : list string :=
  match l with
  | [] => [text piece]
  | c :: l' =>
      if bool_decide (c = sep) then text piece :: split_on_go sep [] l'
      else split_on_go sep (piece ++ [c]) l'
  end.

Definition split_on (sep : ascii) (s : string) : list string :=
  split_on_go sep [] (chars s).

(** The first element of a list on which [f] answers. *)
Fixpoint first_answer {A B} (f : A → option B) (l : list A) : option B :=
  match l with
  | [] => None
  | x :: l' =>
      match f x with
      | Some y => Some y
      | None => first_answer f l'
      end
  end.

End Py.

(* ===================================================================== *)
(** * Binary64 numbers

    The notions that tie the primitive floats to the integers: the
    theorems on confidences and thresholds compare and bound what
    the float operations give through them. *)
(* ===================================================================== *)

Module Binary64.

(** The rank of a positive finite number [m * 2^e]: the exponent first,
    then the mantissa. *)
Definition mag (m : positive) (e : Z) : Z :=
  ((e + 2000) * 2 ^ 53 + Zpos m)%Z.

(** The place of a binary64 number in the order of the numbers ([None]
    for NaN): for valid numbers [SFcompare] compares the ranks. *)
Definition rank (x : spec_float) : option Z :=
  match x with
  | S754_nan => None
  | S754_zero _ => Some 0%Z
  | S754_infinity s => Some (if s then - 2 ^ 70 else 2 ^ 70)%Z
  | S754_finite s m e => Some (if s then - mag m e else mag m e)%Z
  end.

(** The rank of a primitive float. *)
Definition frank (x : float) : option Z := rank (Prim2SF x).

(** The value of [m * 2^e], scaled by [2^4000]. *)
Definition val (m : positive) (e : Z) : Z := (Zpos m * 2 ^ (e + 4000))%Z.

(** The record after [k] right shifts of [P]: the quotient, and no bit
    remembered when the shifts lost none. *)
Definition shifted (P k : Z) (mrs : shr_record) : Prop :=
  shr_m mrs = (P / 2 ^ k)%Z
  ∧ ((P mod 2 ^ k)%Z = 0%Z → shr_r mrs = false ∧ shr_s mrs = false).

(** Mantissa and exponent of a positive finite number. *)
Definition finite_pos (x : float) : option (positive * Z) :=
  match Prim2SF x with
  | S754_finite false m e => Some (m, e)
  | _ => None
  end.

(** [c] is a positive normal number, and the exact product of [x0] and
    [c] is at most [b]. *)
Definition mul_fits (x0 c b : float) : bool :=
  match finite_pos x0, finite_pos c, finite_pos b with
  | Some (m0, e0), Some (mc, ec), Some (mb, eb) =>
      (2 ^ 52 <=? Zpos mc)%Z
      && (val m0 e0 * val mc ec <=? val mb eb * 2 ^ 4000)%Z
  | _, _, _ => false
  end.

(** [c] is a positive normal number, and the exact product of [x0] and
    [c] is at least [b]. *)
Definition mul_reaches (x0 c b : float) : bool :=
  match finite_pos x0, finite_pos c, finite_pos b with
  | Some (m0, e0), Some (mc, ec), Some (mb, eb) =>
      (2 ^ 52 <=? Zpos mc)%Z
      && (val mb eb * 2 ^ 4000 <=? val m0 e0 * val mc ec)%Z
  | _, _, _ => false
  end.

(** [l] is a positive normal number. *)
Definition normal_pos (l : float) : bool :=
  match finite_pos l with
  | Some (m, e) => (-1074 <? e)%Z
  | None => false
  end.

(** The exact sum of [x0] and [c] is at most [b]. *)
Definition add_fits (x0 c b : float) : bool :=
  match finite_pos x0, finite_pos c, finite_pos b with
  | Some (m0, e0), Some (mc, ec), Some (mb, eb) =>
      (val m0 e0 + val mc ec <=? val mb eb)%Z
  | _, _, _ => false
  end.

End Binary64.

(* ===================================================================== *)
(** * store.py *)
(* ===================================================================== *)

Module Store.

(** A stored verdict: [{"label": .., "confidence": .., "method": ..}].
    A key that is absent is [None] (the readers use [.get] with a
    default); the confidence is the number as [float(..)] reads it. *)
Record verification := Verification {
  v_label : option string;
  v_confidence : option float;
  v_method : option string
}.

(** A learned value-pattern summary (only the keys that are read). *)
Record pattern_data := PatternData {
  pd_label : option string;
  pd_value_types : list string
}.

(** The payload stored for one sheet. *)
Record sheet_entry := SheetEntry {
  header_map : gmap string (list string);
  columns_to_fill : list string;
  column_positions : gmap string Z;
  verifications : gmap string verification;
  enhanced_patterns : gmap string pattern_data
}.

(** [{"sheets": {...}}] *)
Record store := MkStore { sheets : gmap string sheet_entry }.

(** The value [setdefault] installs for a sheet that is new to the store. *)
Definition fresh_entry : sheet_entry :=
  {| header_map := ∅; columns_to_fill := []; column_positions := ∅;
     verifications := ∅; enhanced_patterns := ∅ |}.

(** The body of the loop over [incoming["sheets"]]. *)
Definition merge_sheet (target payload : sheet_entry) : sheet_entry :=
  {| header_map :=
       Py.update_from
         (λ old variants,
            Py.sorted (Py.update (Py.set_of (default [] old)) variants))
         (header_map payload) (header_map target);
     columns_to_fill :=
       Py.sorted (Py.update (Py.set_of (columns_to_fill target))
                            (columns_to_fill payload));
     column_positions :=
       Py.update_from (λ _ pos, pos)
         (column_positions payload) (column_positions target);
     verifications :=
       Py.update_from (λ _ v, v)
         (verifications payload) (verifications target);
     enhanced_patterns := enhanced_patterns target |}.

Definition merge_patterns (st incoming : store) : store :=
  {| sheets :=
       Py.update_from
         (λ target payload, merge_sheet (default fresh_entry target) payload)
         (sheets incoming) (sheets st) |}.

(** The two set-valued fields of a sheet entry. *)
Definition set_fields (e : sheet_entry)
    : list string * gmap string (list string) :=
  (columns_to_fill e, header_map e).

End Store.

(* ===================================================================== *)
(** * enhanced_trainer.py *)
(* ===================================================================== *)

Module EnhancedTrainer.

(** What [analyze_column_filling_patterns] returns when it has ratios. *)
Record analysis := Analysis {
  fillable : bool;
  confidence : float;
  empty_ratio : float;
  filled_ratio : float;
  empty_count : nat;
  filled_count : nat;
  total_rows : nat;
  reasons : list string;
  filled_sample_values : list string
}.

(** The two shapes of the returned dict: the three-key dict of the early
    return, and the full one. *)
Inductive analysis_result :=
| NoData (fillable : bool) (confidence : float) (reason : string)
| Analyzed (a : analysis).

(** [str(row.get(column_key, "")).strip()] over the first 200 rows *)
Definition column_values (rows : list (gmap string Py.cell))
    (column_key : string) : list string :=
  (λ row : gmap string Py.cell,
     Py.strip (Py.str_of (default (Py.CStr "") (row !! column_key))))
    <$> take 200 rows.

(** [v and v not in ['0', '']] *)
Definition non_empty (v : string) : Prop := v ≠ "" ∧ v ∉ ["0"; ""].

#[global] Instance non_empty_dec v : Decision (non_empty v).
Proof. unfold non_empty. apply _. Defined.

Definition num_punct : Py.regex :=
  Py.Cls (λ c, Py.is_digit c || bool_decide (c ∈ Py.chars ".,")).
Definition upper : Py.regex := Py.Cls Py.is_upper.
Definition lower : Py.regex := Py.Cls Py.is_lower.
Definition digit : Py.regex := Py.Cls Py.is_digit.

(** [r'^[\d.,]+$'] *)
Definition numeric_re : Py.regex :=
  Py.Seq [Py.Bol; Py.Plus num_punct; Py.Eol].

Definition common_patterns : list Py.regex :=
  [ Py.Plus digit;                                         (* \d+ *)
    Py.Plus num_punct;                                     (* [\d.,]+ *)
    Py.Cat (Py.Rep 2 upper) (Py.UpTo 2 upper);             (* [A-Z]{2,4} *)
    Py.Seq [Py.Rep 4 digit; Py.Chr "-"; Py.Rep 2 digit;
            Py.Chr "-"; Py.Rep 2 digit];                   (* \d{4}-\d{2}-\d{2} *)
    Py.Seq [Py.Plus lower; Py.Chr "@"; Py.Plus lower;
            Py.Chr "."; Py.Plus lower] ].        (* [a-z]+@[a-z]+\.[a-z]+ *)

(** The scoring of lines 53-107, as a function of the two ratios and of the
    outcome of the three value tests: [diversity] is signal 3, [numeric]
    signal 4 and [structured] signal 5 (the last two are [false] when no
    filled value is non-empty).  Returns the confidence and the reasons. *)
Definition score_signals (empty_ratio filled_ratio : float)
    (diversity numeric structured : bool) : float * list string :=
  let fillability_score := 0.0%float in
  let reasons : list string := [] in
  let '(fillability_score, reasons) :=
    if PrimFloat.leb empty_ratio 0.1 && PrimFloat.leb 0.3 filled_ratio
    then ((fillability_score + 0.8)%float, reasons ++ ["empty_to_filled"])
    else if PrimFloat.ltb empty_ratio filled_ratio
            && PrimFloat.leb 0.2 (filled_ratio - empty_ratio)
    then ((fillability_score + 0.6)%float, reasons ++ ["increased_filling"])
    else (fillability_score, reasons) in
  let '(fillability_score, reasons) :=
    if diversity
    then ((fillability_score + 0.3)%float,
          reasons ++ ["value_diversity_increase"])
    else (fillability_score, reasons) in
  let '(fillability_score, reasons) :=
    if numeric
    then ((fillability_score + 0.2)%float, reasons ++ ["numeric_pattern"])
    else (fillability_score, reasons) in
  let '(fillability_score, reasons) :=
    if structured
    then ((fillability_score + 0.1)%float, reasons ++ ["structured_pattern"])
    else (fillability_score, reasons) in
  (Py.fmin fillability_score 1.0, reasons).

Definition analyze_column_filling_patterns
    (empty_rows filled_rows : list (gmap string Py.cell))
    (column_key : string) : analysis_result :=
  let empty_values := column_values empty_rows column_key in
  let filled_values := column_values filled_rows column_key in
  let empty_non_empty := length (filter non_empty empty_values) in
  let filled_non_empty := length (filter non_empty filled_values) in
  let total_rows := length empty_values `min` length filled_values in
  if bool_decide (total_rows = 0) then NoData false 0.0 "no_data" else
  let empty_ratio := Py.truediv empty_non_empty total_rows in
  let filled_ratio := Py.truediv filled_non_empty total_rows in
  let diversity :=
    bool_decide (0 < length filled_values ∧ 0 < length empty_values) &&
    let empty_unique := Py.set_of (filter non_empty empty_values) in
    let filled_unique := Py.set_of (filter non_empty filled_values) in
    PrimFloat.ltb (Py.float_of_nat (size empty_unique) * 1.5)
                  (Py.float_of_nat (size filled_unique)) in
  let filled_non_empty_values := filter non_empty filled_values in
  let has_values := bool_decide (filled_non_empty_values ≠ []) in
  let numeric :=
    has_values &&
    let numeric_count :=
      length (filter (λ v, Py.re_match numeric_re (Py.remove_char " " v))
                     filled_non_empty_values) in
    let numeric_ratio :=
      Py.truediv numeric_count (length filled_non_empty_values) in
    PrimFloat.ltb 0.7 numeric_ratio in
  let structured :=
    has_values &&
    let pattern_matches :=
      length (filter
                (λ pattern,
                   0 < length (filter (λ v, Py.re_search pattern v)
                                      filled_non_empty_values))
                common_patterns) in
    bool_decide (2 ≤ pattern_matches) in
  let '(confidence, reasons) :=
    score_signals empty_ratio filled_ratio diversity numeric structured in
  let is_fillable := PrimFloat.leb 0.3 confidence in
  Analyzed {| fillable := is_fillable;
              confidence := confidence;
              empty_ratio := empty_ratio;
              filled_ratio := filled_ratio;
              empty_count := empty_non_empty;
              filled_count := filled_non_empty;
              total_rows := total_rows;
              reasons := reasons;
              filled_sample_values := take 10 filled_non_empty_values |}.

End EnhancedTrainer.

(* ===================================================================== *)
(** * enhanced_trainer.py: [enhanced_merge_patterns] *)
(* ===================================================================== *)

Module EnhancedMerge.
Import Store.

(** The body of the loop of [enhanced_merge_patterns] for a sheet that the
    merged store holds: the value patterns of the incoming sheet, if it
    has any, are written over those of the merged one. *)
Definition merge_sheet_patterns (target sheet_data : sheet_entry)
    : sheet_entry :=
  let enhanced_patterns := Store.enhanced_patterns sheet_data in
  if bool_decide (enhanced_patterns = ∅) then target
  else
    {| header_map := header_map target;
       columns_to_fill := columns_to_fill target;
       column_positions := column_positions target;
       verifications := verifications target;
       enhanced_patterns :=
         Py.update_from (λ _ patterns, patterns)
           enhanced_patterns (Store.enhanced_patterns target) |}.

Definition enhanced_merge_patterns (store1 store2 : store) : store :=
  let merged := merge_patterns store1 store2 in
  {| sheets :=
       map_fold (λ sheet_name sheet_data merged_sheets,
                   match merged_sheets !! sheet_name with
                   | Some target =>
                       <[sheet_name :=
                           merge_sheet_patterns target sheet_data]>
                         merged_sheets
                   | None => merged_sheets
                   end)
                (sheets merged) (sheets store2) |}.

End EnhancedMerge.

(* ===================================================================== *)
(** * enhanced_header_detector.py *)
(* ===================================================================== *)

Module HeaderDetector.

(** ** [clean_header_name] *)

(** [self.template_patterns] *)
Definition template_patterns : list Py.regex :=
  [ Py.Seq [Py.Lit "<<"; Py.StarLazy Py.Dot; Py.Lit ">>"];  (* <<.*?>> *)
    Py.Seq [Py.Lit "{{"; Py.StarLazy Py.Dot; Py.Lit "}}"];  (* \{\{.*?\}\} *)
    Py.Seq [Py.Lit "${"; Py.StarLazy Py.Dot; Py.Lit "}"];   (* \$\{.*?\} *)
    Py.Lit "axis(";                                         (* axis\( *)
    Py.Lit "bid|";                                          (* bid\| *)
    Py.Lit "template.";                                     (* template\. *)
    Py.Lit "var." ].                                        (* var\. *)

(** [r'^(axis|bid|itemType|predefinedAlternativeBid)[:|\|]'] *)
Definition system_prefix : Py.regex :=
  Py.Seq [ Py.Bol;
           Py.Alt (Py.Lit "axis")
             (Py.Alt (Py.Lit "bid")
                (Py.Alt (Py.Lit "itemType")
                   (Py.Lit "predefinedAlternativeBid")));
           Py.OneOf ":|" ].

(** [r'\|.*$'] *)
Definition pipe_tail : Py.regex :=
  Py.Seq [Py.Chr "|"; Py.Star Py.Dot; Py.Eol].

(** [r'[(){}\[\]]'] *)
Definition is_bracket (c : ascii) : bool := bool_decide (c ∈ Py.chars "(){}[]").
Definition is_underscore (c : ascii) : bool := bool_decide (c = "_"%char).

(** The first half of [clean_header_name]: the template markers, the system
    prefix, and everything from a pipe on. *)
Definition strip_markers (raw_header : string) : string :=
  let cleaned := raw_header in
  let cleaned :=
    foldl (λ cleaned pattern, Py.re_sub pattern "" cleaned)
          cleaned template_patterns in
  let cleaned := Py.re_sub system_prefix "" cleaned in
  let cleaned := Py.re_sub pipe_tail "" cleaned in
  cleaned.

(** The second half: brackets, white space, underscores, case. *)
Definition normalize (cleaned : string) : string :=
  let cleaned := Py.re_sub (Py.Cls is_bracket) "" cleaned in
  let cleaned := Py.re_sub (Py.Plus (Py.Cls Py.is_space)) "_" (Py.strip cleaned) in
  let cleaned := Py.re_sub (Py.Plus (Py.Cls is_underscore)) "_" cleaned in
  let cleaned := Py.lower (Py.strip_char "_" cleaned) in
  cleaned.

Definition clean_header_name (raw_header : string) : string :=
  normalize (strip_markers raw_header).

(** ** The four heuristic strategies *)

(** A sheet of a structured document. *)
Record sheet_data := SheetData {
  columns : list string;
  data : list (gmap string Py.cell)
}.

(** The diagnostics attached to a candidate. *)
Record analysis := Analysis {
  strategy : string;
  details : list (string * Q)
}.

(** [(row_idx, score, analysis)] *)
Record candidate := Candidate {
  row_index : nat;
  score : Q;
  diagnostics : analysis
}.

(** [str(row.get(f'col_{i}', '')).strip()] *)
Definition cell_text (row : gmap string Py.cell) (i : nat) : string :=
  Py.strip (Py.str_of (default (Py.CStr "") (row !! ("col_" +:+ pretty i)))).

(** [val and val.lower() != 'nan'] *)
Definition header_like (val : string) : Prop :=
  val ≠ "" ∧ Py.lower val ≠ "nan".

#[global] Instance header_like_dec val : Decision (header_like val).
Proof. unfold header_like. apply _. Defined.

(** The values a strategy collects from a row. *)
Definition row_values (column_count : nat) (row : gmap string Py.cell)
    : list string :=
  filter header_like (cell_text row <$> seq 0 column_count).

(** The loop shared by the four strategies: the first 50 rows, skipping a
    row with fewer than three values; [rate] scores a row from its values
    and says whether it is kept. *)
Definition scan_rows (sheet : sheet_data)
    (rate : nat → list string → option (Q * analysis)) : list candidate :=
  let column_count := length (columns sheet) in
  let data_rows := data sheet in
  omap (λ row_idx,
          row ← data_rows !! row_idx;
          let values := row_values column_count row in
          if bool_decide (length values < 3) then None
          else '(score, analysis) ← rate column_count values;
               Some (Candidate row_idx score analysis))
       (seq 0 (50 `min` length data_rows)).

(** [self.business_keywords] *)
Definition business_keywords : list (string * list string) :=
  [ ("logistics", ["lane"; "service"; "port"; "origin"; "destination";
                   "carrier"; "freight"; "shipment"; "transport"; "routing";
                   "mode"; "vessel"]);
    ("financial", ["cost"; "price"; "rate"; "fee"; "charge"; "amount";
                   "total"; "minimum"; "surcharge"; "currency"; "billing";
                   "payment"; "invoice"]);
    ("measurement", ["cbm"; "volume"; "weight"; "kilos"; "pounds"; "tons";
                     "cubic"; "meter"; "feet"; "dimensions"; "length";
                     "width"; "height"]);
    ("temporal", ["date"; "time"; "effective"; "expiration"; "valid";
                  "period"; "duration"; "schedule"; "start"; "end"; "from";
                  "to"]);
    ("identifiers", ["id"; "code"; "number"; "reference"; "tracking";
                     "lane_id"; "item"; "sku"; "part"; "model"; "serial"]);
    ("geographic", ["country"; "region"; "zone"; "area"; "location";
                    "address"; "city"; "state"; "continent"; "territory"]);
    ("business", ["quote"; "bid"; "proposal"; "contract"; "agreement";
                  "terms"; "conditions"; "client"; "customer"; "vendor";
                  "supplier"]);
    ("operational", ["status"; "type"; "category"; "class"; "grade"; "level";
                     "priority"; "urgency"; "requirements"]) ].

(** Some category has a keyword inside the lower-cased value. *)
Definition has_business_keyword (value : string) : bool :=
  let value_lower := Py.lower value in
  existsb (λ '(category, keywords),
             existsb (λ keyword, Py.contains keyword value_lower) keywords)
          business_keywords.

Definition strategy_1_pattern_based (sheet : sheet_data) : list candidate :=
  Py.sorted_desc score
    (scan_rows sheet (λ column_count values,
       let keyword_matches := length (filter has_business_keyword values) in
       let score := (0 + Py.qdiv keyword_matches (length values) * 40)%Q in
       let analysis :=
         Analysis "pattern_based"
           [("keyword_matches", Py.Q_of_nat keyword_matches);
            ("keyword_ratio", Py.qdiv keyword_matches (length values))] in
       if Py.Qltb 15 score then Some (score, analysis) else None)).

Definition strategy_2_structural_analysis (sheet : sheet_data)
    : list candidate :=
  Py.sorted_desc score
    (scan_rows sheet (λ column_count values,
       let score := 0%Q in
       let coverage := Py.qdiv (length values) column_count in
       let score := (score + coverage * 30)%Q in
       let uniqueness :=
         Py.qdiv (size (Py.set_of values)) (length values) in
       let score := (score + uniqueness * 25)%Q in
       let underscore_ratio :=
         Py.qdiv (length (filter (λ v, Py.contains "_" v) values))
                 (length values) in
       let score := (score + underscore_ratio * 20)%Q in
       let avg_length := Py.qmean ((λ v, Py.Q_of_nat (Py.len v)) <$> values) in
       let score :=
         if Qle_bool 3 avg_length && Qle_bool avg_length 25
         then (score + 15)%Q else score in
       let analysis :=
         Analysis "structural"
           [("coverage", coverage); ("uniqueness", uniqueness);
            ("underscore_ratio", underscore_ratio);
            ("avg_length", avg_length)] in
       if Py.Qltb 20 score then Some (score, analysis) else None)).

Definition strategy_3_template_pattern (sheet : sheet_data)
    : list candidate :=
  Py.sorted_desc score
    (scan_rows sheet (λ column_count values,
       let template_matches :=
         length (filter (λ val, existsb (λ pattern, Py.re_search pattern val)
                                        template_patterns)
                        values) in
       let template_ratio := Py.qdiv template_matches (length values) in
       let score := (template_ratio * 50)%Q in
       let analysis :=
         Analysis "template_pattern"
           [("template_matches", Py.Q_of_nat template_matches);
            ("template_ratio", template_ratio);
            ("total_values", Py.Q_of_nat (length values))] in
       if Py.Qltb 10 score then Some (score, analysis) else None)).

(** [self.decision_history['learning_patterns']] *)
Record learning_patterns := LearningPatterns {
  positive_indicators : list string;
  negative_indicators : list string
}.

(** What one value adds to [pattern_matches]: 1 if a positive indicator is
    inside the cleaned value, minus 0.5 for every negative indicator
    inside it. *)
Definition indicator_score (learned : learning_patterns) (value : string)
    : Q :=
  let value_clean := clean_header_name value in
  let inside (pattern : string) : bool :=
    Py.contains (Py.lower pattern) (Py.lower value_clean) in
  ((if existsb inside (positive_indicators learned) then 1 else 0)
   - 0.5 * Py.Q_of_nat (length (filter (λ pattern, inside pattern)
                                       (negative_indicators learned))))%Q.

Definition strategy_4_historical_learning (learned : learning_patterns)
    (sheet : sheet_data) : list candidate :=
  Py.sorted_desc score
    (scan_rows sheet (λ column_count values,
       let pattern_matches :=
         foldl (λ acc value, (acc + indicator_score learned value)%Q)
               0%Q values in
       if Py.Qltb 0 pattern_matches
       then
         let score := (pattern_matches / Py.Q_of_nat (length values) * 30)%Q in
         let analysis :=
           Analysis "historical_learning"
             [("pattern_matches", pattern_matches);
              ("learned_patterns_applied",
               Py.Q_of_nat (length (positive_indicators learned)))] in
         Some (score, analysis)
       else None)).

(** ** [parse_openai_response] *)

(** [r'\{.*\}'] under [re.DOTALL] *)
Definition json_fragment : Py.regex :=
  Py.Seq [Py.Chr "{"; Py.Star Py.AnyChar; Py.Chr "}"].

(** The dict of the [else] branch ("Fallback parsing"). *)
Definition fallback_result (response_text : string) : Py.json :=
  Py.JObj [ ("validated_mapping", Py.JObj []);
            ("confidence", Py.JNum 0.5);
            ("reasoning", Py.JStr response_text);
            ("improvements", Py.JArr []) ].

(** The dict of the [except] branch; [e] is the text of the exception. *)
Definition parsing_error_result (e : string) : Py.json :=
  Py.JObj [ ("validated_mapping", Py.JObj []);
            ("confidence", Py.JNum 0);
            ("reasoning", Py.JStr ("Parsing error: " +:+ e));
            ("improvements", Py.JArr []) ].

(** [json_loads] stands for [json.loads] of the Python library: the decoded
    document, or the text of the exception it raises. *)
Definition parse_openai_response (json_loads : string → string + Py.json)
    (response_text : string) : Py.json :=
  match Py.re_search_group json_fragment response_text with
  | Some fragment =>
      match json_loads fragment with
      | inr result => result
      | inl e => parsing_error_result e
      end
  | None => fallback_result response_text
  end.

(** The four strategies under one name, with the score a row has to
    exceed to be kept: 15, 20 and 10 for the first three; the fourth keeps a
    row when [pattern_matches > 0], that is when its score is above 0. *)
Inductive heuristic :=
| PatternBased | Structural | TemplatePattern | HistoricalLearning.

Definition run_heuristic (h : heuristic) (learned : learning_patterns)
    (sheet : sheet_data) : list candidate :=
  match h with
  | PatternBased => strategy_1_pattern_based sheet
  | Structural => strategy_2_structural_analysis sheet
  | TemplatePattern => strategy_3_template_pattern sheet
  | HistoricalLearning => strategy_4_historical_learning learned sheet
  end.

Definition minimum_score (h : heuristic) : Q :=
  match h with
  | PatternBased => 15
  | Structural => 20
  | TemplatePattern => 10
  | HistoricalLearning => 0
  end.

End HeaderDetector.

(* ===================================================================== *)
(** * enhanced_header_detector.py: the candidates of the detection *)
(* ===================================================================== *)

Module Detection.
Import HeaderDetector.

(** [extract_clean_headers]: the dict [{'col_i': cleaned}] as the list of
    its items, in the order in which the loop inserts them. *)
Definition extract_clean_headers (sheet : sheet_data) (row_idx : nat)
    : list (string * string) :=
  match data sheet !! row_idx with
  | None => []
  | Some header_row =>
      let column_count := length (columns sheet) in
      omap (λ i,
              let raw_header := cell_text header_row i in
              if decide (header_like raw_header) then
                let cleaned := clean_header_name raw_header in
                if bool_decide (cleaned ≠ "")
                then Some ("col_" +:+ pretty i, cleaned) else None
              else None)
           (seq 0 column_count)
  end.

(** One entry of [all_candidates] in [detect_headers_enhanced]. *)
Record header_candidate := HeaderCandidate {
  hc_row_index : nat;
  hc_score : Q;
  hc_strategy : string;
  hc_analysis : analysis;
  hc_detected_headers : list (string * string)
}.

(** The entries that the results of one strategy contribute. *)
Definition entries (sheet : sheet_data) (strategy : string)
    (results : list candidate) : list header_candidate :=
  (λ c, {| hc_row_index := row_index c;
           hc_score := score c;
           hc_strategy := strategy;
           hc_analysis := diagnostics c;
           hc_detected_headers :=
             extract_clean_headers sheet (row_index c) |}) <$> results.

(** The loop that removes duplicates: a candidate is kept when its row has
    not been seen. *)
Fixpoint unique_rows (seen_rows : gset nat) (l : list header_candidate)
    : list header_candidate :=
  match l with
  | [] => []
  | candidate :: l' =>
      if decide (hc_row_index candidate ∈ seen_rows)
      then unique_rows seen_rows l'
      else candidate
           :: unique_rows (seen_rows ∪ {[hc_row_index candidate]}) l'
  end.

(** What [detect_headers_enhanced] returns. *)
Record detection := Detection {
  file_name : string;
  strategy_results : nat * nat * nat * nat;
  candidates : list header_candidate;
  openai_validation : list (string * Py.json);
  final_mapping : Py.json;
  confidence : Py.json
}.

Section detector.

(** [strategy_5 sheet file candidates] is the dict that
    [strategy_5_openai_validation] returns; [learned] holds the learning
    patterns of the decision history when the fourth strategy reads them. *)
Context (strategy_5 :
           sheet_data → string → list header_candidate
           → list (string * Py.json))
        (learned : learning_patterns).

Definition unique_candidates (sheet : sheet_data) : list header_candidate :=
  let strategy1_results := strategy_1_pattern_based sheet in
  let strategy2_results := strategy_2_structural_analysis sheet in
  let strategy3_results := strategy_3_template_pattern sheet in
  let strategy4_results := strategy_4_historical_learning learned sheet in
  let all_candidates :=
    entries sheet "pattern_based" (take 2 strategy1_results)
    ++ entries sheet "structural" (take 2 strategy2_results)
    ++ entries sheet "template_pattern" (take 1 strategy3_results)
    ++ entries sheet "historical_learning" (take 1 strategy4_results) in
  unique_rows ∅ (Py.sorted_desc hc_score all_candidates).

Definition detect_headers_enhanced (sheet : sheet_data) (file : string)
    : detection :=
  let unique_candidates := unique_candidates sheet in
  let openai_result := strategy_5 sheet file (take 3 unique_candidates) in
  {| file_name := file;
     strategy_results :=
       (length (strategy_1_pattern_based sheet),
        length (strategy_2_structural_analysis sheet),
        length (strategy_3_template_pattern sheet),
        length (strategy_4_historical_learning learned sheet));
     candidates := take 5 unique_candidates;
     openai_validation := openai_result;
     final_mapping :=
       default (Py.JObj []) (Py.assoc "validated_mapping" openai_result);
     confidence := default (Py.JNum 0) (Py.assoc "confidence" openai_result) |}.

End detector.

End Detection.

(* ===================================================================== *)
(** * enhanced_header_detector.py: the learning patterns *)
(* ===================================================================== *)

Module Learning.
Import Py HeaderDetector.

(** The dict under ["learning_patterns"] in the decision history: each of
    the two lists is [None] when its key is absent. *)
Record pattern_dict := PatternDict {
  positive : option (list string);
  negative : option (list string)
}.

(** What a run of [update_learning_patterns] leaves: the dict after the
    update, or the key whose lookup raised [KeyError] and the dict at that
    point. *)
Inductive outcome :=
| Updated (patterns : pattern_dict)
| KeyError (key : string) (patterns : pattern_dict).

(** Lines 263-273 of [strategy_4_historical_learning]: the patterns the
    strategy works with, and the dict of the history afterwards.  A dict
    that is in the history gets the keys it lacks; the default dict of
    [.get] is not stored. *)
Definition strategy_4_patterns (history : option pattern_dict)
    : learning_patterns * option pattern_dict :=
  match history with
  | None => (LearningPatterns [] [], None)
  | Some learning_patterns =>
      let positive_indicators := default [] (positive learning_patterns) in
      let negative_indicators := default [] (negative learning_patterns) in
      (LearningPatterns positive_indicators negative_indicators,
       Some (PatternDict (Some positive_indicators)
                         (Some negative_indicators)))
  end.

(** The parts of one validated header that are new indicators. *)
Definition add_parts (positive_indicators : list string) (header : string)
    : list string :=
  if bool_decide (header ≠ "") && bool_decide (2 < len header) then
    let header_parts := split (replace_char "_" " " header) in
    foldl (λ indicators part,
             if bool_decide (2 < len part)
                && bool_decide (part ∉ indicators)
             then indicators ++ [part] else indicators)
          positive_indicators header_parts
  else positive_indicators.

(** [update_learning_patterns]; [history] is the entry of the decision
    history ([None]: [setdefault] installs the dict with two empty lists),
    [validated_mapping] the items of [ai_result["validated_mapping"]]. *)
Definition update_learning_patterns (history : option pattern_dict)
    (validated_mapping : list (string * string)) : outcome :=
  let learning_patterns :=
    default (PatternDict (Some []) (Some [])) history in
  match positive learning_patterns with
  | None => KeyError "positive_indicators" learning_patterns
  | Some positive_indicators =>
      let positive_indicators :=
        foldl (λ indicators '(col, header), add_parts indicators header)
              positive_indicators validated_mapping in
      let positive_indicators := last_n 100 positive_indicators in
      match negative learning_patterns with
      | None =>
          KeyError "negative_indicators"
            (PatternDict (Some positive_indicators) None)
      | Some negative_indicators =>
          Updated (PatternDict (Some positive_indicators)
                               (Some (last_n 50 negative_indicators)))
      end
  end.

End Learning.

(* ===================================================================== *)
(** * cross_sheet_analyzer.py *)
(* ===================================================================== *)

Module CrossSheet.
Import Store.

(** A document: the sheets of the JSON object in their order.  A value that
    is not a dict with both a ['columns'] and a ['data'] key is [None]. *)
Definition document : Type := list (string * option HeaderDetector.sheet_data).

(** One entry of [candidates] in [_find_best_cross_sheet_match]. *)
Record match_candidate := MatchCandidate {
  mc_confidence : float;
  mc_match_type : string;
  mc_source_sheet : string;
  mc_label : string;
  mc_method : string;
  mc_is_learned_fillable : bool;
  mc_decision_factors : list string
}.

(** What [_find_best_cross_sheet_match] returns. *)
Record best_match := BestMatch {
  bm_confidence : float;
  bm_label : string;
  bm_method : string;
  bm_is_learned_fillable : bool;
  bm_decision_factors : list string;
  bm_source_patterns : list string;
  bm_best_match_type : string
}.

(** One entry of ["columns"] or ["unknowns"]. *)
Record column_result := ColumnResult {
  position : nat;
  header : string;
  label : string;
  confidence : float;
  verified_by : string;
  decision : string;
  learned_fillable : bool;
  decision_factors : list string;
  enhanced_header : bool;
  source_patterns : list string;
  source_sheet : option string   (* set by [analyze_file] *)
}.

(** The per-sheet dict: the error entry, or the results. *)
Inductive sheet_results :=
| SheetError (error : string)
| SheetResults (columns unknowns : list column_result)
    (total_headers analyzed_columns cross_sheet_patterns_used : nat).

Definition columns_of (r : sheet_results) : list column_result :=
  match r with
  | SheetError _ => []
  | SheetResults columns _ _ _ _ => columns
  end.

Definition unknowns_of (r : sheet_results) : list column_result :=
  match r with
  | SheetError _ => []
  | SheetResults _ unknowns _ _ _ => unknowns
  end.

Definition patterns_used_of (r : sheet_results) : nat :=
  match r with
  | SheetError _ => 0
  | SheetResults _ _ _ _ used => used
  end.

Definition is_error (r : sheet_results) : bool :=
  match r with
  | SheetError _ => true
  | SheetResults _ _ _ _ _ => false
  end.

Record summary := Summary {
  sheets_processed : nat;
  total_fillable_columns : nat;
  total_unknown_columns : nat;
  patterns_analyzed : nat;
  best_sheet : option string;
  best_sheet_score : float;
  enhancement_used : bool;
  quality_threshold : float
}.

(** What [analyze_file] returns.  [primary_results] is [None] for the empty
    dict. *)
Record cross_result := CrossResult {
  primary_sheet : option string;
  primary_results : option sheet_results;
  all_sheet_results : list (string * sheet_results);
  cross_summary : summary
}.

(** [min(x, 1.0)] *)
Definition cap (x : float) : float := Py.fmin x 1.0.

(** [sum(c["confidence"] for c in columns) / len(columns)] *)
Definition avg_confidence (columns : list column_result) : float :=
  (Py.fsum (confidence <$> columns) / Py.float_of_nat (length columns))%float.

(** [len(columns) * avg_confidence] *)
Definition sheet_score (columns : list column_result) : float :=
  (Py.float_of_nat (length columns) * avg_confidence columns)%float.

(** [list_value_columns]: [range(1, len(headers))] *)
Definition list_value_columns (headers : list string) : list nat :=
  seq 1 (length headers - 1).

Section analyzer.

(** The collaborators of the analyzer that lie outside the pipeline:
    - [ratio a b] is [difflib.SequenceMatcher(None, a, b).ratio()];
    - [format_2f x] is the text of [f"{x:.2f}"];
    - [verify_label] is the label verifier of [verifier.py];
    - [detect_headers sheet file] is the header detection of [io_utils.py]
      as [_analyze_sheet_with_cross_patterns] obtains it, fall-back
      included: the headers, whether the enhanced detection was used, and
      its confidence. *)
Context (ratio : string → string → float)
        (format_2f : float → string)
        (verify_label : string → string * float * string)
        (detect_headers :
           HeaderDetector.sheet_data → string → list string * bool * float).

(** [load_json path]: the document, or [None] when reading or decoding the
    file raises. *)
Context (load_json : string → option document).

(** [self.store] and [self.use_enhanced_headers] *)
Context (st : store) (use_enhanced_headers : bool).

Definition _find_semantic_matches (header : string)
    (verifications : gmap string verification) : list match_candidate :=
  omap (λ '(verified_header, verification),
          let similarity :=
            ratio (Py.lower header) (Py.lower verified_header) in
          if PrimFloat.ltb 0.7 similarity then
            let confidence :=
              (similarity * default 0 (v_confidence verification)
               * 0.7)%float in
            Some {| mc_confidence := confidence;
                    mc_match_type := "";
                    mc_source_sheet := "";
                    mc_label := default "unknown" (v_label verification);
                    mc_method :=
                      "semantic_similarity_" +:+ format_2f similarity;
                    mc_is_learned_fillable := false;
                    mc_decision_factors :=
                      ["semantic_match_" +:+ format_2f similarity] |}
          else None)
       (map_to_list verifications).

(** The candidates that one learned sheet contributes. *)
Definition sheet_candidates (header : string) (learned_sheet_name : string)
    (learned_data : sheet_entry) : list match_candidate :=
  let learned_fillable := Py.set_of (columns_to_fill learned_data) in
  let verifications := Store.verifications learned_data in
  let enhanced_patterns := Store.enhanced_patterns learned_data in
  (if bool_decide (header ∈ learned_fillable) then
     let verification := verifications !! header in
     [ {| mc_confidence := 0.95;
          mc_match_type := "direct_learned_fillable";
          mc_source_sheet := learned_sheet_name;
          mc_label := default "unknown" (verification ≫= v_label);
          mc_method := default "learned" (verification ≫= v_method);
          mc_is_learned_fillable := true;
          mc_decision_factors := ["direct_match"; "learned_fillable"] |} ]
   else [])
  ++ match verifications !! header with
     | Some verification =>
         let base_conf := default 0%float (v_confidence verification) in
         [ {| mc_confidence := (base_conf * 0.85)%float;
              mc_match_type := "verification_match";
              mc_source_sheet := learned_sheet_name;
              mc_label := default "unknown" (v_label verification);
              mc_method := default "learned" (v_method verification);
              mc_is_learned_fillable :=
                bool_decide (header ∈ learned_fillable);
              mc_decision_factors := ["verification_match"] |} ]
     | None => []
     end
  ++ match enhanced_patterns !! header with
     | Some pattern_data =>
         [ {| mc_confidence := 0.75;
              mc_match_type := "enhanced_pattern_match";
              mc_source_sheet := learned_sheet_name;
              mc_label := default "unknown" (pd_label pattern_data);
              mc_method := "enhanced_pattern";
              mc_is_learned_fillable :=
                bool_decide (header ∈ learned_fillable);
              mc_decision_factors := ["enhanced_pattern"] |} ]
     | None => []
     end
  ++ ((λ m, {| mc_confidence := mc_confidence m;
               mc_match_type := "semantic_similarity";
               mc_source_sheet := learned_sheet_name;
               mc_label := mc_label m;
               mc_method := mc_method m;
               mc_is_learned_fillable := mc_is_learned_fillable m;
               mc_decision_factors := mc_decision_factors m |})
        <$> _find_semantic_matches header verifications).

(** All candidates, sheet after sheet. *)
Definition all_candidates (header : string)
    (all_patterns : gmap string sheet_entry) : list match_candidate :=
  '(learned_sheet_name, learned_data) ← map_to_list all_patterns;
  sheet_candidates header learned_sheet_name learned_data.

Definition _find_best_cross_sheet_match (header : string)
    (all_patterns : gmap string sheet_entry) : best_match :=
  match all_candidates header all_patterns with
  | first :: rest =>
      let candidates := first :: rest in
      let best := Py.max_by mc_confidence first rest in
      let source_sheets :=
        elements (Py.set_of (mc_source_sheet <$> candidates)) in
      {| bm_confidence := mc_confidence best;
         bm_label := mc_label best;
         bm_method := mc_method best +:+ "+cross-sheet";
         bm_is_learned_fillable := mc_is_learned_fillable best;
         bm_decision_factors :=
           mc_decision_factors best ++ ["cross_sheet_analysis"];
         bm_source_patterns := source_sheets;
         bm_best_match_type := mc_match_type best |}
  | [] =>
      let '(label, conf, method) := verify_label header in
      {| bm_confidence := conf;
         bm_label := label;
         bm_method := method;
         bm_is_learned_fillable := false;
         bm_decision_factors := ["live_verification"];
         bm_source_patterns := [];
         bm_best_match_type := "fallback" |}
  end.

(** The body of the loop over [value_cols], for a header that is not
    empty. *)
Definition analyze_column (enhanced_used : bool)
    (enhancement_confidence threshold : float) (idx : nat)
    (raw_header : string) : column_result :=
  let best_match := _find_best_cross_sheet_match raw_header (sheets st) in
  let final_confidence := bm_confidence best_match in
  let boosted := enhanced_used && PrimFloat.ltb 0.8 enhancement_confidence in
  let final_confidence :=
    if boosted then (final_confidence + 0.15)%float else final_confidence in
  let factors :=
    if boosted then bm_decision_factors best_match ++ ["ai_enhanced_header"]
    else bm_decision_factors best_match in
  let final_confidence := cap final_confidence in
  let is_fillable :=
    bm_is_learned_fillable best_match
    || PrimFloat.leb threshold final_confidence in
  {| position := idx;
     header := raw_header;
     label := bm_label best_match;
     confidence := final_confidence;
     verified_by := bm_method best_match;
     decision := if is_fillable then "fill" else "unknown";
     learned_fillable := bm_is_learned_fillable best_match;
     decision_factors := factors;
     enhanced_header := enhanced_used;
     source_patterns := bm_source_patterns best_match;
     source_sheet := None |}.

(** [get_sheet]: [json_obj.get(sheet_name)] *)
Definition get_sheet (json_obj : document) (sheet_name : string)
    : option HeaderDetector.sheet_data :=
  Py.assoc sheet_name json_obj ≫= id.

Definition _analyze_sheet_with_cross_patterns (json_obj : document)
    (sheet_name file_path : string) (threshold : float) : sheet_results :=
  match get_sheet json_obj sheet_name with
  | None => SheetError "sheet not found"
  | Some sheet =>
      let '(headers, enhanced_used, enhancement_confidence) :=
        detect_headers sheet file_path in
      let value_cols := list_value_columns headers in
      let analyzed :=
        omap (λ idx,
                let raw_header := default "" (headers !! idx) in
                if bool_decide (raw_header = "") then None
                else Some (analyze_column enhanced_used
                             enhancement_confidence threshold idx raw_header))
             value_cols in
      SheetResults
        (filter (λ c, decision c = "fill") analyzed)
        (filter (λ c, decision c ≠ "fill") analyzed)
        (length headers) (length value_cols) (size (sheets st))
  end.

(** The words that mark a sheet as metadata. *)
Definition skip_words : list string :=
  ["instruction"; "toc"; "validation"; "info"; "confidential"; "保密"].

Definition _find_data_sheets (json_obj : document) : list string :=
  omap (λ '(sheet_name, sheet),
          sheet_data ← sheet;
          if existsb (λ skip_word,
                        Py.contains skip_word (Py.lower sheet_name))
                     skip_words
          then None
          else if bool_decide
                    (2 ≤ length (HeaderDetector.data sheet_data)
                     ∧ 3 ≤ length (HeaderDetector.columns sheet_data))
          then Some sheet_name else None)
       json_obj.

(** The search for the best sheet: the running pair
    [(best_sheet, best_sheet_score)], updated by a sheet without error,
    with columns, whose score is above the best so far. *)
Definition best_sheet_step (acc : option string * float)
    (entry : string * sheet_results) : option string * float :=
  let '(sheet_name, sheet_results) := entry in
  if is_error sheet_results then acc
  else
    let columns := columns_of sheet_results in
    if bool_decide (columns = []) then acc
    else
      let sheet_score := sheet_score columns in
      if PrimFloat.ltb acc.2 sheet_score then (Some sheet_name, sheet_score)
      else acc.

Definition find_best_sheet (all_results : list (string * sheet_results))
    : option string * float :=
  foldl best_sheet_step (None, 0%float) all_results.

Definition _consolidate_cross_sheet_results
    (all_results : list (string * sheet_results)) : cross_result :=
  let '(best_sheet, best_sheet_score) := find_best_sheet all_results in
  let primary_results :=
    match best_sheet with
    | Some name =>
        if bool_decide (name = "") then None else Py.assoc name all_results
    | None => None
    end in
  let live := filter (λ e, is_error e.2 = false) all_results in
  {| primary_sheet := best_sheet;
     primary_results := primary_results;
     all_sheet_results := all_results;
     cross_summary :=
       {| sheets_processed := length live;
          total_fillable_columns :=
            foldr (λ e n, length (columns_of e.2) + n) 0 live;
          total_unknown_columns :=
            foldr (λ e n, length (unknowns_of e.2) + n) 0 live;
          patterns_analyzed :=
            foldr (λ e n, patterns_used_of e.2 + n) 0 live;
          best_sheet := best_sheet;
          best_sheet_score := best_sheet_score;
          enhancement_used := use_enhanced_headers;
          quality_threshold := 0.7 |} |}.

(** The per-sheet results of [analyze_file] for a loaded document.  Each
    fillable column is tagged with the sheet it was found in (the
    bookkeeping of [best_matches] writes the tag into the shared dict). *)
Definition analyze_sheets (ej : document) (empty_file : string)
    (target_sheet : option string) (threshold : float)
    : list (string * sheet_results) :=
  let available_sheets := _find_data_sheets ej in
  let sheets_to_analyze :=
    match target_sheet with
    | Some t =>
        if bool_decide (t ≠ "" ∧ t ∈ available_sheets) then [t]
        else available_sheets
    | None => available_sheets
    end in
  let tag (sheet_name : string) (c : column_result) : column_result :=
    {| position := position c; header := header c; label := label c;
       confidence := confidence c; verified_by := verified_by c;
       decision := decision c; learned_fillable := learned_fillable c;
       decision_factors := decision_factors c;
       enhanced_header := enhanced_header c;
       source_patterns := source_patterns c;
       source_sheet := Some sheet_name |} in
  (λ sheet_name,
     (sheet_name,
      match _analyze_sheet_with_cross_patterns ej sheet_name empty_file
              threshold with
      | SheetResults columns unknowns th ac cp =>
          SheetResults (tag sheet_name <$> columns) unknowns th ac cp
      | SheetError e => SheetError e
      end)) <$> sheets_to_analyze.

(** [analyze_file]; [None] when the file cannot be loaded. *)
Definition analyze_file (empty_file : string) (target_sheet : option string)
    (threshold : float) : option cross_result :=
  ej ← load_json empty_file;
  Some (_consolidate_cross_sheet_results
          (analyze_sheets ej empty_file target_sheet threshold)).

End analyzer.

(** [CrossSheetAnalyzer(store, use_enhanced_headers).analyze_file(..)] *)
Definition cross_sheet_identify_required_columns
    ratio format_2f verify_label detect_headers load_json
    (empty_file : string) (st : store) (sheet_name : option string)
    (threshold : float) (use_enhanced_headers : bool) : option cross_result :=
  analyze_file ratio format_2f verify_label detect_headers load_json
    st use_enhanced_headers empty_file sheet_name threshold.

End CrossSheet.

(* ===================================================================== *)
(** * identifier.py *)
(* ===================================================================== *)

Module Identifier.
Import Store CrossSheet.

Section identifier.

(** The collaborators of [cross_sheet_analyzer.py], and the sheet-first
    identification [enhanced_identify_required_columns] that
    [identify_required_columns] falls back to, with the type of its
    report. *)
Context {report : Type}
        (ratio : string → string → float)
        (format_2f : float → string)
        (verify_label : string → string * float * string)
        (detect_headers :
           HeaderDetector.sheet_data → string → list string * bool * float)
        (load_json : string → option document)
        (enhanced_identify_required_columns :
           string → store → option string → float → bool → report).

(** The two dicts [identify_required_columns] can return. *)
Inductive identification :=
| CrossSheetAnalysis (cross_sheet_results : cross_result)
| SheetFirst (results : report).

(** The test on the primary results: they have columns, and the average
    confidence of the columns reaches 80% of the threshold. *)
Definition good_primary (primary_results : option sheet_results)
    (threshold : float) : bool :=
  match primary_results with
  | Some (SheetResults columns _ _ _ _) =>
      bool_decide (columns ≠ [])
      && PrimFloat.leb (threshold * 0.8) (avg_confidence columns)
  | _ => false
  end.

Definition identify_required_columns (empty_file : string) (st : store)
    (sheet_name : option string) (threshold : float) : identification :=
  match cross_sheet_identify_required_columns
          ratio format_2f verify_label detect_headers load_json
          empty_file st sheet_name threshold true with
  | Some cross_sheet_results =>
      if good_primary (primary_results cross_sheet_results) threshold
      then CrossSheetAnalysis cross_sheet_results
      else SheetFirst (enhanced_identify_required_columns
                         empty_file st sheet_name threshold true)
  | None =>
      SheetFirst (enhanced_identify_required_columns
                    empty_file st sheet_name threshold true)
  end.

End identifier.

End Identifier.

(* ===================================================================== *)
(** * identifier.py: the sheet-first identification *)
(* ===================================================================== *)

Module SheetFirst.
Import Store CrossSheet.

(** [find_data_sheets] of [identifier.py] and of [trainer.py] (the two
    functions have the same text). *)
Definition find_data_sheets (json_obj : document) : list string :=
  omap (λ '(sheet_name, sheet),
          sheet_data ← sheet;
          if existsb (λ skip_word,
                        Py.contains skip_word (Py.lower sheet_name))
                     skip_words
          then None
          else
            let data_rows := HeaderDetector.data sheet_data in
            let columns := HeaderDetector.columns sheet_data in
            if bool_decide (length data_rows < 2 ∨ length columns < 3)
            then None
            else Some sheet_name)
       json_obj.

(** The ["pattern_analysis"] entry that the enhanced trainer stores in a
    verdict: its confidence ([None] when the key is absent) and its
    reasons. *)
Record pattern_analysis := PatternAnalysis {
  pa_confidence : option float;
  pa_reasons : list string
}.

(** A stored verdict with its pattern analysis, if it has one. *)
Record verdict := Verdict {
  stored : verification;
  analysis : option pattern_analysis
}.

(** The verdict is the empty dict. *)
Definition is_empty (v : verdict) : bool :=
  bool_decide (v_label (stored v) = None ∧ v_confidence (stored v) = None
               ∧ v_method (stored v) = None ∧ analysis v = None).

(** One entry of ["columns"] or ["unknowns"] in the report of
    [enhanced_identify_required_columns]. *)
Record column_report := ColumnReport {
  position : nat;
  header : string;
  label : string;
  confidence : float;
  verified_by : string;
  decision : string;
  learned_fillable : bool;
  decision_factors : list string;
  enhanced_header : bool
}.

Section sheet_first.

Context (verify_label : string → string * float * string).

(** The body of the loop over [value_cols] in
    [enhanced_identify_required_columns], for a header [raw] that is not
    empty: [columns_to_fill], [verifications] and [enhanced_patterns] are
    what the store learned for the sheet. *)
Definition score_column (columns_to_fill : list string)
    (verifications : gmap string verdict)
    (enhanced_patterns : gmap string pattern_data)
    (enhanced_used : bool) (enhancement_confidence threshold : float)
    (idx : nat) (raw : string) : column_report :=
  let learned_raws := Py.set_of columns_to_fill in
  let confidence_score := 0%float in
  let decision_factors : list string := [] in
  (* Factor 1 *)
  let '(confidence_score, decision_factors) :=
    if bool_decide (raw ∈ learned_raws)
    then ((confidence_score + 0.7)%float,
          decision_factors ++ ["learned_fillable"])
    else (confidence_score, decision_factors) in
  (* Factors 2 and 3 *)
  let learned_verification :=
    match verifications !! raw with
    | Some v => if is_empty v then None else Some v
    | None => None
    end in
  let '(confidence_score, decision_factors, method) :=
    match learned_verification with
    | Some v =>
        let base_conf := default 0%float (v_confidence (stored v)) in
        let confidence_score := (confidence_score + base_conf * 0.3)%float in
        let method := default "learned" (v_method (stored v)) in
        match analysis v with
        | Some pa =>
            let pattern_conf := default 0%float (pa_confidence pa) in
            ((confidence_score + pattern_conf * 0.2)%float,
             decision_factors ++ take 2 (pa_reasons pa), method)
        | None => (confidence_score, decision_factors, method)
        end
    | None =>
        let '(label, conf, method) := verify_label raw in
        ((confidence_score + conf * 0.3)%float, decision_factors, method)
    end in
  (* Factor 4 *)
  let '(confidence_score, decision_factors) :=
    match enhanced_patterns !! raw with
    | Some pattern_data =>
        if bool_decide (pd_value_types pattern_data ≠ [])
        then ((confidence_score + 0.1)%float,
              decision_factors ++ ["has_value_patterns"])
        else (confidence_score, decision_factors)
    | None => (confidence_score, decision_factors)
    end in
  (* Factor 5 *)
  let '(confidence_score, decision_factors) :=
    if enhanced_used && PrimFloat.ltb 0.8 enhancement_confidence
    then ((confidence_score + 0.15)%float,
          decision_factors ++ ["ai_enhanced_header"])
    else (confidence_score, decision_factors) in
  let final_confidence := CrossSheet.cap confidence_score in
  let enhanced_threshold := (threshold * 0.8)%float in
  let is_fillable :=
    bool_decide (raw ∈ learned_raws)
    || PrimFloat.leb enhanced_threshold final_confidence in
  let label :=
    match learned_verification with
    | Some v => default "unknown" (v_label (stored v))
    | None => (verify_label raw).1.1
    end in
  {| position := idx;
     header := raw;
     label := label;
     confidence := final_confidence;
     verified_by := method;
     decision := if is_fillable then "fill" else "unknown";
     learned_fillable :=
       if is_fillable then bool_decide (raw ∈ learned_raws) else false;
     decision_factors := decision_factors;
     enhanced_header := enhanced_used |}.

End sheet_first.

End SheetFirst.

(* ===================================================================== *)
(** * verifier.py *)
(* ===================================================================== *)

Module Verifier.
Import Py.

Section verifier.

(** [normalize] and [CONTROLLED_VOCAB] come from [schema.py]; the
    vocabulary is a dict, read in the order of its items. *)
Context (normalize : string → string)
        (CONTROLLED_VOCAB : list (string * list string)).

(** The test of the first loop on one label: the exact match, then the
    variants. *)
Definition match_label (n : string) (entry : string * list string)
    : option (string * float * string) :=
  let '(label, variants) := entry in
  if bool_decide (n = replace_char "_" " " label)
  then Some (label, 0.95%float, "mock-exact")
  else if existsb (λ v, bool_decide (n = normalize v)) variants
  then Some (label, 0.9%float, "mock-variant")
  else None.

(** The test of the second loop: a token of the label inside [n]. *)
Definition fuzzy_label (n : string) (entry : string * list string)
    : option (string * float * string) :=
  let '(label, _) := entry in
  if existsb (λ tok, contains tok n) (split_on "_" label)
  then Some (label, 0.6%float, "mock-fuzzy")
  else None.

Definition mock_verify_label (raw_header : string)
    : string * float * string :=
  let n := normalize raw_header in
  match first_answer (match_label n) CONTROLLED_VOCAB with
  | Some verdict => verdict
  | None =>
      match first_answer (fuzzy_label n) CONTROLLED_VOCAB with
      | Some verdict => verdict
      | None => ("unknown", 0.3%float, "mock-unknown")
      end
  end.

End verifier.

End Verifier.

(* ===================================================================== *)
(** * enhanced_trainer.py: the patterns of the filled values *)
(* ===================================================================== *)

(** ** [collections.Counter] and slices *)

Module Collections.
Import Py.

(** [float(z)] for an [int] *)
Definition float_of_Z (z : Z) : float :=
  if (z <? 0)%Z then (- PrimFloat.of_uint63 (Uint63.of_Z (- z)))%float
  else PrimFloat.of_uint63 (Uint63.of_Z z).

(** The distinct elements of a list in the order of their first
    occurrence: the keys of [Counter(l)]. *)
Fixpoint first_seen (seen l : list string) : list string :=
  match l with
  | [] => []
  | x :: l' =>
      if bool_decide (x ∈ seen) then first_seen seen l'
      else x :: first_seen (x :: seen) l'
  end.

(** The items of [Counter(l)] *)
Definition counter (l : list string) : list (string * nat) :=
  (λ x, (x, length (filter (λ y, y = x) l))) <$> first_seen [] l.

(** [Counter(l).most_common(n)]: the [n] most frequent elements, the
    earlier one first among equally frequent ones. *)
Definition most_common (n : nat) (l : list string) : list (string * nat) :=
  take n (sorted_desc (λ item, Q_of_nat item.2) (counter l)).

(** [s[:n]] and [s[-n:]] on a string, for a positive [n] *)
Definition first_chars (n : nat) (s : string) : string := text (take n (chars s)).
Definition last_chars (n : nat) (s : string) : string :=
  text (drop (length (chars s) - n) (chars s)).

End Collections.

(** ** [learn_value_patterns] *)

Module ValuePatterns.
Import Py Collections.

(** [r'^[\d.,\-+]+$'] *)
Definition numeric_value : regex :=
  Seq [Bol;
       Plus (Cls (λ c, is_digit c || bool_decide (c ∈ chars ".,-+")));
       Eol].

(** [r'^[a-zA-Z\s]+$'] *)
Definition alphabetic_value : regex :=
  Seq [Bol; Plus (Cls (λ c, is_lower c || is_upper c || is_space c)); Eol].

(** ["length_stats"]; the average and the median as numbers. *)
Record length_stats := LengthStats {
  shortest : nat;
  longest : nat;
  avg : float;
  median : float
}.

(** The dict that [learn_value_patterns] builds. *)
Record value_patterns := ValuePatterns {
  value_types : list string;
  common_prefixes : list string;
  common_suffixes : list string;
  lengths : length_stats;
  regex_patterns : list string
}.

(** [statistics.median] of a list of lengths that is not empty *)
Definition median_of (l : list nat) : float :=
  let data := merge_sort Nat.le l in
  let n := length data in
  if bool_decide (n `mod` 2 = 1)
  then float_of_nat (default 0 (data !! (n `div` 2)))
  else truediv (default 0 (data !! (n `div` 2 - 1))
                + default 0 (data !! (n `div` 2))) 2.

(** [learn_value_patterns]; [None] is the empty dict returned for an
    empty list. *)
Definition learn_value_patterns (column_values : list string)
    : option value_patterns :=
  if bool_decide (column_values = []) then None else
  let numeric_count :=
    length (filter (λ v, re_match numeric_value (strip v)) column_values) in
  let alpha_count :=
    length (filter (λ v, re_match alphabetic_value (strip v))
                   column_values) in
  let mixed_count :=
    (Z.of_nat (length column_values) - Z.of_nat numeric_count
     - Z.of_nat alpha_count)%Z in
  let total := length column_values in
  let value_types :=
    (if PrimFloat.ltb 0.7 (truediv numeric_count total)
     then ["numeric"] else [])
    ++ (if PrimFloat.ltb 0.7 (truediv alpha_count total)
        then ["alphabetic"] else [])
    ++ (if PrimFloat.ltb 0.5 (float_of_Z mixed_count / float_of_nat total)
        then ["mixed"] else []) in
  let lengths := len <$> column_values in
  let length_stats :=
    {| shortest := foldr Nat.min (default 0 (head lengths)) lengths;
       longest := foldr Nat.max 0 lengths;
       avg := truediv (foldr Nat.add 0 lengths) (length lengths);
       median := median_of lengths |} in
  let frequent (parts : list string) : list string :=
    (filter (λ item, 2 ≤ item.2) (most_common 3 parts)).*1 in
  let long_enough := filter (λ v, 2 ≤ len v) column_values in
  let '(common_prefixes, common_suffixes) :=
    if bool_decide (3 ≤ length column_values)
    then (frequent (first_chars 2 <$> long_enough),
          frequent (last_chars 2 <$> long_enough))
    else ([], []) in
  Some {| value_types := value_types;
          common_prefixes := common_prefixes;
          common_suffixes := common_suffixes;
          lengths := length_stats;
          regex_patterns := [] |}.

End ValuePatterns.

(* ===================================================================== *)
(** * enhanced_trainer.py: [enhanced_learn_from_pair] *)
(* ===================================================================== *)

Module EnhancedLearning.
Import Py EnhancedTrainer ValuePatterns.

(** The dict stored under ["verifications"] for a header. *)
Record learned_verdict := LearnedVerdict {
  lv_label : string;
  lv_confidence : float;
  lv_method : string;
  lv_pattern_analysis : analysis_result
}.

(** The dict stored for a sheet.  A value of ["enhanced_patterns"] is what
    [learn_value_patterns] returned, [None] being the empty dict. *)
Record learned_sheet := LearnedSheet {
  header_map : gmap string (list string);
  columns_to_fill : list string;
  column_positions : gmap string nat;
  verifications : gmap string learned_verdict;
  enhanced_patterns : gmap string (option value_patterns);
  enhanced_headers_used : bool;
  header_detection_method : string
}.

(** The five collections that the loop over the value columns fills. *)
Record progress := Progress {
  p_columns_to_fill : list string;
  p_column_positions : gmap string nat;
  p_header_map : gmap string (gset string);
  p_verifications : gmap string learned_verdict;
  p_enhanced_patterns : gmap string (option value_patterns)
}.

Definition start : progress :=
  {| p_columns_to_fill := []; p_column_positions := ∅; p_header_map := ∅;
     p_verifications := ∅; p_enhanced_patterns := ∅ |}.

(** [pattern_analysis["fillable"]] *)
Definition fillable_of (r : analysis_result) : bool :=
  match r with
  | NoData fillable _ _ => fillable
  | Analyzed a => fillable a
  end.

(** [pattern_analysis.get("filled_sample_values", [])] *)
Definition sample_of (r : analysis_result) : list string :=
  match r with
  | NoData _ _ _ => []
  | Analyzed a => filled_sample_values a
  end.

(** [l[k:]] *)
Definition slice_from {A} (k : Z) (l : list A) : list A :=
  if (0 <=? k)%Z then drop (Z.to_nat k) l else last_n (Z.to_nat (- k)) l.

(** [sum(len(h) for h in headers)] *)
Definition total_len (headers : list string) : nat :=
  foldr Nat.add 0 (len <$> headers).

(** [0.1 if enhanced_patterns[raw].get("value_types") else 0.0] *)
Definition pattern_boost (patterns : option value_patterns) : float :=
  match patterns with
  | Some patterns =>
      if bool_decide (value_types patterns = []) then 0.0%float
      else 0.1%float
  | None => 0.0%float
  end.

Section trainer.

(** The collaborators of the trainer:
    - [detect_header_row sheet] is the header detection of [io_utils.py]:
      the headers and the index of the header row;
    - [verify_label] is the label verifier of [verifier.py], with the
      confidence as the float it returns. *)
Context (detect_header_row : HeaderDetector.sheet_data → list string * Z)
        (verify_label : string → string * float * string).

(** [headers]: the headers of the version whose headers are longer in
    total, those of the empty version when they tie.

    The [try] block that follows in the source leaves them as they are: it
    calls [detect_headers_enhanced(fs, filled_file, current_sheet)], one
    argument more than the method takes, and the [TypeError] is caught by
    [except Exception]; so [enhanced_headers_used] stays [False]. *)
Definition chosen_headers (es fs : HeaderDetector.sheet_data)
    : list string :=
  let '(e_headers, e_hidx) := detect_header_row es in
  let '(f_headers, f_hidx) := detect_header_row fs in
  if bool_decide (total_len f_headers ≤ total_len e_headers)
  then e_headers else f_headers.

(** [e_rows] and [f_rows]: [sheet.get("data", [])[hidx+1:]] *)
Definition rows_below_header (sheet : HeaderDetector.sheet_data)
    : list (gmap string cell) :=
  slice_from ((detect_header_row sheet).2 + 1) (HeaderDetector.data sheet).

(** [column_key]: [e_cols[idx] if idx < len(e_cols) else f"col_{idx}"] *)
Definition column_key (e_cols : list string) (idx : nat) : string :=
  default ("col_" +:+ pretty idx) (e_cols !! idx).

(** [pattern_analysis] for the column at [idx] *)
Definition column_analysis (es fs : HeaderDetector.sheet_data) (idx : nat)
    : analysis_result :=
  analyze_column_filling_patterns (rows_below_header es)
    (rows_below_header fs) (column_key (HeaderDetector.columns es) idx).

(** The dict stored in [verifications[raw]]: the verdict of the verifier,
    its confidence raised and capped and its method marked when [raw] is
    in [enhanced_patterns] ([patterns] is [enhanced_patterns.get(raw)]). *)
Definition verdict_of (raw : string) (pattern_analysis : analysis_result)
    (patterns : option (option value_patterns)) : learned_verdict :=
  let '(label, conf, method) := verify_label raw in
  let '(conf, method) :=
    match patterns with
    | Some patterns =>
        (fmin (conf + pattern_boost patterns) 1.0, method +:+ "+pattern")
    | None => (conf, method)
    end in
  {| lv_label := label; lv_confidence := conf; lv_method := method;
     lv_pattern_analysis := pattern_analysis |}.

(** The body of the loop [for idx in value_cols]. *)
Definition learn_column (es fs : HeaderDetector.sheet_data)
    (headers : list string) (st : progress) (idx : nat) : progress :=
  let raw := default "" (headers !! idx) in
  if bool_decide (raw = "") then st else
  let pattern_analysis := column_analysis es fs idx in
  let st :=
    if fillable_of pattern_analysis then
      let filled_values := sample_of pattern_analysis in
      {| p_columns_to_fill := p_columns_to_fill st ++ [raw];
         p_column_positions := <[raw := idx]> (p_column_positions st);
         p_header_map := p_header_map st;
         p_verifications := p_verifications st;
         p_enhanced_patterns :=
           if bool_decide (filled_values = []) then p_enhanced_patterns st
           else <[raw := learn_value_patterns filled_values]>
                  (p_enhanced_patterns st) |}
    else st in
  {| p_columns_to_fill := p_columns_to_fill st;
     p_column_positions := p_column_positions st;
     p_header_map :=
       <[raw := default ∅ (p_header_map st !! raw) ∪ {[raw]}]>
         (p_header_map st);
     p_verifications :=
       <[raw := verdict_of raw pattern_analysis
                  (p_enhanced_patterns st !! raw)]>
         (p_verifications st);
     p_enhanced_patterns := p_enhanced_patterns st |}.

(** The body of the loop [for current_sheet in sheets_to_process], for two
    sheets that are there. *)
Definition learn_sheet (es fs : HeaderDetector.sheet_data) : learned_sheet :=
  let headers := chosen_headers es fs in
  let value_cols := CrossSheet.list_value_columns headers in
  let st := foldl (learn_column es fs headers) start value_cols in
  {| header_map := sorted <$> p_header_map st;
     columns_to_fill := merge_sort String.le (p_columns_to_fill st);
     column_positions := p_column_positions st;
     verifications := p_verifications st;
     enhanced_patterns := p_enhanced_patterns st;
     enhanced_headers_used := false;
     header_detection_method := "basic" |}.

(** [enhanced_learn_from_pair] without a [target_sheet], from the two
    documents that [load_json] returned: the ["sheets"] of the result.
    The sheets it goes through are data sheets of both documents, so that
    [get_sheet] finds them; the order in which it takes them does not show
    in the dict. *)
Definition enhanced_learn_from_pair (ej fj : CrossSheet.document)
    : gmap string learned_sheet :=
  let empty_sheets := SheetFirst.find_data_sheets ej in
  let filled_sheets := SheetFirst.find_data_sheets fj in
  let common_sheets : gset string :=
    set_of empty_sheets ∩ set_of filled_sheets in
  if bool_decide (common_sheets = ∅) then ∅ else
  set_fold
    (λ current_sheet all_results,
       match CrossSheet.get_sheet ej current_sheet,
             CrossSheet.get_sheet fj current_sheet with
       | Some es, Some fs =>
           <[current_sheet := learn_sheet es fs]> all_results
       | _, _ => all_results
       end)
    ∅ common_sheets.

End trainer.

End EnhancedLearning.

(* ===================================================================== *)
(** * Notions of the statements

    The functions on characters that the regular-expression steps of
    [clean_header_name] amount to, the predicates the theorems are stated
    with, and the data of the examples. *)
(* ===================================================================== *)

Module Notions.
Import Py Store HeaderDetector CrossSheet Identifier.

(** Rows that hold the texts [vs] under the column [key]. *)
Definition rows_of (key : string) (vs : list string)
    : list (gmap string Py.cell) :=
  (λ v, {[ key := Py.CStr v ]}) <$> vs.

(** The quotient of two counts up to 200, the larger one on top, is above
    1.0 in binary64: checked on every pair. *)
Definition ratios_above_one : bool :=
  forallb (λ lf, forallb (λ le, PrimFloat.ltb 1.0 (Py.truediv le lf))
                         (seq (S lf) (200 - lf)))
          (seq 1 199).

(** One maximal run of a class becomes the single character [r]. *)
Fixpoint squeeze_go (p : ascii → bool) (r : ascii) (in_run : bool)
    (l : list ascii) : list ascii :=
  match l with
  | [] => []
  | c :: l' =>
      if p c
      then if in_run then squeeze_go p r true l'
           else r :: squeeze_go p r true l'
      else c :: squeeze_go p r false l'
  end.

Definition squeeze (p : ascii → bool) (r : ascii) (l : list ascii)
    : list ascii :=
  squeeze_go p r false l.

(** No two neighbours are both in the class. *)
Fixpoint no_run (p : ascii → bool) (l : list ascii) : Prop :=
  match l with
  | c1 :: ((c2 :: _) as l') => ¬ (p c1 ∧ p c2) ∧ no_run p l'
  | _ => True
  end.

(** The first character, if any, is outside the class. *)
Definition head_out (p : ascii → bool) (l : list ascii) : Prop :=
  match l with
  | c :: _ => ¬ p c
  | [] => True
  end.

(** The second half of the pipeline on the characters. *)
Definition normalize_chars (l : list ascii) : list ascii :=
  lower_char <$>
    strip_with is_underscore
      (squeeze is_underscore "_"
         (squeeze is_space "_"
            (strip_with is_space (filter (λ c, ¬ is_bracket c) l)))).

(** What the second half produces: no bracket, no white space, no upper
    case, no doubled underscore, no underscore at either end. *)
Record canonical (l : list ascii) : Prop := {
  canonical_chars :
    Forall (λ c, ¬ is_bracket c ∧ ¬ is_space c ∧ lower_char c = c) l;
  canonical_runs : no_run is_underscore l;
  canonical_head : drop_while is_underscore l = l;
  canonical_last : drop_end is_underscore l = l
}.

(** Every match of the pattern holds a character of the class. *)
Fixpoint needs (P : ascii → bool) (r : regex) : Prop :=
  match r with
  | Cls p => ∀ c, p c → P c
  | Cat r1 r2 => needs P r1 ∨ needs P r2
  | Alt r1 r2 => needs P r1 ∧ needs P r2
  | _ => False
  end.

(** The characters without which no step of [strip_markers] has a match. *)
Definition is_marker (c : ascii) : bool := bool_decide (c ∈ chars "<{(|.:").

(** The order of a list sorted with the largest key first. *)
Definition descending {A} (key : A → Q) : relation A :=
  λ a b, (key b <= key a)%Q.

(** A sheet whose second row is the header row of the specification's
    scenario. *)
Definition row_of (vs : list string) : gmap string Py.cell :=
  list_to_map (imap (λ i v, ("col_" +:+ pretty i, Py.CStr v)) vs).

Definition lanes_sheet : sheet_data :=
  SheetData ["col_0"; "col_1"; "col_2"; "col_3"]
    [ row_of ["1"; "2"; "3"; "4"];
      row_of ["Lane ID"; "Origin Port"; "Destination Port"; "Rate (USD)"];
      row_of ["<<a>>"; "nan"; "x_y"; "bid|q"] ].

(** The outcome without a mapping and with confidence zero. *)
Definition zero_confidence_outcome (outcome : json) : Prop :=
  json_get "validated_mapping" outcome = Some (JObj [])
  ∧ json_get "confidence" outcome = Some (JNum 0).

(** A text from which no structured result comes out: no brace-delimited
    fragment, or a fragment that [json.loads] rejects. *)
Definition unparsable (json_loads : string → string + json)
    (response_text : string) : Prop :=
  match re_search_group json_fragment response_text with
  | Some fragment => ∃ e, json_loads fragment = inl e
  | None => True
  end.

(** The invariants of the data model: a similarity ratio is at most 1, and
    a stored verdict has a confidence of at most 1. *)
Definition ratio_bounded (ratio : string → string → float) : Prop :=
  ∀ a b, PrimFloat.leb (ratio a b) 1 = true.

Definition confidences_bounded (st : store) : Prop :=
  ∀ name entry h v,
    sheets st !! name = Some entry → verifications entry !! h = Some v →
    PrimFloat.leb (default 0%float (v_confidence v)) 1 = true.

(** A target document with one sheet, and the collaborators of a run
    without the remote services: similarity 1 for equal texts and 0
    otherwise, the verifier's "unknown" verdict, the column names as
    headers. *)
Definition quote_document : CrossSheet.document :=
  [("Rates", Some (HeaderDetector.SheetData
                     ["lane"; "rate"; "currency"] [∅; ∅]))].

Definition plain_ratio (a b : string) : float :=
  if decide (a = b) then 1%float else 0%float.
Definition plain_format (x : float) : string := "".
Definition plain_verify (h : string) : string * float * string :=
  ("unknown", 0.3%float, "mock-unknown").
Definition plain_detect (sheet : HeaderDetector.sheet_data) (file : string)
    : list string * bool * float :=
  (HeaderDetector.columns sheet, false, 0%float).

(** A store that learned "rate" as fillable. *)
Definition rate_store : Store.store :=
  Store.MkStore
    {[ "Rates" := Store.SheetEntry ∅ ["rate"] ∅ ∅ ∅ ]}.

(** The same store with a second sheet, whose verdict for "rate" carries
    the confidence 1.2. *)
Definition overrated_store : Store.store :=
  Store.MkStore
    {[ "Rates" := Store.SheetEntry ∅ ["rate"] ∅ ∅ ∅;
       "Archive" :=
         Store.SheetEntry ∅ [] ∅
           {[ "rate" :=
                Store.Verification (Some "rate") (Some 1.2%float)
                  (Some "openai") ]}
           ∅ ]}.

(** A sheet that competes for the primary place: no error entry, and at
    least one fillable column. *)
Definition eligible (all_results : list (string * sheet_results))
    (name : string) (res : sheet_results) : Prop :=
  (name, res) ∈ all_results ∧ is_error res = false ∧ columns_of res ≠ [].

(** Every path loads as the document above; the sheet-first identification
    is a stub that returns a fixed report. *)
Definition plain_load (path : string) : option document := Some quote_document.

Definition plain_sheet_first (empty_file : string) (st : store)
    (sheet_name : option string) (threshold : float) (enhanced : bool)
    : string :=
  "sheet-first report".

(** A store whose verdicts for "rate" and "currency" carry confidence 0. *)
Definition zero_store : store :=
  MkStore
    {[ "Archive" :=
         SheetEntry ∅ [] ∅
           {[ "rate" :=
                Verification (Some "rate") (Some 0%float) (Some "openai");
              "currency" :=
                Verification (Some "currency") (Some 0%float)
                  (Some "openai") ]}
           ∅ ]}.

(** The reasons in the order in which the analyzer appends them; the first
    one is the ratio signal that fired. *)
Definition reasons_in_order (ratio_reason : string) : list string :=
  [ratio_reason; "value_diversity_increase"; "numeric_pattern";
   "structured_pattern"].

(** The highest score a strategy can give: every ratio at 1. *)
Definition maximum_score (h : heuristic) : Q :=
  match h with
  | PatternBased => 40
  | Structural => 90
  | TemplatePattern => 50
  | HistoricalLearning => 30
  end.

(** What holds of the list of indicators while the headers of [mapping]
    are added to [old]: it stays free of duplicates, and each indicator is
    an old one or a part, longer than two characters, of a header. *)
Definition grown (old : list string) (mapping : list (string * string))
    (l : list string) : Prop :=
  (NoDup old → NoDup l)
  ∧ ∀ p, p ∈ l →
      p ∈ old
      ∨ (2 < len p
         ∧ ∃ col header, (col, header) ∈ mapping
             ∧ p ∈ split (replace_char "_" " " header)).

(** No label of the vocabulary matches [n] exactly or through a variant. *)
Definition unmatched (normalize : string → string)
    (vocabulary : list (string * list string)) (n : string) : Prop :=
  ∀ label variants, (label, variants) ∈ vocabulary →
    n ≠ replace_char "_" " " label
    ∧ ∀ v, v ∈ variants → n ≠ normalize v.

(** Incoming patterns for the sheet "Rates": two columns to fill, and a
    verdict and a position for the header "lane". *)
Definition lane_payload : sheet_entry :=
  SheetEntry ∅ ["rate"; "lane"] {[ "lane" := 1%Z ]}
    {[ "lane" :=
         Verification (Some "lane") (Some 0.9%float) (Some "openai") ]}
    ∅.

Definition lane_patterns : store := MkStore {[ "Rates" := lane_payload ]}.


(** The column at [idx] has the header [raw], which is not empty. *)
Definition named (headers : list string) (raw : string) (idx : nat) : Prop :=
  headers !! idx = Some raw ∧ raw ≠ "".

#[global] Instance named_dec headers raw idx : Decision (named headers raw idx).
Proof. unfold named. apply _. Defined.

(** [headers[idx] if idx < len(headers) else ""] *)
Definition header_at (headers : list string) (idx : nat) : string :=
  default "" (headers !! idx).

(** A pair of documents for the trainer: the rates of three lanes, empty
    and filled, and a sheet of notes in the empty document only. *)
Definition rates_row (lane origin rate : string) : gmap string Py.cell :=
  {[ "lane" := Py.CStr lane; "origin" := Py.CStr origin;
     "rate" := Py.CStr rate ]}.

Definition rates_empty : HeaderDetector.sheet_data :=
  HeaderDetector.SheetData ["lane"; "origin"; "rate"]
    [ rates_row "L1" "Oslo" ""; rates_row "L2" "Rome" "";
      rates_row "L3" "Bonn" "" ].

Definition rates_filled : HeaderDetector.sheet_data :=
  HeaderDetector.SheetData ["lane"; "origin"; "rate"]
    [ rates_row "L1" "Oslo" "USD 10"; rates_row "L2" "Rome" "USD 20";
      rates_row "L3" "Bonn" "EUR 20" ].

Definition empty_document : CrossSheet.document :=
  [("Rates", Some rates_empty); ("Notes", Some rates_empty)].

Definition filled_document : CrossSheet.document :=
  [("Rates", Some rates_filled)].

(** A header detection that takes the columns as the headers, and a
    verifier that knows no label. *)
Definition columns_as_headers (sheet : HeaderDetector.sheet_data)
    : list string * Z :=
  (HeaderDetector.columns sheet, (-1)%Z).

Definition unknown_label (raw : string) : string * float * string :=
  ("unknown", 0.3%float, "mock-unknown").

End Notions.

(* ===================================================================== *)
(** * Theorems *)
(* ===================================================================== *)

(** ** Python primitives *)

Section py_theory.
Import Py.

Lemma sorted_Permutation (s : gset string) : sorted s ≡ₚ elements s.
Proof. apply merge_sort_Permutation. Qed.

Lemma elem_of_sorted (s : gset string) x : x ∈ sorted s ↔ x ∈ s.
Proof. by rewrite sorted_Permutation, elem_of_elements. Qed.

Lemma set_of_sorted (s : gset string) : set_of (sorted s) = s.
Proof.
  apply set_eq. intros x. unfold set_of.
  by rewrite elem_of_list_to_set, elem_of_sorted.
Qed.

Lemma sorted_is_Sorted (s : gset string) : Sorted String.le (sorted s).
Proof. apply Sorted_merge_sort, _. Qed.

Lemma sorted_NoDup (s : gset string) : NoDup (sorted s).
Proof. rewrite sorted_Permutation. apply NoDup_elements. Qed.

Lemma update_twice (s : gset string) (l : list string) :
  update (update s l) l = update s l.
Proof. unfold update. by rewrite <-(assoc_L (∪)), (idemp_L (∪)). Qed.

Lemma update_swap (s : gset string) (l1 l2 : list string) :
  update (update s l1) l2 = update (update s l2) l1.
Proof.
  unfold update. rewrite <-!(assoc_L (∪)). f_equal. apply (comm_L (∪)).
Qed.

(** The matcher on three patterns of the code, at strings where the lazy
    star, the end anchor and the greedy star decide the result. *)
Example regex_examples :
  re_sub (Seq [Lit "<<"; StarLazy Dot; Lit ">>"]) "" "a<<b>>c<<d>>>>e"
  = "ac>>e"
  ∧ re_sub (Seq [Chr "|"; Star Dot; Eol]) "" ("a|b" +:+ String newline "c")
    = "a|b" +:+ String newline "c"
  ∧ re_sub (Seq [Chr "|"; Star Dot; Eol]) "" ("a|b|c" +:+ String newline "")
    = "a" +:+ String newline ""
  ∧ re_search_group (Seq [Chr "{"; Star AnyChar; Chr "}"]) "a {b} c } d"
    = Some "{b} c }"
  ∧ re_sub (Star (Chr "x")) "-" "abxd" = "-a-b--d-".
Proof. by vm_compute. Qed.

Lemma lookup_update_from {A B} (g : option B → A → B)
    (inc : gmap string A) (base : gmap string B) (k : string) :
  update_from g inc base !! k =
    match inc !! k with
    | Some x => Some (g (base !! k) x)
    | None => base !! k
    end.
Proof.
  unfold update_from. revert k.
  apply (map_fold_weak_ind
           (λ r (m : gmap string A), ∀ k,
              r !! k = match m !! k with
                       | Some x => Some (g (base !! k) x)
                       | None => base !! k
                       end)).
  - intros k. by rewrite lookup_empty.
  - intros i x m r Hi IH k.
    destruct (decide (i = k)) as [->|Hne].
    + rewrite !lookup_insert_eq. by rewrite IH, Hi.
    + rewrite !lookup_insert_ne by done. apply IH.
Qed.

End py_theory.

(** ** Binary64: order and rounding *)

Section binary64_order.
Import Binary64.

Lemma digits2_pos_spec p :
  (2 ^ (Zpos (digits2_pos p) - 1) <= Zpos p < 2 ^ Zpos (digits2_pos p))%Z.
Proof.
  induction p as [p IH|p IH|]; cbn [digits2_pos].
  - rewrite Pos2Z.inj_succ.
    replace (Z.succ (Zpos (digits2_pos p)) - 1)%Z
      with (Z.succ (Zpos (digits2_pos p) - 1)) by lia.
    rewrite !Z.pow_succ_r by lia. lia.
  - rewrite Pos2Z.inj_succ.
    replace (Z.succ (Zpos (digits2_pos p)) - 1)%Z
      with (Z.succ (Zpos (digits2_pos p) - 1)) by lia.
    rewrite !Z.pow_succ_r by lia. lia.
  - simpl. lia.
Qed.

(** A valid finite number: its exponent is at least [emin] and its
    mantissa has at most 53 bits, exactly 53 above [emin]. *)
Lemma valid_finite s m e :
  valid_binary (S754_finite s m e) = true →
  (-1074 <= e <= 971)%Z ∧ (Zpos m < 2 ^ 53)%Z
  ∧ (-1074 < e → 2 ^ 52 <= Zpos m)%Z.
Proof.
  cbn [SpecFloat.valid_binary]. unfold bounded, canonical_mantissa, fexp.
  intros [Hc He]%andb_true_iff. apply Z.eqb_eq in Hc. apply Z.leb_le in He.
  pose proof (digits2_pos_spec m) as [Hlo Hhi].
  set (d := Zpos (digits2_pos m)) in *.
  change (SpecFloat.emin prec emax) with (-1074)%Z in Hc.
  change (emax - prec)%Z with 971%Z in He. change prec with 53%Z in Hc.
  assert (d <= 53)%Z as Hd by lia.
  split_and!; [lia|lia| |].
  - eapply Z.lt_le_trans; [exact Hhi|]. apply Z.pow_le_mono_r; lia.
  - intros Hnormal. assert (d = 53)%Z as Hd53 by lia.
    rewrite Hd53 in Hlo. exact Hlo.
Qed.

Lemma mag_bounds s m e :
  valid_binary (S754_finite s m e) = true → (0 < mag m e < 2 ^ 70)%Z.
Proof.
  intros (He & Hm & _)%valid_finite. unfold mag.
  assert (2 ^ 70 = 2 ^ 17 * 2 ^ 53)%Z as -> by (by vm_compute).
  assert (0 < 2 ^ 53)%Z by (by vm_compute).
  assert (2 ^ 17 = 131072)%Z as -> by (by vm_compute). nia.
Qed.

Lemma mag_compare m1 e1 m2 e2 :
  (Zpos m1 < 2 ^ 53)%Z → (Zpos m2 < 2 ^ 53)%Z →
  (mag m1 e1 ?= mag m2 e2)%Z
  = match (e1 ?= e2)%Z with
    | Lt => Lt
    | Gt => Gt
    | Eq => Pos.compare_cont Eq m1 m2
    end.
Proof.
  intros H1 H2. unfold mag.
  assert (0 < 2 ^ 53)%Z as Hp by (by vm_compute).
  rewrite Pos.compare_cont_spec. cbn [Pos.switch_Eq].
  change (Pos.compare m1 m2) with (Zpos m1 ?= Zpos m2)%Z.
  destruct (Z.compare_spec e1 e2) as [->|Hlt|Hgt].
  - destruct (Z.compare_spec (Zpos m1) (Zpos m2));
      first [apply Z.compare_eq_iff|apply Z.compare_lt_iff
            |apply Z.compare_gt_iff]; lia.
  - apply Z.compare_lt_iff. nia.
  - apply Z.compare_gt_iff. nia.
Qed.

Lemma SFcompare_rank x y a b :
  valid_binary x = true → valid_binary y = true →
  rank x = Some a → rank y = Some b →
  SFcompare x y = Some (a ?= b)%Z.
Proof.
  intros Hx Hy Ha Hb.
  destruct x as [sx|sx| |sx mx ex], y as [sy|sy| |sy my ey];
    cbn [rank] in Ha, Hb; try discriminate;
    injection Ha as <-; injection Hb as <-; cbn [SFcompare];
    try (pose proof (mag_bounds _ _ _ Hx) as Hrx);
    try (pose proof (mag_bounds _ _ _ Hy) as Hry);
    try (destruct sx); try (destruct sy); f_equal;
    try reflexivity;
    try (symmetry; first [apply Z.compare_gt_iff; lia
                         |apply Z.compare_lt_iff; lia]).
  - rewrite Z.compare_opp.
    apply valid_finite in Hx as (_ & Hmx & _).
    apply valid_finite in Hy as (_ & Hmy & _).
    rewrite (mag_compare my ey mx ex) by done.
    rewrite (Z.compare_antisym ex ey).
    destruct (ex ?= ey)%Z; cbn [CompOpp]; try done.
    by rewrite Pos.compare_cont_antisym.
  - apply valid_finite in Hx as (_ & Hmx & _).
    apply valid_finite in Hy as (_ & Hmy & _).
    by rewrite (mag_compare mx ex my ey).
Qed.

Lemma rank_None x : rank x = None → x = S754_nan.
Proof. destruct x as [s|s| |s m e]; cbn; by try destruct s. Qed.

Lemma ltb_rank (x y : float) :
  PrimFloat.ltb x y = true
  ↔ ∃ a b, frank x = Some a ∧ frank y = Some b ∧ (a < b)%Z.
Proof.
  rewrite ltb_spec. unfold SFltb, frank.
  pose proof (Prim2SF_valid x) as Hx. pose proof (Prim2SF_valid y) as Hy.
  destruct (rank (Prim2SF x)) as [a|] eqn:Ha.
  - destruct (rank (Prim2SF y)) as [b|] eqn:Hb.
    + rewrite (SFcompare_rank _ _ a b) by done. split.
      * destruct (Z.compare_spec a b); [done| |done]. by exists a, b.
      * intros (? & ? & [= <-] & [= <-] & Hlt).
        by apply Z.compare_lt_iff in Hlt as ->.
    + apply rank_None in Hb as ->. split.
      * by destruct (Prim2SF x).
      * by intros (? & ? & _ & ? & _).
  - apply rank_None in Ha as ->. split; [done|]. by intros (? & ? & ? & _).
Qed.

Lemma leb_rank (x y : float) :
  PrimFloat.leb x y = true
  ↔ ∃ a b, frank x = Some a ∧ frank y = Some b ∧ (a <= b)%Z.
Proof.
  rewrite leb_spec. unfold SFleb, frank.
  pose proof (Prim2SF_valid x) as Hx. pose proof (Prim2SF_valid y) as Hy.
  destruct (rank (Prim2SF x)) as [a|] eqn:Ha.
  - destruct (rank (Prim2SF y)) as [b|] eqn:Hb.
    + rewrite (SFcompare_rank _ _ a b) by done. split.
      * destruct (Z.compare_spec a b); [| |done]; intros _;
          exists a, b; split_and!; try done; lia.
      * intros (? & ? & [= <-] & [= <-] & Hle).
        destruct (Z.compare_spec a b); [done..|lia].
    + apply rank_None in Hb as ->. split.
      * by destruct (Prim2SF x).
      * by intros (? & ? & _ & ? & _).
  - apply rank_None in Ha as ->. split; [done|]. by intros (? & ? & ? & _).
Qed.

Lemma ltb_irrefl (x : float) : PrimFloat.ltb x x = false.
Proof.
  apply not_true_iff_false. intros (a & b & Ha & Hb & Hlt)%ltb_rank.
  rewrite Ha in Hb. injection Hb as <-. lia.
Qed.

Lemma ltb_trans (x y z : float) :
  PrimFloat.ltb x y = true → PrimFloat.ltb y z = true →
  PrimFloat.ltb x z = true.
Proof.
  intros (a & b & Ha & Hb & Hab)%ltb_rank (b' & c & Hb' & Hc & Hbc)%ltb_rank.
  rewrite Hb in Hb'. injection Hb' as <-.
  apply ltb_rank. exists a, c. split_and!; [done..|lia].
Qed.

Lemma leb_ltb_trans (x y z : float) :
  PrimFloat.leb x y = true → PrimFloat.ltb y z = true →
  PrimFloat.ltb x z = true.
Proof.
  intros (a & b & Ha & Hb & Hab)%leb_rank (b' & c & Hb' & Hc & Hbc)%ltb_rank.
  rewrite Hb in Hb'. injection Hb' as <-.
  apply ltb_rank. exists a, c. split_and!; [done..|lia].
Qed.

Lemma ltb_leb_trans (x y z : float) :
  PrimFloat.ltb x y = true → PrimFloat.leb y z = true →
  PrimFloat.ltb x z = true.
Proof.
  intros (a & b & Ha & Hb & Hab)%ltb_rank (b' & c & Hb' & Hc & Hbc)%leb_rank.
  rewrite Hb in Hb'. injection Hb' as <-.
  apply ltb_rank. exists a, c. split_and!; [done..|lia].
Qed.

Lemma leb_trans (x y z : float) :
  PrimFloat.leb x y = true → PrimFloat.leb y z = true →
  PrimFloat.leb x z = true.
Proof.
  intros (a & b & Ha & Hb & Hab)%leb_rank (b' & c & Hb' & Hc & Hbc)%leb_rank.
  rewrite Hb in Hb'. injection Hb' as <-.
  apply leb_rank. exists a, c. split_and!; [done..|lia].
Qed.

Lemma ltb_not_leb (x y : float) :
  PrimFloat.ltb x y = true → PrimFloat.leb y x = false.
Proof.
  intros (a & b & Ha & Hb & Hab)%ltb_rank. apply not_true_iff_false.
  intros (b' & a' & Hb' & Ha' & Hba)%leb_rank.
  rewrite Ha in Ha'. rewrite Hb in Hb'.
  injection Ha' as <-. injection Hb' as <-. lia.
Qed.

Lemma leb_not_ltb (x y : float) :
  PrimFloat.leb x y = true → PrimFloat.ltb y x = false.
Proof.
  intros (a & b & Ha & Hb & Hab)%leb_rank. apply not_true_iff_false.
  intros (b' & a' & Hb' & Ha' & Hba)%ltb_rank.
  rewrite Ha in Ha'. rewrite Hb in Hb'.
  injection Ha' as <-. injection Hb' as <-. lia.
Qed.

Lemma ltb_leb (x y : float) :
  PrimFloat.ltb x y = true → PrimFloat.leb x y = true.
Proof.
  intros (a & b & Ha & Hb & Hab)%ltb_rank.
  apply leb_rank. exists a, b. split_and!; [done..|lia].
Qed.

End binary64_order.

Section binary64_rounding.
Import Binary64.
Local Open Scope Z_scope.

Lemma divisible_succ P k :
  0 ≤ k → P mod 2 ^ (k + 1) = 0 →
  P mod 2 ^ k = 0 ∧ (P / 2 ^ k) mod 2 = 0.
Proof.
  intros Hk Hmod. rewrite Z.pow_add_r, Z.pow_1_r in Hmod by lia.
  assert (0 < 2 ^ k) as Hpos by (apply Z.pow_pos_nonneg; lia).
  apply Z.mod_divide in Hmod as [c Hc]; [|lia].
  assert (P = (2 * c) * 2 ^ k) as -> by lia.
  rewrite Z.mod_mul, Z.div_mul by lia. split; [done|].
  rewrite Z.mul_comm. apply Z.mod_mul. lia.
Qed.

Lemma shr_1_shifted P k mrs :
  0 ≤ P → 0 ≤ k → shifted P k mrs → shifted P (k + 1) (shr_1 mrs).
Proof.
  intros HP Hk [Hm Hexact]. destruct mrs as [m r s].
  cbn [shr_m shr_r shr_s] in Hm, Hexact.
  assert (0 < 2 ^ k) as Hpos by (apply Z.pow_pos_nonneg; lia).
  assert (0 ≤ m) as Hm0 by (rewrite Hm; apply Z.div_pos; lia).
  assert (P / 2 ^ (k + 1) = m / 2) as Hdiv.
  { rewrite Z.pow_add_r, Z.pow_1_r, <-Z.div_div, Hm by lia. done. }
  assert (P mod 2 ^ (k + 1) = 0 →
          r = false ∧ s = false ∧ m mod 2 = 0) as Hnext.
  { intros [H1 H2]%divisible_succ; [|done].
    destruct (Hexact H1) as [-> ->]. by rewrite Hm. }
  unfold shifted. rewrite Hdiv.
  destruct m as [|[p|p|]|p]; [| | | |lia]; cbn [shr_1 shr_m shr_r shr_s].
  - split; [done|]. intros (-> & -> & _)%Hnext. done.
  - split; [rewrite Pos2Z.inj_xI; apply Z.div_unique with 1; lia|].
    intros (_ & _ & Hodd)%Hnext. rewrite Pos2Z.inj_xI in Hodd.
    rewrite Z.add_comm, Z.mul_comm, Z.mod_add in Hodd by lia. done.
  - split; [rewrite Pos2Z.inj_xO; apply Z.div_unique with 0; lia|].
    intros (-> & -> & _)%Hnext. done.
  - split; [done|]. intros (_ & _ & Hodd)%Hnext. done.
Qed.

Lemma iter_pos_shifted p :
  ∀ P k mrs, 0 ≤ P → 0 ≤ k → shifted P k mrs →
    shifted P (k + Zpos p) (SpecFloat.iter_pos shr_1 p mrs).
Proof.
  induction p as [p IH|p IH|]; intros P k mrs HP Hk Hs;
    cbn [SpecFloat.iter_pos].
  - replace (k + Zpos p~1) with (k + 1 + Zpos p + Zpos p) by lia.
    apply IH; [lia..|]. apply IH; [lia..|]. by apply shr_1_shifted.
  - replace (k + Zpos p~0) with (k + Zpos p + Zpos p) by lia.
    apply IH; [lia..|]. by apply IH.
  - by apply shr_1_shifted.
Qed.

(** [shr_fexp] on an exact mantissa: [n] right shifts, where [n] is the
    distance to the exponent of the format, if that is positive. *)
Lemma shr_fexp_exact m e :
  0 ≤ m →
  let n := Z.max (fexp prec emax (Zdigits2 m + e) - e) 0 in
  ∃ mrs, shr_fexp prec emax m e loc_Exact = (mrs, e + n) ∧ shifted m n mrs.
Proof.
  intros Hm. unfold shr_fexp, shr. cbn [shr_record_of_loc].
  assert (shifted m 0 {| shr_m := m; shr_r := false; shr_s := false |})
    as H0.
  { split; [cbn; by rewrite Z.div_1_r|done]. }
  destruct (fexp prec emax (Zdigits2 m + e) - e) as [|p|p]; cbn [Z.max].
  - eexists. split; [by rewrite Z.add_0_r|done].
  - replace (Z.max (Zpos p) 0) with (Zpos p) by lia.
    eexists. split; [done|].
    exact (iter_pos_shifted p m 0 _ Hm (Z.le_refl 0) H0).
  - replace (Z.max (Zneg p) 0) with 0 by lia.
    eexists. split; [by rewrite Z.add_0_r|done].
Qed.

Lemma round_nearest_even_bounds mrs :
  let m1 := round_nearest_even (shr_m mrs) (loc_of_shr_record mrs) in
  shr_m mrs ≤ m1 ≤ shr_m mrs + 1
  ∧ (shr_r mrs = false ∧ shr_s mrs = false → m1 = shr_m mrs).
Proof.
  destruct mrs as [m [] []]; cbn; try destruct (Z.even m); split; try lia;
    by intros [? ?].
Qed.

Lemma Zdigits2_small m :
  0 < m < 2 ^ 53 → Zdigits2 m ≤ 53.
Proof.
  intros [Hpos Hlt]. destruct m as [|p|p]; [lia| |lia]. cbn [Zdigits2].
  pose proof (digits2_pos_spec p) as [Hlo _].
  destruct (decide (Zpos (digits2_pos p) ≤ 53)) as [|Hbig]; [done|].
  assert (2 ^ 53 ≤ 2 ^ (Zpos (digits2_pos p) - 1)); [|lia].
  apply Z.pow_le_mono_r; lia.
Qed.

(** What rounding an exact product or sum gives: the mantissa [m1] is the
    quotient [q] of the shift or its successor, and the quotient itself
    when the shift lost nothing; [q] has at most 53 bits, and exactly 53
    above the smallest exponent. *)
Lemma binary_round_aux_spec s p E :
  let t := fexp prec emax (Zpos (digits2_pos p) + E) in
  E ≤ t →
  let q := Zpos p / 2 ^ (t - E) in
  ∃ m1,
    q ≤ m1 ≤ q + 1 ∧ (Zpos p mod 2 ^ (t - E) = 0 → m1 = q)
    ∧ q < 2 ^ 53 ∧ (-1074 < t → 2 ^ 52 ≤ q) ∧ -1074 ≤ t
    ∧ (m1 = 0
       ∧ binary_round_aux prec emax s (Zpos p) E loc_Exact = S754_zero s
       ∨ 0 < m1 < 2 ^ 53
         ∧ binary_round_aux prec emax s (Zpos p) E loc_Exact
           = (if t <=? 971 then S754_finite s (Z.to_pos m1) t
              else S754_infinity s)
       ∨ m1 = 2 ^ 53
         ∧ binary_round_aux prec emax s (Zpos p) E loc_Exact
           = (if t + 1 <=? 971 then S754_finite s (Z.to_pos (2 ^ 52)) (t + 1)
              else S754_infinity s)).
Proof.
  intros t Ht q.
  pose proof (digits2_pos_spec p) as [Hlo Hhi].
  set (d := Zpos (digits2_pos p)) in *.
  assert (t = Z.max (d + E - 53) (-1074)) as Ht_eq by done.
  assert (0 < 2 ^ (t - E)) as Hpow by (apply Z.pow_pos_nonneg; lia).
  assert (0 ≤ q) as Hq0 by (apply Z.div_pos; lia).
  assert (q < 2 ^ 53) as Hq53.
  { apply Z.div_lt_upper_bound; [done|].
    eapply Z.lt_le_trans; [exact Hhi|].
    rewrite <-Z.pow_add_r by lia. apply Z.pow_le_mono_r; lia. }
  assert (-1074 < t → 2 ^ 52 ≤ q) as Hq52.
  { intros Hnormal. unfold q. assert (t - E = d - 53) as -> by lia.
    apply Z.div_le_lower_bound; [apply Z.pow_pos_nonneg; lia|].
    rewrite <-Z.pow_add_r by lia.
    replace (d - 53 + 52) with (d - 1) by lia. done. }
  unfold binary_round_aux.
  destruct (shr_fexp_exact (Zpos p) E) as (mrs1 & -> & [Hm1 Hexact1]);
    [lia|].
  cbn [Zdigits2] in Hm1, Hexact1 |- *. fold d t in Hm1, Hexact1 |- *.
  replace (Z.max (t - E) 0) with (t - E) in * by lia.
  replace (E + (t - E)) with t by lia.
  fold q in Hm1.
  pose proof (round_nearest_even_bounds mrs1) as [Hb Hsame].
  cbv zeta in Hb, Hsame.
  set (m1 := round_nearest_even (shr_m mrs1) (loc_of_shr_record mrs1)) in *.
  rewrite Hm1 in Hb, Hsame.
  exists m1. split_and!; [lia|lia|by intros ?%Hexact1%Hsame|done|done|lia|].
  destruct (shr_fexp_exact m1 t) as (mrs2 & -> & [Hm2 _]); [lia|].
  destruct (decide (m1 = 0)) as [H0|Hne0].
  { left. split; [done|]. rewrite H0 in Hm2 |- *. cbn [Zdigits2] in Hm2.
    rewrite Z.div_0_l in Hm2 by (apply Z.pow_nonzero; lia).
    by rewrite Hm2. }
  right.
  destruct (decide (m1 < 2 ^ 53)) as [Hlt|Hge].
  - left. split; [lia|].
    pose proof (Zdigits2_small m1 ltac:(lia)) as Hd1.
    assert (Z.max (fexp prec emax (Zdigits2 m1 + t) - t) 0 = 0) as Hn2.
    { unfold fexp. change (SpecFloat.emin prec emax) with (-1074).
      change prec with 53. lia. }
    rewrite Hn2 in Hm2 |- *. rewrite Z.div_1_r in Hm2.
    rewrite Z.add_0_r, Hm2.
    destruct m1 as [|p1|p1]; [lia| |lia]. done.
  - right. assert (m1 = 2 ^ 53) as Hm by lia. split; [done|].
    rewrite Hm in Hm2 |- *.
    assert (Z.max (fexp prec emax (Zdigits2 (2 ^ 53) + t) - t) 0 = 1) as Hn2.
    { change (Zdigits2 (2 ^ 53)) with 54. unfold fexp.
      change (SpecFloat.emin prec emax) with (-1074).
      change prec with 53. lia. }
    rewrite Hn2 in Hm2 |- *. rewrite Hm2.
    change (2 ^ 53 / 2 ^ 1) with (Zpos (Z.to_pos (2 ^ 52))). done.
Qed.

Lemma val_pos m e : -4000 ≤ e → 0 < val m e.
Proof.
  intros He. unfold val. apply Z.mul_pos_pos; [lia|].
  apply Z.pow_pos_nonneg; lia.
Qed.

(** The exponent of the format grows with the value. *)
Lemma fexp_mono_val m1 e1 m2 e2 :
  -4000 ≤ e1 → -4000 ≤ e2 → val m1 e1 ≤ val m2 e2 →
  fexp prec emax (Zpos (digits2_pos m1) + e1)
  ≤ fexp prec emax (Zpos (digits2_pos m2) + e2).
Proof.
  intros He1 He2 Hval. unfold val in Hval.
  pose proof (digits2_pos_spec m1) as [Hlo1 _].
  pose proof (digits2_pos_spec m2) as [_ Hhi2].
  set (d1 := Zpos (digits2_pos m1)) in *.
  set (d2 := Zpos (digits2_pos m2)) in *.
  assert (0 < d1) by (unfold d1; lia). assert (0 < d2) by (unfold d2; lia).
  assert (2 ^ (d1 - 1 + (e1 + 4000)) < 2 ^ (d2 + (e2 + 4000))) as Hpow.
  { rewrite (Z.pow_add_r 2 (d1 - 1)), (Z.pow_add_r 2 d2) by lia.
    assert (0 < 2 ^ (e1 + 4000)) by (apply Z.pow_pos_nonneg; lia).
    assert (0 < 2 ^ (e2 + 4000)) by (apply Z.pow_pos_nonneg; lia).
    assert (2 ^ (d1 - 1) * 2 ^ (e1 + 4000) ≤ Zpos m1 * 2 ^ (e1 + 4000))
      by (apply Z.mul_le_mono_nonneg_r; lia).
    assert (Zpos m2 * 2 ^ (e2 + 4000) < 2 ^ d2 * 2 ^ (e2 + 4000))
      by (apply Z.mul_lt_mono_pos_r; lia).
    lia. }
  apply Z.pow_lt_mono_r_iff in Hpow; [|lia..].
  unfold fexp. lia.
Qed.

Lemma canonical_fexp s m e :
  valid_binary (S754_finite s m e) = true →
  fexp prec emax (Zpos (digits2_pos m) + e) = e.
Proof.
  cbn [SpecFloat.valid_binary]. unfold bounded, canonical_mantissa.
  intros [Hc _]%andb_true_iff. by apply Z.eqb_eq in Hc.
Qed.

Lemma mag_le m1 e1 m2 e2 :
  Zpos m1 < 2 ^ 53 → e1 < e2 ∨ e1 = e2 ∧ Zpos m1 ≤ Zpos m2 →
  mag m1 e1 ≤ mag m2 e2.
Proof.
  intros Hm [Hlt|[-> Hle]]; unfold mag; [|lia].
  assert (0 < 2 ^ 53) by (by vm_compute). nia.
Qed.

(** Rounding does not pass a number of the format: if the exact value is
    at most [b], so is the rounded one. *)
Lemma round_upper s p E mb eb :
  let t := fexp prec emax (Zpos (digits2_pos p) + E) in
  E ≤ t → -4000 ≤ E →
  valid_binary (S754_finite false mb eb) = true →
  val p E ≤ val mb eb →
  let r := binary_round_aux prec emax s (Zpos p) E loc_Exact in
  r = S754_zero s
  ∨ ∃ m e, r = S754_finite s m e ∧ valid_binary r = true
           ∧ mag m e ≤ mag mb eb.
Proof.
  intros t Ht HE Hb Hval r.
  destruct (valid_finite _ _ _ Hb) as (Heb & Hmb & Hnormal).
  assert (t ≤ eb) as Hteb.
  { rewrite <-(canonical_fexp _ _ _ Hb). apply fexp_mono_val; [lia..|done]. }
  destruct (binary_round_aux_spec s p E Ht)
    as (m1 & Hm1 & Hexact & Hq53 & Hq52 & Htmin & Hres).
  fold t in Hm1, Hexact, Hq53, Hq52, Htmin, Hres. fold r in Hres.
  set (n := t - E) in *. set (q := Zpos p / 2 ^ n) in *.
  assert (0 < 2 ^ n) as Hpow by (apply Z.pow_pos_nonneg; lia).
  assert (Zpos p ≤ Zpos mb * 2 ^ (eb - t) * 2 ^ n) as HP.
  { unfold val in Hval.
    assert (2 ^ (eb + 4000) = 2 ^ (eb - t) * 2 ^ n * 2 ^ (E + 4000))
      as Hsplit by (rewrite <-!Z.pow_add_r by lia; f_equal; lia).
    rewrite Hsplit in Hval.
    assert (0 < 2 ^ (E + 4000)) by (apply Z.pow_pos_nonneg; lia).
    apply (Z.mul_le_mono_pos_r _ _ (2 ^ (E + 4000))); [done|]. lia. }
  set (M := Zpos mb * 2 ^ (eb - t)) in *.
  assert (m1 ≤ M) as Hm1M.
  { pose proof (Z.div_mod (Zpos p) (2 ^ n) ltac:(lia)) as Hdm.
    pose proof (Z.mod_pos_bound (Zpos p) (2 ^ n) Hpow) as Hmod.
    fold q in Hdm.
    destruct (decide (q < M)) as [|Hge]; [lia|].
    assert ((Zpos p) mod (2 ^ n) = 0) as Hzero by nia.
    rewrite (Hexact Hzero). nia. }
  assert (0 < 2 ^ (eb - t)) as Hpow' by (apply Z.pow_pos_nonneg; lia).
  destruct Hres as [[_ ->]|[[Hrange Hr]|[Hbig Hr]]]; [by left|right..].
  - assert ((t <=? 971) = true) as Hok by (apply Z.leb_le; lia).
    rewrite Hok in Hr. exists (Z.to_pos m1), t.
    assert (Zpos (Z.to_pos m1) = m1) as Hpos by (apply Z2Pos.id; lia).
    split; [done|]. split.
    { rewrite Hr. cbn [SpecFloat.valid_binary].
      unfold bounded, canonical_mantissa. apply andb_true_iff.
      split; [|exact Hok].
      apply Z.eqb_eq. pose proof (digits2_pos_spec (Z.to_pos m1)) as [Hl Hh].
      rewrite Hpos in Hl, Hh.
      set (d1 := Zpos (digits2_pos (Z.to_pos m1))) in *.
      assert (d1 ≤ 53).
      { destruct (decide (d1 ≤ 53)); [done|].
        assert (2 ^ 53 ≤ 2 ^ (d1 - 1)) by (apply Z.pow_le_mono_r; lia). lia. }
      unfold fexp. change (SpecFloat.emin prec emax) with (-1074).
      change prec with 53.
      destruct (decide (-1074 < t)) as [Hn|]; [|lia].
      assert (53 ≤ d1); [|lia].
      destruct (decide (53 ≤ d1)); [done|].
      assert (2 ^ d1 ≤ 2 ^ 52) by (apply Z.pow_le_mono_r; lia).
      specialize (Hq52 Hn). lia. }
    apply mag_le; [lia|].
    destruct (decide (t = eb)) as [Heq|]; [right|left; lia].
    split; [done|]. rewrite Hpos. unfold M in Hm1M.
    rewrite Heq, Z.sub_diag, Z.pow_0_r in Hm1M. lia.
  - assert (1 ≤ eb - t) as Hgap.
    { destruct (decide (1 ≤ eb - t)); [done|].
      assert (eb - t = 0) as H0 by lia. unfold M in Hm1M.
      rewrite H0, Z.pow_0_r in Hm1M. lia. }
    assert ((t + 1 <=? 971) = true) as Hok by (apply Z.leb_le; lia).
    rewrite Hok in Hr. exists (Z.to_pos (2 ^ 52)), (t + 1).
    split; [done|]. split.
    { rewrite Hr. cbn [SpecFloat.valid_binary].
      unfold bounded, canonical_mantissa. apply andb_true_iff.
      split; [|exact Hok].
      apply Z.eqb_eq. change (Zpos (digits2_pos (Z.to_pos (2 ^ 52)))) with 53.
      unfold fexp. change (SpecFloat.emin prec emax) with (-1074).
      change prec with 53. lia. }
    apply mag_le; [by vm_compute|].
    destruct (decide (t + 1 = eb)) as [Heq|]; [right|left; lia].
    split; [done|]. change (Zpos (Z.to_pos (2 ^ 52))) with (2 ^ 52).
    apply Hnormal. lia.
Qed.

(** Nor does it fall below one: if the exact value is at least [b], so is
    the rounded one. *)
Lemma round_lower s p E mb eb :
  let t := fexp prec emax (Zpos (digits2_pos p) + E) in
  E ≤ t → -4000 ≤ E →
  valid_binary (S754_finite false mb eb) = true →
  val mb eb ≤ val p E →
  let r := binary_round_aux prec emax s (Zpos p) E loc_Exact in
  r = S754_infinity s
  ∨ ∃ m e, r = S754_finite s m e ∧ mag mb eb ≤ mag m e.
Proof.
  intros t Ht HE Hb Hval r.
  destruct (valid_finite _ _ _ Hb) as (Heb & Hmb & Hnormal).
  assert (eb ≤ t) as Hteb.
  { rewrite <-(canonical_fexp _ _ _ Hb). apply fexp_mono_val; [lia..|done]. }
  destruct (binary_round_aux_spec s p E Ht)
    as (m1 & Hm1 & Hexact & Hq53 & Hq52 & Htmin & Hres).
  fold t in Hm1, Hexact, Hq53, Hq52, Htmin, Hres. fold r in Hres.
  set (n := t - E) in *. set (q := Zpos p / 2 ^ n) in *.
  assert (0 < 2 ^ n) as Hpow by (apply Z.pow_pos_nonneg; lia).
  assert (eb = t → Zpos mb ≤ q) as Hsame.
  { intros ->. unfold val in Hval.
    assert (2 ^ (t + 4000) = 2 ^ n * 2 ^ (E + 4000))
      as Hsplit by (rewrite <-!Z.pow_add_r by lia; f_equal; lia).
    rewrite Hsplit in Hval.
    assert (0 < 2 ^ (E + 4000)) by (apply Z.pow_pos_nonneg; lia).
    apply Z.div_le_lower_bound; [done|].
    apply (Z.mul_le_mono_pos_r _ _ (2 ^ (E + 4000))); [done|]. lia. }
  assert (0 < m1) as Hm1pos.
  { destruct (decide (eb = t)) as [Heq|]; [specialize (Hsame Heq); lia|].
    assert (2 ^ 52 ≤ q) by (apply Hq52; lia).
    assert (0 < 2 ^ 52) by (by vm_compute). lia. }
  assert (0 < 2 ^ 53) as Hp53 by (by vm_compute).
  destruct Hres as [[H0 _]|[[Hrange Hr]|[Hbig Hr]]]; [lia|..].
  - destruct (t <=? 971); [right|by left].
    exists (Z.to_pos m1), t. split; [done|].
    assert (Zpos (Z.to_pos m1) = m1) as Hpos by (apply Z2Pos.id; lia).
    apply mag_le; [done|].
    destruct (decide (eb = t)) as [Heq|]; [right|left; lia].
    split; [done|]. rewrite Hpos. specialize (Hsame Heq). lia.
  - destruct (t + 1 <=? 971); [right|by left].
    exists (Z.to_pos (2 ^ 52)), (t + 1). split; [done|].
    apply mag_le; [done|]. left. lia.
Qed.

(** For valid numbers the rank orders the values. *)
Lemma mag_le_val m1 e1 m2 e2 :
  valid_binary (S754_finite false m1 e1) = true →
  valid_binary (S754_finite false m2 e2) = true →
  mag m1 e1 ≤ mag m2 e2 → val m1 e1 ≤ val m2 e2.
Proof.
  intros (He1 & Hm1 & _)%valid_finite (He2 & Hm2 & Hn2)%valid_finite.
  unfold mag, val. intros Hmag.
  assert (0 < 2 ^ 53) as Hp by (by vm_compute).
  assert (e1 < e2 ∨ e1 = e2 ∧ Zpos m1 ≤ Zpos m2) as [Hlt|[-> Hle]] by nia.
  - specialize (Hn2 ltac:(lia)).
    assert (Zpos m1 * 2 ^ (e1 + 4000) ≤ 2 ^ 53 * 2 ^ (e1 + 4000))
      by (apply Z.mul_le_mono_nonneg_r; [apply Z.pow_nonneg|]; lia).
    assert (2 ^ 52 * 2 ^ (e2 + 4000) ≤ Zpos m2 * 2 ^ (e2 + 4000))
      by (apply Z.mul_le_mono_nonneg_r; [apply Z.pow_nonneg|]; lia).
    assert (2 ^ 53 * 2 ^ (e1 + 4000) ≤ 2 ^ 52 * 2 ^ (e2 + 4000)); [|lia].
    rewrite <-!Z.pow_add_r by lia. apply Z.pow_le_mono_r; lia.
  - apply Z.mul_le_mono_nonneg_r; [apply Z.pow_nonneg|]; lia.
Qed.

Lemma val_mul m1 e1 m2 e2 :
  -2000 ≤ e1 → -2000 ≤ e2 →
  val (m1 * m2) (e1 + e2) * 2 ^ 4000 = val m1 e1 * val m2 e2.
Proof.
  intros H1 H2. unfold val. rewrite Pos2Z.inj_mul.
  assert (2 ^ (e1 + e2 + 4000) * 2 ^ 4000
          = 2 ^ (e1 + 4000) * 2 ^ (e2 + 4000)) as Hpow.
  { rewrite <-!Z.pow_add_r by lia. f_equal. lia. }
  rewrite <-!Z.mul_assoc, Hpow. lia.
Qed.

(** The exponent of a product with a normal factor is not above that of
    the format. *)
Lemma mul_exponent mx ex my ey :
  2 ^ 52 ≤ Zpos mx ∨ 2 ^ 52 ≤ Zpos my →
  ex + ey ≤ fexp prec emax (Zpos (digits2_pos (mx * my)) + (ex + ey)).
Proof.
  intros Hnormal.
  pose proof (digits2_pos_spec (mx * my)) as [_ Hhi].
  rewrite Pos2Z.inj_mul in Hhi.
  set (d := Zpos (digits2_pos (mx * my))) in *.
  assert (53 ≤ d).
  { destruct (decide (53 ≤ d)); [done|].
    assert (2 ^ d ≤ 2 ^ 52) by (apply Z.pow_le_mono_r; lia).
    assert (0 < 2 ^ 52) by (by vm_compute). nia. }
  unfold fexp. change prec with 53. lia.
Qed.

(** A product whose exact value is at most [b] is at most [b]; a negative
    product is below every positive number. *)
Lemma SFmul_upper sx mx ex sy my ey mb eb :
  valid_binary (S754_finite sx mx ex) = true →
  valid_binary (S754_finite sy my ey) = true →
  valid_binary (S754_finite false mb eb) = true →
  2 ^ 52 ≤ Zpos mx ∨ 2 ^ 52 ≤ Zpos my →
  (xorb sx sy = false → val mx ex * val my ey ≤ val mb eb * 2 ^ 4000) →
  ∃ a, rank (SF64mul (S754_finite sx mx ex) (S754_finite sy my ey)) = Some a
       ∧ a ≤ mag mb eb.
Proof.
  intros Hx Hy Hb Hnormal Hval.
  destruct (valid_finite _ _ _ Hx) as (Hex & _).
  destruct (valid_finite _ _ _ Hy) as (Hey & _).
  pose proof (mag_bounds _ _ _ Hb) as Hmagb.
  unfold SF64mul. cbn [SFmul].
  pose proof (mul_exponent mx ex my ey Hnormal) as Hexp.
  destruct (xorb sx sy) eqn:Hsign.
  - destruct (binary_round_aux_spec true (mx * my) (ex + ey) Hexp)
      as (m1 & _ & _ & _ & _ & Htmin & [[_ ->]|[[Hm ->]|[_ ->]]]).
    + exists 0. split; [done|lia].
    + destruct (_ <=? 971); cbn [rank]; eexists; (split; [done|]).
      * unfold mag at 1. assert (0 < 2 ^ 53) by (by vm_compute). nia.
      * lia.
    + destruct (_ <=? 971); cbn [rank]; eexists; (split; [done|]).
      * unfold mag at 1. assert (0 < 2 ^ 53) by (by vm_compute). nia.
      * lia.
  - specialize (Hval eq_refl). rewrite <-val_mul in Hval by lia.
    assert (val (mx * my) (ex + ey) ≤ val mb eb) as Hle.
    { assert (0 < 2 ^ 4000) by (apply Z.pow_pos_nonneg; lia).
      apply (Z.mul_le_mono_pos_r _ _ (2 ^ 4000)); done. }
    destruct (round_upper false (mx * my) (ex + ey) mb eb Hexp ltac:(lia)
                Hb Hle) as [->|(m & e & -> & _ & Hmag)].
    + exists 0. split; [done|lia].
    + exists (mag m e). done.
Qed.

(** A product of positive numbers whose exact value is at least [b] is at
    least [b]. *)
Lemma SFmul_lower mx ex my ey mb eb :
  valid_binary (S754_finite false mx ex) = true →
  valid_binary (S754_finite false my ey) = true →
  valid_binary (S754_finite false mb eb) = true →
  2 ^ 52 ≤ Zpos mx ∨ 2 ^ 52 ≤ Zpos my →
  val mb eb * 2 ^ 4000 ≤ val mx ex * val my ey →
  ∃ a, rank (SF64mul (S754_finite false mx ex) (S754_finite false my ey))
       = Some a
       ∧ mag mb eb ≤ a.
Proof.
  intros Hx Hy Hb Hnormal Hval.
  destruct (valid_finite _ _ _ Hx) as (Hex & _).
  destruct (valid_finite _ _ _ Hy) as (Hey & _).
  pose proof (mag_bounds _ _ _ Hb) as Hmagb.
  unfold SF64mul. cbn [SFmul xorb].
  pose proof (mul_exponent mx ex my ey Hnormal) as Hexp.
  rewrite <-val_mul in Hval by lia.
  assert (val mb eb ≤ val (mx * my) (ex + ey)) as Hle.
  { assert (0 < 2 ^ 4000) by (apply Z.pow_pos_nonneg; lia).
    apply (Z.mul_le_mono_pos_r _ _ (2 ^ 4000)); done. }
  destruct (round_lower false (mx * my) (ex + ey) mb eb Hexp ltac:(lia)
              Hb Hle) as [->|(m & e & -> & Hmag)].
  - exists (2 ^ 70). split; [done|lia].
  - exists (mag m e). done.
Qed.

Lemma shl_align_spec mx ex ez :
  ez ≤ ex →
  Zpos (shl_align mx ex ez).1 = Zpos mx * 2 ^ (ex - ez)
  ∧ (shl_align mx ex ez).2 = ez.
Proof.
  intros Hle. unfold shl_align.
  destruct (ez - ex) as [|d|d] eqn:Hd; [|lia|]; cbn [fst snd].
  - assert (ex = ez) as -> by lia. rewrite Z.sub_diag. split; [lia|done].
  - split; [|done]. assert (ex - ez = Zpos d) as -> by lia.
    change (Pos.iter xO mx d) with (shift_pos d mx).
    rewrite shift_pos_correct. change (Z.pow_pos 2 d) with (2 ^ Zpos d). lia.
Qed.

Lemma shl_align_val mx ex ez :
  ez ≤ ex → -4000 ≤ ez → val (shl_align mx ex ez).1 ez = val mx ex.
Proof.
  intros Hle Hez. unfold val. destruct (shl_align_spec mx ex ez Hle) as [-> _].
  replace (ex + 4000) with ((ex - ez) + (ez + 4000)) by lia.
  rewrite (Z.pow_add_r 2 (ex - ez)) by lia. lia.
Qed.

(** The mantissa that [binary_round] hands to the rounding has the value
    of the one it was given and an exponent not above that of the
    format. *)
Lemma binary_round_aligned p e :
  -2000 ≤ e →
  let t := fexp prec emax (Zpos (digits2_pos p) + e) in
  let aligned := shl_align p e t in
  val aligned.1 aligned.2 = val p e
  ∧ -2000 ≤ aligned.2
  ∧ aligned.2
    ≤ fexp prec emax (Zpos (digits2_pos aligned.1) + aligned.2).
Proof.
  intros He t aligned.
  assert (-1074 ≤ t) as Ht.
  { unfold t, fexp. change (SpecFloat.emin prec emax) with (-1074). lia. }
  destruct (decide (t ≤ e)) as [Hle|Hgt].
  - destruct (shl_align_spec p e t Hle) as [Hm He'].
    fold aligned in Hm, He'.
    assert (val aligned.1 aligned.2 = val p e) as Hval.
    { rewrite He'. by apply shl_align_val; lia. }
    split_and!; [done|lia|].
    rewrite He' at 1. apply (fexp_mono_val p e); [lia..|]. by rewrite Hval.
  - assert (aligned = (p, e)) as ->.
    { unfold aligned, shl_align.
      destruct (t - e) as [|d|d] eqn:Hd; [done|done|lia]. }
    cbn [fst snd]. fold t. split_and!; [done|lia|lia].
Qed.

(** The sign of what [binary_round] gives. *)
Lemma binary_round_sign s p e :
  -2000 ≤ e →
  ∃ a, rank (binary_round prec emax s p e) = Some a
       ∧ if s then a ≤ 0 else 0 ≤ a.
Proof.
  intros He. unfold binary_round.
  destruct (binary_round_aligned p e He) as (_ & Hlo & Hexp).
  destruct (shl_align p e _) as [mz ez]. cbn [fst snd] in Hlo, Hexp.
  assert (0 < 2 ^ 53) by (by vm_compute).
  destruct (binary_round_aux_spec s mz ez Hexp)
    as (m1 & _ & _ & _ & _ & Htmin & [[_ ->]|[[Hm ->]|[_ ->]]]).
  - exists 0. split; [done|]. by destruct s.
  - destruct (_ <=? 971); cbn [rank]; eexists; (split; [done|]);
      unfold mag; destruct s; nia.
  - destruct (_ <=? 971); cbn [rank]; eexists; (split; [done|]);
      unfold mag; destruct s; nia.
Qed.

Lemma binary_round_upper p e mb eb :
  -2000 ≤ e →
  valid_binary (S754_finite false mb eb) = true →
  val p e ≤ val mb eb →
  ∃ a, rank (binary_round prec emax false p e) = Some a ∧ a ≤ mag mb eb.
Proof.
  intros He Hb Hval. unfold binary_round.
  destruct (binary_round_aligned p e He) as (Hv & Hlo & Hexp).
  destruct (shl_align p e _) as [mz ez]. cbn [fst snd] in Hv, Hlo, Hexp.
  rewrite <-Hv in Hval.
  pose proof (mag_bounds _ _ _ Hb) as Hmagb.
  destruct (round_upper false mz ez mb eb Hexp ltac:(lia) Hb Hval)
    as [->|(m & e' & -> & _ & Hmag)].
  - exists 0. split; [done|lia].
  - exists (mag m e'). done.
Qed.

(** A sum whose exact value is at most [b] is at most [b]. *)
Lemma SFadd_upper sx mx ex mc ec mb eb :
  valid_binary (S754_finite sx mx ex) = true →
  valid_binary (S754_finite false mc ec) = true →
  valid_binary (S754_finite false mb eb) = true →
  (sx = false → val mx ex + val mc ec ≤ val mb eb) →
  val mc ec ≤ val mb eb →
  ∃ a, rank (SF64add (S754_finite sx mx ex) (S754_finite false mc ec))
       = Some a
       ∧ a ≤ mag mb eb.
Proof.
  intros Hx Hc Hb Hsum Hcb.
  destruct (valid_finite _ _ _ Hx) as (Hex & _).
  destruct (valid_finite _ _ _ Hc) as (Hec & _).
  pose proof (mag_bounds _ _ _ Hb) as Hmagb.
  unfold SF64add. cbn [SFadd cond_Zopp].
  set (ez := Z.min ex ec).
  pose proof (shl_align_val mx ex ez ltac:(lia) ltac:(lia)) as Hvx.
  pose proof (shl_align_val mc ec ez ltac:(lia) ltac:(lia)) as Hvc.
  set (mx' := (shl_align mx ex ez).1) in *.
  set (mc' := (shl_align mc ec ez).1) in *.
  assert (0 < 2 ^ (ez + 4000)) as Hpow by (apply Z.pow_pos_nonneg; lia).
  destruct (cond_Zopp sx (Zpos mx') + Zpos mc') as [|pS|pS] eqn:HS;
    cbn [binary_normalize].
  - exists 0. split; [done|lia].
  - apply binary_round_upper; [lia|done|].
    assert (val pS ez = cond_Zopp sx (val mx' ez) + val mc' ez) as ->.
    { unfold val. rewrite <-HS. destruct sx; cbn [cond_Zopp]; lia. }
    rewrite Hvx, Hvc. destruct sx; cbn [cond_Zopp]; [|by apply Hsum].
    pose proof (val_pos mx ex ltac:(lia)). lia.
  - destruct (binary_round_sign true pS ez ltac:(lia)) as (a & -> & Ha).
    exists a. split; [done|lia].
Qed.

End binary64_rounding.

Section binary64_bounds.
Import Binary64.
Local Open Scope Z_scope.

Lemma finite_pos_spec x m e :
  finite_pos x = Some (m, e) →
  Prim2SF x = S754_finite false m e
  ∧ valid_binary (S754_finite false m e) = true
  ∧ frank x = Some (mag m e).
Proof.
  unfold finite_pos, frank. pose proof (Prim2SF_valid x) as Hv.
  destruct (Prim2SF x) as [| | |[] m' e']; try done.
  by intros [= -> ->].
Qed.

(** [x <= x0] gives [x * c <= b] when the exact product of [x0] and [c]
    is at most [b]. *)
Lemma mul_le (x x0 c b : float) :
  mul_fits x0 c b = true →
  PrimFloat.leb x x0 = true → PrimFloat.leb (x * c) b = true.
Proof.
  unfold mul_fits.
  destruct (finite_pos x0) as [[m0 e0]|] eqn:H0; [|done].
  destruct (finite_pos c) as [[mc ec]|] eqn:Hc; [|done].
  destruct (finite_pos b) as [[mb eb]|] eqn:Hb; [|done].
  intros [Hnormal%Z.leb_le Hfit%Z.leb_le]%andb_true_iff.
  apply finite_pos_spec in H0 as (_ & Hv0 & Hr0).
  apply finite_pos_spec in Hc as (Hc & Hvc & _).
  apply finite_pos_spec in Hb as (_ & Hvb & Hrb).
  intros (a & a0 & Ha & Ha0 & Hle)%leb_rank. apply leb_rank.
  rewrite Hr0 in Ha0. injection Ha0 as <-.
  pose proof (mag_bounds _ _ _ Hv0) as Hmag0.
  pose proof (mag_bounds _ _ _ Hvb) as Hmagb.
  assert (∃ r, frank (x * c) = Some r ∧ r ≤ mag mb eb) as (r & Hr & Hrle).
  { unfold frank in Ha |- *. rewrite mul_spec, Hc.
    pose proof (Prim2SF_valid x) as Hvx.
    destruct (Prim2SF x) as [sx|sx| |sx mx ex]; cbn [rank] in Ha.
    - exists 0. split; [done|lia].
    - injection Ha as <-. destruct sx; [|lia].
      exists (- 2 ^ 70). split; [done|lia].
    - done.
    - injection Ha as <-.
      apply SFmul_upper; [done..|by right|].
      intros Hsx. destruct sx; [done|].
      pose proof (mag_le_val _ _ _ _ Hvx Hv0 Hle) as Hval.
      pose proof (val_pos mc ec) as Hpc.
      destruct (valid_finite _ _ _ Hvc) as (? & _).
      etrans; [|exact Hfit].
      apply Z.mul_le_mono_nonneg_r; [|done]. specialize (Hpc ltac:(lia)). lia. }
  exists r, (mag mb eb). done.
Qed.

(** [x0 <= x] gives [b <= x * c] when the exact product of [x0] and [c]
    is at least [b]. *)
Lemma mul_ge (x x0 c b : float) :
  mul_reaches x0 c b = true →
  PrimFloat.leb x0 x = true → PrimFloat.leb b (x * c) = true.
Proof.
  unfold mul_reaches.
  destruct (finite_pos x0) as [[m0 e0]|] eqn:H0; [|done].
  destruct (finite_pos c) as [[mc ec]|] eqn:Hc; [|done].
  destruct (finite_pos b) as [[mb eb]|] eqn:Hb; [|done].
  intros [Hnormal%Z.leb_le Hfit%Z.leb_le]%andb_true_iff.
  apply finite_pos_spec in H0 as (_ & Hv0 & Hr0).
  apply finite_pos_spec in Hc as (Hc & Hvc & _).
  apply finite_pos_spec in Hb as (_ & Hvb & Hrb).
  intros (a0 & a & Ha0 & Ha & Hle)%leb_rank. apply leb_rank.
  rewrite Hr0 in Ha0. injection Ha0 as <-.
  pose proof (mag_bounds _ _ _ Hv0) as Hmag0.
  pose proof (mag_bounds _ _ _ Hvb) as Hmagb.
  assert (∃ r, frank (x * c) = Some r ∧ mag mb eb ≤ r) as (r & Hr & Hrle).
  { unfold frank in Ha |- *. rewrite mul_spec, Hc.
    pose proof (Prim2SF_valid x) as Hvx.
    destruct (Prim2SF x) as [sx|sx| |sx mx ex]; cbn [rank] in Ha.
    - injection Ha as <-. lia.
    - injection Ha as <-. destruct sx; [lia|].
      exists (2 ^ 70). split; [done|lia].
    - done.
    - injection Ha as <-. pose proof (mag_bounds _ _ _ Hvx).
      destruct sx; [lia|].
      apply SFmul_lower; [done..|by right|].
      pose proof (mag_le_val _ _ _ _ Hv0 Hvx Hle) as Hval.
      pose proof (val_pos mc ec) as Hpc.
      destruct (valid_finite _ _ _ Hvc) as (? & _).
      etrans; [exact Hfit|].
      apply Z.mul_le_mono_nonneg_r; [|done]. specialize (Hpc ltac:(lia)). lia. }
  exists (mag mb eb), r. done.
Qed.

(** [x <= x0] gives [x + c <= b] when the exact sum of [x0] and [c] is at
    most [b]. *)
Lemma add_le (x x0 c b : float) :
  add_fits x0 c b = true →
  PrimFloat.leb x x0 = true → PrimFloat.leb (x + c) b = true.
Proof.
  unfold add_fits.
  destruct (finite_pos x0) as [[m0 e0]|] eqn:H0; [|done].
  destruct (finite_pos c) as [[mc ec]|] eqn:Hc; [|done].
  destruct (finite_pos b) as [[mb eb]|] eqn:Hb; [|done].
  intros Hfit%Z.leb_le.
  apply finite_pos_spec in H0 as (_ & Hv0 & Hr0).
  apply finite_pos_spec in Hc as (Hc & Hvc & _).
  apply finite_pos_spec in Hb as (_ & Hvb & Hrb).
  intros (a & a0 & Ha & Ha0 & Hle)%leb_rank. apply leb_rank.
  rewrite Hr0 in Ha0. injection Ha0 as <-.
  pose proof (mag_bounds _ _ _ Hv0) as Hmag0.
  pose proof (mag_bounds _ _ _ Hvb) as Hmagb.
  destruct (valid_finite _ _ _ Hv0) as (He0 & _).
  destruct (valid_finite _ _ _ Hvc) as (Hec & _).
  pose proof (val_pos m0 e0 ltac:(lia)) as Hp0.
  pose proof (val_pos mc ec ltac:(lia)) as Hpc.
  assert (∃ r, frank (x + c) = Some r ∧ r ≤ mag mb eb) as (r & Hr & Hrle).
  { unfold frank in Ha |- *. rewrite add_spec, Hc.
    pose proof (Prim2SF_valid x) as Hvx.
    destruct (Prim2SF x) as [sx|sx| |sx mx ex]; cbn [rank] in Ha.
    - exists (mag mc ec). split; [done|].
      destruct (decide (mag mc ec ≤ mag mb eb)) as [|Hgt]; [done|].
      assert (mag mb eb ≤ mag mc ec) as Hrev by lia.
      pose proof (mag_le_val _ _ _ _ Hvb Hvc Hrev). lia.
    - injection Ha as <-. destruct sx; [|lia].
      exists (- 2 ^ 70). split; [done|lia].
    - done.
    - injection Ha as <-.
      apply SFadd_upper; [done..| |lia].
      intros ->. pose proof (mag_le_val _ _ _ _ Hvx Hv0 Hle). lia. }
  exists r, (mag mb eb). done.
Qed.

(** The product of two numbers that are at most 1, the first of them above
    a positive normal number [l], is at most 1. *)
Lemma mul_le_1 (l y x : float) :
  normal_pos l = true →
  PrimFloat.ltb l y = true → PrimFloat.leb y 1 = true →
  PrimFloat.leb x 1 = true → PrimFloat.leb (y * x) 1 = true.
Proof.
  unfold normal_pos.
  destruct (finite_pos l) as [[ml el]|] eqn:Hl; [|done].
  intros Hnormal%Z.ltb_lt.
  apply finite_pos_spec in Hl as (_ & Hvl & Hrl).
  assert (finite_pos 1 = Some (Z.to_pos (2 ^ 52), -52)) as H1
    by (by vm_compute).
  apply finite_pos_spec in H1 as (_ & Hv1 & Hr1).
  set (m1 := Z.to_pos (2 ^ 52)) in *.
  assert (val m1 (-52) = 2 ^ 4000) as Hval1 by (by vm_compute).
  intros (al & ay & Hal & Hay & Hly)%ltb_rank
         (ay' & a1 & Hay' & Ha1 & Hy1)%leb_rank
         (ax & a1' & Hax & Ha1' & Hx1)%leb_rank.
  rewrite Hrl in Hal. injection Hal as <-.
  rewrite Hay in Hay'. injection Hay' as <-.
  rewrite Hr1 in Ha1, Ha1'. injection Ha1 as <-. injection Ha1' as <-.
  pose proof (mag_bounds _ _ _ Hvl) as Hmagl.
  pose proof (mag_bounds _ _ _ Hv1) as Hmag1.
  apply leb_rank.
  assert (∃ r, frank (y * x) = Some r ∧ r ≤ mag m1 (-52))
    as (r & Hr & Hrle); [|by exists r, (mag m1 (-52))].
  unfold frank in Hay, Hax |- *. rewrite mul_spec.
  pose proof (Prim2SF_valid y) as Hvy. pose proof (Prim2SF_valid x) as Hvx.
  destruct (Prim2SF y) as [sy|sy| |sy my ey]; cbn [rank] in Hay;
    [injection Hay as <-; lia|injection Hay as <-; destruct sy; lia|done|].
  injection Hay as <-.
  pose proof (mag_bounds _ _ _ Hvy) as Hmagy.
  destruct sy; [lia|].
  assert (2 ^ 52 ≤ Zpos my) as Hmy.
  { destruct (valid_finite _ _ _ Hvy) as (_ & Hlt & Hn). apply Hn.
    unfold mag in Hly. set (P := 2 ^ 53) in *.
    assert ((el + 2000) * P < (ey + 2000 + 1) * P) as Hmul by lia.
    apply Z.mul_lt_mono_pos_r in Hmul; [lia|by vm_compute]. }
  destruct (Prim2SF x) as [sx|sx| |sx mx ex]; cbn [rank] in Hax.
  - exists 0. split; [done|lia].
  - injection Hax as <-. destruct sx; [|lia].
    exists (- 2 ^ 70). split; [done|lia].
  - done.
  - injection Hax as <-.
    apply SFmul_upper; [done..|by left|].
    cbn [xorb]. intros ->.
    pose proof (mag_le_val _ _ _ _ Hvy Hv1 Hy1) as Hy.
    pose proof (mag_le_val _ _ _ _ Hvx Hv1 Hx1) as Hx.
    rewrite Hval1 in Hy, Hx |- *.
    destruct (valid_finite _ _ _ Hvy) as (? & _).
    destruct (valid_finite _ _ _ Hvx) as (? & _).
    pose proof (val_pos my ey ltac:(lia)).
    pose proof (val_pos mx ex ltac:(lia)).
    apply Z.mul_le_mono_nonneg; lia.
Qed.

(** Adding to zero changes no rank. *)
Lemma add_zero_rank (y : float) : frank (0 + y) = frank y.
Proof.
  unfold frank. rewrite add_spec.
  change (Prim2SF 0) with (S754_zero false).
  destruct (Prim2SF y) as [[]| | |]; reflexivity.
Qed.

End binary64_bounds.

(** ** store.py: merging *)

Section store_theory.
Import Store Notions.

Lemma lookup_merge_patterns (st incoming : store) (sheet : string) :
  sheets (merge_patterns st incoming) !! sheet =
    match sheets incoming !! sheet with
    | Some payload =>
        Some (merge_sheet (default fresh_entry (sheets st !! sheet)) payload)
    | None => sheets st !! sheet
    end.
Proof. unfold merge_patterns; simpl. by rewrite lookup_update_from. Qed.

Lemma lookup_merge_header_map (target payload : sheet_entry) (norm : string) :
  header_map (merge_sheet target payload) !! norm =
    match header_map payload !! norm with
    | Some variants =>
        Some (Py.sorted (Py.update
                (Py.set_of (default [] (header_map target !! norm)))
                variants))
    | None => header_map target !! norm
    end.
Proof. unfold merge_sheet; simpl. by rewrite lookup_update_from. Qed.

(** Merging the same payload a second time changes neither set field. *)
Lemma merge_sheet_twice (target payload : sheet_entry) :
  set_fields (merge_sheet (merge_sheet target payload) payload)
  = set_fields (merge_sheet target payload).
Proof.
  unfold set_fields. f_equal.
  - simpl. rewrite set_of_sorted. f_equal. apply update_twice.
  - apply map_eq. intros norm. rewrite !lookup_merge_header_map.
    destruct (header_map payload !! norm) as [variants|]; [|done].
    simpl. rewrite set_of_sorted. do 2 f_equal. apply update_twice.
Qed.

(** Two payloads merged into one target give the same set fields in
    either order. *)
Lemma merge_sheet_swap (target a b : sheet_entry) :
  set_fields (merge_sheet (merge_sheet target a) b)
  = set_fields (merge_sheet (merge_sheet target b) a).
Proof.
  unfold set_fields. f_equal.
  - simpl. rewrite !set_of_sorted. f_equal. apply update_swap.
  - apply map_eq. intros norm. rewrite !lookup_merge_header_map.
    destruct (header_map a !! norm) as [va|], (header_map b !! norm) as [vb|];
      simpl; try done.
    rewrite !set_of_sorted. do 2 f_equal. apply update_swap.
Qed.

(** C3. [merge_patterns] is idempotent on the set-valued fields: merging
    the same incoming patterns a second time leaves, for every sheet, the
    [columns_to_fill] list and the [header_map] of the first merge. *)
Theorem merge_patterns_idempotent (S I : store) (sheet : string) :
  set_fields <$> sheets (merge_patterns (merge_patterns S I) I) !! sheet
  = set_fields <$> sheets (merge_patterns S I) !! sheet.
Proof.
  rewrite !lookup_merge_patterns.
  destruct (sheets I !! sheet) as [payload|]; [|done].
  simpl. f_equal. apply merge_sheet_twice.
Qed.

(** C4. [merge_patterns] is commutative on the set-valued fields: merging
    [A] then [B] and merging [B] then [A] give, for every sheet, the same
    [columns_to_fill] list and the same [header_map]. *)
Theorem merge_patterns_commutative (S A B : store) (sheet : string) :
  set_fields <$> sheets (merge_patterns (merge_patterns S A) B) !! sheet
  = set_fields <$> sheets (merge_patterns (merge_patterns S B) A) !! sheet.
Proof.
  rewrite !lookup_merge_patterns.
  destruct (sheets A !! sheet) as [a|], (sheets B !! sheet) as [b|];
    simpl; try done.
  f_equal. apply merge_sheet_swap.
Qed.

End store_theory.

(** ** enhanced_trainer.py: the fillability analyzer *)

Section trainer_theory.
Import EnhancedTrainer Notions.

Implicit Types (empty_rows filled_rows : list (gmap string Py.cell)).

Lemma length_column_values (rows : list (gmap string Py.cell)) key :
  length (column_values rows key) = length rows `min` 200.
Proof. unfold column_values. rewrite length_fmap, length_take. lia. Qed.

(** Signal 1 alone already carries the confidence over both thresholds,
    whatever the other three signals add. *)
Lemma score_signals_empty_to_filled er fr d n s :
  PrimFloat.leb er 0.1 = true → PrimFloat.leb 0.3 fr = true →
  PrimFloat.leb 0.8 (score_signals er fr d n s).1 = true
  ∧ PrimFloat.leb 0.3 (score_signals er fr d n s).1 = true
  ∧ "empty_to_filled" ∈ (score_signals er fr d n s).2.
Proof.
  intros Her Hfr. unfold score_signals. rewrite Her, Hfr.
  destruct d, n, s; vm_compute; split_and!; try reflexivity;
    apply list_elem_of_here.
Qed.

(** The analyzer returns the full dict exactly when both samples have a
    row. *)
Lemma analyze_with_rows empty_rows filled_rows key :
  column_values empty_rows key ≠ [] → column_values filled_rows key ≠ [] →
  ∃ a, analyze_column_filling_patterns empty_rows filled_rows key = Analyzed a.
Proof.
  intros He Hf. unfold analyze_column_filling_patterns.
  case_bool_decide as Hmin.
  - destruct (column_values empty_rows key), (column_values filled_rows key);
      simpl in Hmin; congruence.
  - destruct (score_signals _ _ _ _ _). eauto.
Qed.

(** The bookkeeping fields of a full result. *)
Lemma analyzed_fields empty_rows filled_rows key a :
  analyze_column_filling_patterns empty_rows filled_rows key = Analyzed a →
  let empty_values := column_values empty_rows key in
  let filled_values := column_values filled_rows key in
  empty_count a = length (filter non_empty empty_values)
  ∧ filled_count a = length (filter non_empty filled_values)
  ∧ total_rows a = length empty_values `min` length filled_values
  ∧ total_rows a ≠ 0
  ∧ empty_ratio a = Py.truediv (empty_count a) (total_rows a)
  ∧ filled_ratio a = Py.truediv (filled_count a) (total_rows a).
Proof.
  unfold analyze_column_filling_patterns.
  case_bool_decide as Hmin; [done|].
  destruct (score_signals _ _ _ _ _). intros [= <-]. by simpl.
Qed.

(** C1. For two non-empty samples the analyzer returns a full result, and
    when the computed empty ratio is at most 0.1 and the computed filled
    ratio at least 0.3, that result is fillable, its confidence is at least
    0.8 and its reasons contain "empty_to_filled". *)
Theorem empty_to_filled_is_fillable empty_rows filled_rows key :
  column_values empty_rows key ≠ [] → column_values filled_rows key ≠ [] →
  ∃ a, analyze_column_filling_patterns empty_rows filled_rows key = Analyzed a
    ∧ (PrimFloat.leb (empty_ratio a) 0.1 = true →
       PrimFloat.leb 0.3 (filled_ratio a) = true →
       fillable a = true
       ∧ PrimFloat.leb 0.8 (confidence a) = true
       ∧ "empty_to_filled" ∈ reasons a).
Proof.
  intros He Hf.
  destruct (analyze_with_rows _ _ _ He Hf) as [a Ha].
  exists a. split; [done|]. revert Ha.
  unfold analyze_column_filling_patterns.
  case_bool_decide as Hmin; [done|].
  match goal with
  | |- context [score_signals ?er ?fr ?d ?n ?s] =>
      pose proof (score_signals_empty_to_filled er fr d n s) as Hsig;
      destruct (score_signals er fr d n s) as [c rs]
  end.
  intros [= <-]; simpl. intros Her Hfr.
  destruct (Hsig Her Hfr) as (? & ? & ?). done.
Qed.

(** The scenario of the specification: empty sample ["", "", "0", ""],
    filled sample ["100", "250", "0", "300"]. *)
Lemma empty_to_filled_is_fillable_witness :
  ∃ a, analyze_column_filling_patterns
         (rows_of "rate" [""; ""; "0"; ""])
         (rows_of "rate" ["100"; "250"; "0"; "300"]) "rate" = Analyzed a
    ∧ PrimFloat.leb (empty_ratio a) 0.1 = true
    ∧ PrimFloat.leb 0.3 (filled_ratio a) = true
    ∧ fillable a = true
    ∧ PrimFloat.leb 0.8 (confidence a) = true
    ∧ "empty_to_filled" ∈ reasons a.
Proof.
  destruct (empty_to_filled_is_fillable
              (rows_of "rate" [""; ""; "0"; ""])
              (rows_of "rate" ["100"; "250"; "0"; "300"]) "rate")
    as (a & Ha & Himp); [by vm_compute..|].
  exists a. split; [exact Ha|].
  assert (PrimFloat.leb (empty_ratio a) 0.1 = true) as Her.
  { vm_compute in Ha. injection Ha as <-. reflexivity. }
  assert (PrimFloat.leb 0.3 (filled_ratio a) = true) as Hfr.
  { vm_compute in Ha. injection Ha as <-. reflexivity. }
  split; [exact Her|]. split; [exact Hfr|]. exact (Himp Her Hfr).
Defined.

(** C9. When the shorter of the two samples is empty, the analyzer returns
    the dict [{"fillable": False, "confidence": 0.0, "reason": "no_data"}];
    the function is total, so nothing is raised. *)
Theorem analyze_no_overlap empty_rows filled_rows key :
  length (column_values empty_rows key)
    `min` length (column_values filled_rows key) = 0 →
  analyze_column_filling_patterns empty_rows filled_rows key
  = NoData false 0.0 "no_data".
Proof.
  intros Hmin. unfold analyze_column_filling_patterns.
  by rewrite bool_decide_eq_true_2.
Qed.

Lemma analyze_no_overlap_witness :
  length (column_values (rows_of "rate" ["1"; "2"]) "rate")
    `min` length (column_values [] "rate") = 0
  ∧ analyze_column_filling_patterns (rows_of "rate" ["1"; "2"]) [] "rate"
    = NoData false 0.0 "no_data".
Proof.
  split; [reflexivity|].
  apply (analyze_no_overlap (rows_of "rate" ["1"; "2"]) [] "rate").
  reflexivity.
Defined.

Lemma ratios_above_one_ok : ratios_above_one = true.
Proof. vm_compute. reflexivity. Qed.

Lemma truediv_above_one le lf :
  0 < lf → lf < le → le ≤ 200 → PrimFloat.ltb 1.0 (Py.truediv le lf) = true.
Proof.
  intros Hlf Hlt Hle.
  pose proof ratios_above_one_ok as Hall. unfold ratios_above_one in Hall.
  rewrite forallb_forall in Hall.
  specialize (Hall lf). rewrite forallb_forall in Hall.
  apply Hall; apply in_seq; lia.
Qed.

Lemma column_values_replicate n (row : gmap string Py.cell) key :
  column_values (replicate n row) key
  = replicate (n `min` 200)
      (Py.strip (Py.str_of (default (Py.CStr "") (row !! key)))).
Proof.
  unfold column_values. rewrite take_replicate, fmap_replicate.
  f_equal. lia.
Qed.

Lemma filter_replicate_true {A} (P : A → Prop) `{!∀ x, Decision (P x)} n x :
  P x → filter P (replicate n x) = replicate n x.
Proof.
  intros Hx. induction n as [|n IH]; [done|].
  simpl. rewrite filter_cons_True by done. by rewrite IH.
Qed.

(** C10. A sampled value counts as non-empty iff its stripped text is
    neither empty nor "0"; each version is counted over its own sample (at
    most the first 200 rows); both ratios divide by the shorter of the two
    sample lengths; so for every pair of sample lengths with the empty one
    longer (and the filled one not empty, as a ratio is returned at all)
    there are inputs whose returned [empty_ratio] is above 1.0. *)
Theorem ratios_divide_by_shorter_sample :
  (∀ v, non_empty v ↔ v ≠ "" ∧ v ≠ "0")
  ∧ (∀ (rows : list (gmap string Py.cell)) key,
       column_values rows key
       = (λ row : gmap string Py.cell,
            Py.strip (Py.str_of (default (Py.CStr "") (row !! key))))
           <$> take 200 rows)
  ∧ (∀ empty_rows filled_rows key a,
       analyze_column_filling_patterns empty_rows filled_rows key
       = Analyzed a →
       empty_count a = length (filter non_empty (column_values empty_rows key))
       ∧ filled_count a
         = length (filter non_empty (column_values filled_rows key))
       ∧ total_rows a = length (column_values empty_rows key)
                        `min` length (column_values filled_rows key)
       ∧ empty_ratio a = Py.truediv (empty_count a) (total_rows a)
       ∧ filled_ratio a = Py.truediv (filled_count a) (total_rows a))
  ∧ (∀ le lf key, 0 < lf → lf < le → le ≤ 200 →
       ∃ empty_rows filled_rows a,
         length (column_values empty_rows key) = le
         ∧ length (column_values filled_rows key) = lf
         ∧ analyze_column_filling_patterns empty_rows filled_rows key
           = Analyzed a
         ∧ PrimFloat.ltb 1.0 (empty_ratio a) = true).
Proof.
  split_and!.
  - intros v. unfold non_empty. split.
    + intros [Hv Hin]. split; [done|]. intros ->. apply Hin.
      apply list_elem_of_here.
    + intros [Hv H0]. split; [done|].
      rewrite !not_elem_of_cons. split_and!; [done|done|apply not_elem_of_nil].
  - done.
  - intros empty_rows filled_rows key a Ha.
    destruct (analyzed_fields _ _ _ _ Ha) as (? & ? & ? & ? & ? & ?). done.
  - intros le lf key Hlf Hlt Hle.
    set (empty_rows := replicate le ({[ key := Py.CStr "x" ]} : gmap string Py.cell)).
    set (filled_rows := replicate lf (∅ : gmap string Py.cell)).
    assert (column_values empty_rows key = replicate le "x") as Hev.
    { unfold empty_rows. rewrite column_values_replicate, lookup_singleton_eq.
      f_equal. lia. }
    assert (length (column_values filled_rows key) = lf) as Hfl.
    { rewrite length_column_values. unfold filled_rows.
      rewrite length_replicate. lia. }
    assert (column_values empty_rows key ≠ []) as Hne.
    { rewrite Hev. destruct le; [lia|done]. }
    assert (column_values filled_rows key ≠ []) as Hnf.
    { intros Hnil. rewrite Hnil in Hfl. simpl in Hfl. lia. }
    destruct (analyze_with_rows _ _ _ Hne Hnf) as [a Ha].
    exists empty_rows, filled_rows, a.
    destruct (analyzed_fields _ _ _ _ Ha) as (Hec & _ & Htot & _ & Her & _).
    rewrite Hfl in *. rewrite Hev in *. rewrite length_replicate in *.
    split_and!; try done.
    rewrite Her, Hec, Htot.
    rewrite filter_replicate_true, length_replicate.
    + replace (le `min` lf) with lf by lia. by apply truediv_above_one.
    + unfold non_empty. split; [done|].
      rewrite !not_elem_of_cons. split_and!; [done|done|apply not_elem_of_nil].
Qed.

Lemma ratios_divide_by_shorter_sample_witness :
  ∃ empty_rows filled_rows a,
    length (column_values empty_rows "rate") = 2
    ∧ length (column_values filled_rows "rate") = 1
    ∧ analyze_column_filling_patterns empty_rows filled_rows "rate"
      = Analyzed a
    ∧ PrimFloat.ltb 1.0 (empty_ratio a) = true.
Proof.
  apply (proj2 (proj2 (proj2 ratios_divide_by_shorter_sample)) 2 1 "rate");
    lia.
Defined.

End trainer_theory.

(** ** The character-class replacements, read off the matcher *)

Section regex_facts.
Import Py Notions.

Lemma chars_text l : chars (text l) = l.
Proof. apply String.list_ascii_of_string_of_list_ascii. Qed.

Lemma text_chars s : text (chars s) = s.
Proof. apply String.string_of_list_ascii_of_string. Qed.

(** [re.sub(r'[..]', '', s)] deletes the characters of the class. *)
Lemma sub_go_class p fuel bos s :
  length s < fuel →
  sub_go fuel (Cls p) [] bos s = filter (λ c, ¬ p c) s.
Proof.
  revert fuel bos. induction s as [|c s IH]; intros fuel bos Hlen;
    (destruct fuel as [|fuel]; [simpl in Hlen; lia|]).
  { done. }
  simpl in Hlen. cbn [sub_go]. unfold match_at; cbn [run].
  destruct (p c) eqn:Hc.
  - rewrite bool_decide_eq_true_2 by (simpl; lia). simpl.
    rewrite IH by lia. rewrite filter_cons_False; [done|].
    cbn beta. rewrite Hc. intros Hn. by apply Hn.
  - rewrite IH by lia. rewrite filter_cons_True; [done|].
    cbn beta. rewrite Hc. intros Hn; exact Hn.
Qed.

Lemma length_drop_while p s : length (drop_while p s) ≤ length s.
Proof. induction s as [|c s IH]; simpl; [lia|]. destruct (p c); simpl; lia. Qed.

Lemma star_class p fuel b s :
  length s ≤ fuel →
  star_iter true (run (Cls p)) (λ _ rest, Some rest) fuel b s
  = Some (drop_while p s).
Proof.
  revert b s. induction fuel as [|fuel IH]; intros b [|c s] Hlen;
    simpl in *; try lia; try done.
  destruct (p c) eqn:Hc; [|done].
  rewrite bool_decide_eq_true_2 by lia. rewrite IH by lia. done.
Qed.

Lemma match_plus_class p bos s :
  match_at (Plus (Cls p)) bos s =
    match s with
    | [] => None
    | c :: s' => if p c then Some (drop_while p s') else None
    end.
Proof.
  unfold match_at, Plus. destruct s as [|c s]; simpl; [done|].
  destruct (p c); [|done]. by apply star_class.
Qed.

Lemma squeeze_go_in_run p r s :
  squeeze_go p r true s = squeeze_go p r false (drop_while p s).
Proof.
  induction s as [|c s IH]; simpl; [done|].
  destruct (p c) eqn:Hc; simpl; [done|]. by rewrite Hc.
Qed.

(** [re.sub(r'[..]+', r, s)] squeezes the runs of the class. *)
Lemma sub_go_plus_class p r fuel bos s :
  length s < fuel →
  sub_go fuel (Plus (Cls p)) [r] bos s = squeeze p r s.
Proof.
  unfold squeeze. revert bos s.
  induction fuel as [|fuel IH]; intros bos s Hlen; [lia|].
  simpl. rewrite match_plus_class. destruct s as [|c s]; [done|].
  simpl in *. destruct (p c) eqn:Hc.
  - pose proof (length_drop_while p s).
    rewrite bool_decide_eq_true_2 by lia. simpl.
    rewrite IH by lia. by rewrite squeeze_go_in_run.
  - by rewrite IH by lia.
Qed.

End regex_facts.

(** ** Normal forms of [clean_header_name] *)

Section clean_theory.
Import Py HeaderDetector Notions.

Section classes.
Context (p : ascii → bool).

Lemma Forall_drop_while (Q : ascii → Prop) l :
  Forall Q l → Forall Q (drop_while p l).
Proof.
  induction 1 as [|c l Hc Hl IH]; simpl; [constructor|].
  destruct (p c); [done|by constructor].
Qed.

Lemma Forall_drop_end (Q : ascii → Prop) l :
  Forall Q l → Forall Q (drop_end p l).
Proof.
  induction 1 as [|c l Hc Hl IH]; simpl; [constructor|].
  destruct (drop_end p l) as [|d kept].
  - destruct (p c); repeat constructor; done.
  - by constructor.
Qed.

Lemma Forall_squeeze_go (Q : ascii → Prop) r b l :
  Q r → Forall Q l → Forall Q (squeeze_go p r b l).
Proof.
  intros Hr Hl. revert b. induction Hl as [|c l Hc Hl IH]; intros b; simpl;
    [constructor|].
  destruct (p c), b; try constructor; auto.
Qed.

Lemma squeeze_go_out r b l :
  ¬ p r → Forall (λ c, ¬ p c) (squeeze_go p r b l).
Proof.
  intros Hr. revert b. induction l as [|c l IH]; intros b; simpl;
    [constructor|].
  destruct (p c) eqn:Hc, b; try constructor; auto.
  all: rewrite Hc; intros Hn; exact Hn.
Qed.

Lemma drop_while_id l : head_out p l → drop_while p l = l.
Proof.
  destruct l as [|c l]; simpl; [done|].
  intros Hc. destruct (p c); [|done]. by destruct Hc.
Qed.

Lemma head_out_drop_while l : head_out p (drop_while p l).
Proof.
  induction l as [|c l IH]; simpl; [done|].
  destruct (p c) eqn:Hc; [done|]. simpl. rewrite Hc. intros Hn; exact Hn.
Qed.

Lemma head_out_Forall l : Forall (λ c, ¬ p c) l → head_out p l.
Proof. by destruct 1. Qed.

Lemma drop_end_id l : Forall (λ c, ¬ p c) l → drop_end p l = l.
Proof.
  induction 1 as [|c l Hc Hl IH]; simpl; [done|].
  rewrite IH. destruct l; [|done]. by destruct (p c).
Qed.

Lemma drop_end_idemp l : drop_end p (drop_end p l) = drop_end p l.
Proof.
  induction l as [|c l IH]; simpl; [done|].
  destruct (drop_end p l) as [|d kept] eqn:Hkept.
  - destruct (p c) eqn:Hc; simpl; [done|]. by rewrite Hc.
  - simpl in *. by rewrite IH.
Qed.

Lemma head_out_drop_end l : head_out p l → head_out p (drop_end p l).
Proof.
  destruct l as [|c l]; simpl; [done|]. intros Hc.
  destruct (drop_end p l); [|done].
  destruct (p c) eqn:Heq; [done|]. simpl. by rewrite Heq.
Qed.

Lemma no_run_cons c l : no_run p (c :: l) → no_run p l.
Proof. destruct l; simpl; [done|]. by intros [_ ?]. Qed.

Lemma no_run_drop_while l : no_run p l → no_run p (drop_while p l).
Proof.
  induction l as [|c l IH]; [done|]. intros Hl. cbn [drop_while].
  destruct (p c); [|done]. apply IH. by eapply no_run_cons.
Qed.

Lemma drop_end_cons_head d l e kept :
  drop_end p (d :: l) = e :: kept → e = d.
Proof.
  cbn [drop_end]. destruct (drop_end p l); [destruct (p d)|]; congruence.
Qed.

Lemma no_run_drop_end l : no_run p l → no_run p (drop_end p l).
Proof.
  induction l as [|c l IH]; [done|]. intros Hl.
  pose proof (IH (no_run_cons _ _ Hl)) as IH'. cbn [drop_end].
  destruct (drop_end p l) as [|e kept] eqn:Hkept.
  - by destruct (p c).
  - destruct l as [|d l]; [done|].
    apply drop_end_cons_head in Hkept as ->.
    split; [exact (proj1 Hl)|exact IH'].
Qed.

(** Squeezing leaves no run behind, and after a run it starts outside the
    class. *)
Lemma no_run_squeeze_go r b l :
  no_run p (squeeze_go p r b l) ∧ (b = true → head_out p (squeeze_go p r b l)).
Proof.
  revert b. induction l as [|c l IH]; intros b; simpl; [done|].
  destruct (p c) eqn:Hc.
  - destruct (IH true) as [Hrun Hhead]. destruct b; [by auto|].
    split; [|done]. specialize (Hhead eq_refl).
    destruct (squeeze_go p r true l) as [|d rest]; simpl in *; [done|].
    split; [|done]. intros [_ Hd]. by apply Hhead.
  - destruct (IH false) as [Hrun _]. split.
    + destruct (squeeze_go p r false l); simpl; [done|].
      split; [|done]. rewrite Hc. by intros [? _].
    + intros _. simpl. rewrite Hc. intros Hn; exact Hn.
Qed.

Lemma squeeze_go_out_id r b l :
  Forall (λ c, ¬ p c) l → squeeze_go p r b l = l.
Proof.
  intros Hl. revert b. induction Hl as [|c l Hc Hl IH]; intros b; simpl;
    [done|].
  destruct (p c); [by destruct Hc|]. by rewrite IH.
Qed.

(** A list without runs is left alone when the class is the single
    character that replaces its runs. *)
Lemma squeeze_go_no_run_id r b l :
  (∀ c, p c → c = r) → no_run p l → (b = true → head_out p l) →
  squeeze_go p r b l = l.
Proof.
  intros Hp. revert b. induction l as [|c l IH]; intros b Hrun Hhead;
    simpl; [done|].
  destruct (p c) eqn:Hc.
  - destruct b. { specialize (Hhead eq_refl). simpl in Hhead.
                  rewrite Hc in Hhead. by destruct Hhead. }
    rewrite (Hp c) by (by rewrite Hc). f_equal.
    apply IH; [by eapply no_run_cons|]. intros _.
    destruct l as [|d l]; simpl in *; [done|].
    intros Hd. apply (proj1 Hrun). split; [by rewrite Hc|done].
  - f_equal. apply IH; [by eapply no_run_cons|]. intros [=].
Qed.

Lemma drop_while_fmap (f : ascii → ascii) l :
  (∀ c, p (f c) = p c) → drop_while p (f <$> l) = f <$> drop_while p l.
Proof.
  intros Hf. induction l as [|c l IH]; [done|].
  cbn [fmap list_fmap drop_while]. rewrite Hf. by destruct (p c).
Qed.

Lemma drop_end_fmap (f : ascii → ascii) l :
  (∀ c, p (f c) = p c) → drop_end p (f <$> l) = f <$> drop_end p l.
Proof.
  intros Hf. induction l as [|c l IH]; [done|].
  cbn [fmap list_fmap drop_end]. fold (f <$> l). rewrite IH, Hf.
  destruct (drop_end p l); [by destruct (p c)|done].
Qed.

Lemma no_run_fmap (f : ascii → ascii) l :
  (∀ c, p (f c) = p c) → no_run p l → no_run p (f <$> l).
Proof.
  intros Hf. induction l as [|c l IH]; [done|]. intros Hl.
  specialize (IH (no_run_cons _ _ Hl)).
  destruct l as [|d l]; [done|].
  split; [|exact IH]. rewrite !Hf. exact (proj1 Hl).
Qed.

End classes.

Lemma filter_all {A} (P : A → Prop) `{!∀ x, Decision (P x)} (l : list A) :
  Forall P l → filter P l = l.
Proof.
  induction 1 as [|x l Hx Hl IH]; [done|].
  rewrite filter_cons_True by done. by rewrite IH.
Qed.

(** Lower-casing maps no character into or out of the three classes. *)
Lemma lower_char_classes c :
  is_bracket (lower_char c) = is_bracket c
  ∧ is_space (lower_char c) = is_space c
  ∧ is_underscore (lower_char c) = is_underscore c
  ∧ lower_char (lower_char c) = lower_char c.
Proof. destruct c as [[] [] [] [] [] [] [] []]; by vm_compute. Qed.

Lemma chars_normalize s : chars (normalize s) = normalize_chars (chars s).
Proof.
  unfold normalize, normalize_chars, re_sub, strip, strip_char, lower,
    sub_chars.
  rewrite !chars_text.
  change (chars "") with (@nil ascii).
  change (chars "_") with ["_"%char].
  rewrite sub_go_class by lia.
  rewrite !sub_go_plus_class by lia.
  done.
Qed.

Lemma normalize_chars_canonical l : canonical (normalize_chars l).
Proof.
  unfold normalize_chars, squeeze, strip_with.
  set (z1 := filter (λ c, ¬ is_bracket c) l).
  set (z2 := drop_end is_space (drop_while is_space z1)).
  set (z3 := squeeze_go is_space "_" false z2).
  set (z4 := squeeze_go is_underscore "_" false z3).
  set (w := drop_while is_underscore z4).
  set (z5 := drop_end is_underscore w).
  assert (Forall (λ c, ¬ is_bracket c) z1) as H1.
  { apply Forall_forall. intros c Hc. by apply list_elem_of_filter in Hc as [? _]. }
  assert (Forall (λ c, ¬ is_bracket c) z2) as H2.
  { by apply Forall_drop_end, Forall_drop_while. }
  assert (Forall (λ c, ¬ is_bracket c) z3) as H3.
  { apply Forall_squeeze_go; [by vm_compute|done]. }
  assert (Forall (λ c, ¬ is_space c) z3) as H3'.
  { apply squeeze_go_out. by vm_compute. }
  assert (Forall (λ c, ¬ is_bracket c ∧ ¬ is_space c) z5) as H5.
  { apply Forall_drop_end, Forall_drop_while, Forall_squeeze_go.
    - split; by vm_compute.
    - by apply Forall_and. }
  assert (no_run is_underscore z5) as H5'.
  { apply no_run_drop_end, no_run_drop_while, no_run_squeeze_go. }
  split.
  - apply Forall_fmap. eapply Forall_impl; [exact H5|].
    intros c [Hb Hs]. simpl.
    destruct (lower_char_classes c) as (-> & -> & _ & ->). done.
  - apply no_run_fmap; [|done]. intros c. apply lower_char_classes.
  - rewrite drop_while_fmap by (intros c; apply lower_char_classes).
    f_equal. apply drop_while_id, head_out_drop_end, head_out_drop_while.
  - rewrite drop_end_fmap by (intros c; apply lower_char_classes).
    f_equal. apply drop_end_idemp.
Qed.

Lemma normalize_chars_id l : canonical l → normalize_chars l = l.
Proof.
  intros [Hchars Hruns Hhead Hlast].
  assert (Forall (λ c, ¬ is_bracket c) l) as Hb.
  { eapply Forall_impl; [exact Hchars|]. by intros c (? & _). }
  assert (Forall (λ c, ¬ is_space c) l) as Hs.
  { eapply Forall_impl; [exact Hchars|]. by intros c (_ & ? & _). }
  unfold normalize_chars, squeeze, strip_with.
  rewrite filter_all by done.
  rewrite (drop_while_id is_space) by by apply head_out_Forall.
  rewrite (drop_end_id is_space) by done.
  rewrite (squeeze_go_out_id is_space) by done.
  rewrite (squeeze_go_no_run_id is_underscore "_" false l); [|..|done].
  - rewrite Hhead, Hlast. clear -Hchars.
    induction Hchars as [|c l' (_ & _ & Hc) _ IH]; [done|].
    cbn [fmap list_fmap]. rewrite Hc. f_equal. exact IH.
  - intros c Hc. unfold is_underscore in Hc. by apply bool_decide_unpack in Hc.
  - exact Hruns.
Qed.

(** The second half of [clean_header_name] is idempotent. *)
Lemma normalize_idempotent s : normalize (normalize s) = normalize s.
Proof.
  rewrite <-(text_chars (normalize (normalize s))), chars_normalize.
  rewrite normalize_chars_id; [apply text_chars|].
  rewrite chars_normalize. apply normalize_chars_canonical.
Qed.

(** C5 (as amended). Cleaning a cleaned header gives the same string
    whenever the cleaned header holds nothing that the first half of the
    pipeline still removes (a template marker, a system prefix, a pipe and
    what follows it). *)
Theorem clean_header_name_idempotent_without_markers raw_header :
  strip_markers (clean_header_name raw_header) = clean_header_name raw_header →
  clean_header_name (clean_header_name raw_header)
  = clean_header_name raw_header.
Proof.
  intros Hfixed. unfold clean_header_name at 1. rewrite Hfixed.
  apply normalize_idempotent.
Qed.

Lemma clean_header_name_idempotent_without_markers_witness :
  strip_markers (clean_header_name "  Lane  ID (USD) ")
  = clean_header_name "  Lane  ID (USD) "
  ∧ clean_header_name (clean_header_name "  Lane  ID (USD) ")
    = clean_header_name "  Lane  ID (USD) ".
Proof.
  split; [by vm_compute|].
  apply (clean_header_name_idempotent_without_markers "  Lane  ID (USD) ").
  by vm_compute.
Defined.

(** The prefix test is case-sensitive and runs before the lower-casing:
    "Bid:Rate" keeps its prefix and becomes "bid:rate", which loses it when
    cleaned again. *)
Lemma clean_header_name_not_idempotent :
  clean_header_name (clean_header_name "Bid:Rate")
  ≠ clean_header_name "Bid:Rate".
Proof. by vm_compute. Qed.

Example clean_header_name_bid_rate :
  clean_header_name "Bid:Rate" = "bid:rate"
  ∧ clean_header_name "bid:rate" = "rate".
Proof. by vm_compute. Qed.

End clean_theory.

(** ** Headers without markers *)

Section marker_theory.
Import Py HeaderDetector Notions.

Section no_match.
Context (P : ascii → bool).

Local Abbreviation clear s := (Forall (λ c, ¬ P c) s).

(** A continuation that fails on the strings without the class is only
    ever reached at such strings. *)
Lemma run_cont_none r bos s (k : cont) :
  clear s → (∀ b s', clear s' → k b s' = None) → run r bos s k = None.
Proof.
  revert bos s k.
  induction r as [|p|r1 IH1 r2 IH2|r1 IH1 r2 IH2|r1 IH1|r1 IH1| |];
    intros bos s k Hs Hk; cbn [run].
  - by apply Hk.
  - destruct Hs as [|c s Hc Hs]; [done|]. destruct (p c); [by apply Hk|done].
  - apply IH1; [done|]. intros b s' Hs'. by apply IH2.
  - rewrite IH1 by done. by apply IH2.
  - generalize (length s) as fuel. intros fuel. revert bos s Hs.
    induction fuel as [|fuel IHf]; intros bos s Hs; cbn [star_iter];
      [by apply Hk|].
    rewrite IH1; [by apply Hk|done|].
    intros b' s' Hs'. case_bool_decide; [by apply IHf|done].
  - generalize (length s) as fuel. intros fuel. revert bos s Hs.
    induction fuel as [|fuel IHf]; intros bos s Hs; cbn [star_iter];
      [by apply Hk|].
    rewrite Hk by done. apply IH1; [done|].
    intros b' s' Hs'. case_bool_decide; [by apply IHf|done].
  - destruct bos; [by apply Hk|done].
  - destruct Hs as [|c s Hc Hs]; [by apply Hk|].
    destruct s; [|done]. case_bool_decide; [|done].
    apply Hk. by constructor.
Qed.

Lemma run_needs r bos s (k : cont) :
  needs P r → clear s → run r bos s k = None.
Proof.
  revert bos s k.
  induction r as [|p|r1 IH1 r2 IH2|r1 IH1 r2 IH2|r1 IH1|r1 IH1| |];
    intros bos s k Hr Hs; cbn [needs] in Hr; try done; cbn [run].
  - destruct Hs as [|c s Hc Hs]; [done|].
    destruct (p c) eqn:Hpc; [|done]. destruct Hc. apply Hr. by rewrite Hpc.
  - destruct Hr as [Hr|Hr]; [by apply IH1|].
    apply run_cont_none; [done|]. intros b s' Hs'. by apply IH2.
  - destruct Hr as [Hr1 Hr2]. rewrite IH1 by done. by apply IH2.
Qed.

(** Without a match there is nothing to replace. *)
Lemma sub_go_needs r repl fuel bos s :
  needs P r → clear s → sub_go fuel r repl bos s = s.
Proof.
  intros Hr Hs. revert fuel bos.
  induction Hs as [|c s Hc Hs IH]; intros [|fuel] bos; cbn [sub_go]; try done.
  - unfold match_at. by rewrite run_needs by (done || constructor).
  - unfold match_at. rewrite run_needs by (done || by constructor).
    by rewrite IH.
Qed.

Lemma re_sub_needs r repl t :
  needs P r → clear (chars t) → re_sub r repl t = t.
Proof.
  intros Hr Ht. unfold re_sub, sub_chars.
  rewrite sub_go_needs by done. apply text_chars.
Qed.

Lemma needs_Seq_head r rs : needs P r → needs P (Seq (r :: rs)).
Proof. by left. Qed.

Lemma needs_Seq_tail r rs : needs P (Seq rs) → needs P (Seq (r :: rs)).
Proof. by right. Qed.

Lemma needs_Chr c : P c → needs P (Chr c).
Proof. intros Hc x Hx. by apply bool_decide_unpack in Hx as ->. Qed.

Lemma needs_Lit c str : c ∈ chars str → P c → needs P (Lit str).
Proof.
  unfold Lit. induction (chars str) as [|d l IH]; intros Hin Hc;
    [by apply elem_of_nil in Hin|].
  apply elem_of_cons in Hin as [<-|Hin].
  - left. by apply needs_Chr.
  - right. by apply IH.
Qed.

End no_match.

(** Each step of the first half needs one of the marker characters. *)
Lemma template_patterns_need_marker :
  Forall (needs is_marker) template_patterns.
Proof.
  assert (∀ c str, is_marker c → bool_decide (c ∈ chars str) →
            needs is_marker (Lit str)) as Hlit.
  { intros c str Hc Hin. apply bool_decide_unpack in Hin.
    by apply (needs_Lit _ c). }
  unfold template_patterns.
  constructor; [apply needs_Seq_head; by apply (Hlit "<"%char)|].
  constructor; [apply needs_Seq_head; by apply (Hlit "{"%char)|].
  constructor; [apply needs_Seq_head; by apply (Hlit "{"%char)|].
  constructor; [by apply (Hlit "("%char)|].
  constructor; [by apply (Hlit "|"%char)|].
  constructor; [by apply (Hlit "."%char)|].
  constructor; [by apply (Hlit "."%char)|].
  constructor.
Qed.

Lemma system_prefix_needs_marker : needs is_marker system_prefix.
Proof.
  unfold system_prefix. do 2 apply needs_Seq_tail. apply needs_Seq_head.
  intros c Hc. apply bool_decide_unpack in Hc.
  apply elem_of_cons in Hc as [->|Hc]; [done|].
  by apply list_elem_of_singleton in Hc as ->.
Qed.

Lemma pipe_tail_needs_marker : needs is_marker pipe_tail.
Proof. unfold pipe_tail. by apply needs_Seq_head, needs_Chr. Qed.

(** A string without marker characters passes the first half unchanged. *)
Lemma strip_markers_id t :
  Forall (λ c, ¬ is_marker c) (chars t) → strip_markers t = t.
Proof.
  intros Ht. unfold strip_markers.
  assert (foldl (λ cleaned pattern, re_sub pattern "" cleaned) t
                template_patterns = t) as ->.
  { induction template_patterns_need_marker as [|r rs Hr Hrs IH]; [done|].
    cbn [foldl]. by rewrite (re_sub_needs is_marker). }
  rewrite (re_sub_needs is_marker system_prefix)
    by (done || apply system_prefix_needs_marker).
  by rewrite (re_sub_needs is_marker pipe_tail)
    by (done || apply pipe_tail_needs_marker).
Qed.

(** A marker character is a bracket or one of [<], [|], [.], [:]. *)
Lemma is_marker_cases c :
  is_marker c → is_bracket c ∨ c ∈ chars "<|.:".
Proof.
  unfold is_marker. intros Hc%bool_decide_unpack.
  repeat (apply elem_of_cons in Hc as [->|Hc]); try by apply elem_of_nil in Hc.
  all: first [by left | right; by vm_compute; set_unfold; tauto].
Qed.

(** X1. Cleaning is idempotent at every header whose cleaned form holds
    none of the characters [<], [|], [.] and [:]: cleaning it again
    returns it unchanged. *)
Corollary clean_header_name_idempotent_plain raw_header :
  Forall (λ c, c ∉ chars "<|.:") (chars (clean_header_name raw_header)) →
  clean_header_name (clean_header_name raw_header)
  = clean_header_name raw_header.
Proof.
  unfold clean_header_name. intros Hplain.
  rewrite strip_markers_id; [apply normalize_idempotent|].
  pose proof (normalize_chars_canonical (chars (strip_markers raw_header)))
    as [Hcanon _ _ _].
  rewrite <-chars_normalize in Hcanon.
  rewrite Forall_forall in Hcanon. rewrite Forall_forall in Hplain.
  apply Forall_forall. intros c Hc Hmark.
  apply is_marker_cases in Hmark as [Hb|Hin].
  - by destruct (Hcanon c Hc) as (Hnb & _).
  - by apply (Hplain c Hc).
Qed.

Lemma clean_header_name_idempotent_plain_witness :
  Forall (λ c, c ∉ chars "<|.:") (chars (clean_header_name "Rate (USD)"))
  ∧ clean_header_name (clean_header_name "Rate (USD)")
    = clean_header_name "Rate (USD)".
Proof.
  assert (Forall (λ c, c ∉ chars "<|.:")
                 (chars (clean_header_name "Rate (USD)"))) as Hplain.
  { apply (bool_decide_unpack _). by vm_compute. }
  split; [exact Hplain|].
  exact (clean_header_name_idempotent_plain "Rate (USD)" Hplain).
Defined.

End marker_theory.

(** ** The candidates of the four strategies *)

Section strategy_theory.
Import Py HeaderDetector Notions.

Lemma Qltb_lt (a b : Q) : Qltb a b = true ↔ (a < b)%Q.
Proof.
  unfold Qltb. rewrite negb_true_iff, <-not_true_iff_false, Qle_bool_iff.
  split; [apply Qnot_le_lt|apply Qlt_not_le].
Qed.

Lemma Qltb_ge (a b : Q) : Qltb a b = false ↔ (b <= a)%Q.
Proof. unfold Qltb. by rewrite negb_false_iff, Qle_bool_iff. Qed.

Section sorted_desc.
Context {A : Type} (key : A → Q).


Lemma insert_desc_Permutation x l : insert_desc key x l ≡ₚ x :: l.
Proof.
  induction l as [|y l IH]; simpl; [done|].
  destruct (Qltb (key x) (key y)); [|done].
  rewrite IH. apply Permutation_swap.
Qed.

Lemma sorted_desc_Permutation l : sorted_desc key l ≡ₚ l.
Proof.
  induction l as [|x l IH]; simpl; [done|].
  by rewrite insert_desc_Permutation, IH.
Qed.

Lemma insert_desc_sorted x l :
  StronglySorted (descending key) l → StronglySorted (descending key) (insert_desc key x l).
Proof.
  induction 1 as [|y l Hl IH Hy]; simpl.
  { repeat constructor. }
  destruct (Qltb (key x) (key y)) eqn:Hxy.
  - apply Qltb_lt in Hxy. constructor; [done|].
    rewrite insert_desc_Permutation. constructor; [|done].
    by apply Qlt_le_weak.
  - apply Qltb_ge in Hxy. constructor; [by constructor|].
    constructor; [done|].
    eapply Forall_impl; [exact Hy|]. intros z Hz. unfold descending in *.
    by eapply Qle_trans.
Qed.

Lemma sorted_desc_sorted l : StronglySorted (descending key) (sorted_desc key l).
Proof.
  induction l as [|x l IH]; simpl; [constructor|].
  by apply insert_desc_sorted.
Qed.

End sorted_desc.

(** A kept row is one of the first 50, has three values or more, and was
    rated from them. *)
Lemma elem_of_scan_rows sheet rate c :
  c ∈ scan_rows sheet rate →
  row_index c < 50
  ∧ ∃ row, data sheet !! row_index c = Some row
      ∧ 3 ≤ length (row_values (length (columns sheet)) row)
      ∧ rate (length (columns sheet))
             (row_values (length (columns sheet)) row)
        = Some (score c, diagnostics c).
Proof.
  unfold scan_rows. rewrite list_elem_of_omap.
  intros (row_idx & Hidx & Hc). apply elem_of_seq in Hidx.
  destruct (data sheet !! row_idx) as [row|] eqn:Hrow; simpl in Hc; [|done].
  case_bool_decide as Hlen; [done|].
  destruct (rate _ _) as [[sc an]|] eqn:Hrate; simpl in Hc; [|done].
  injection Hc as <-. simpl. split; [lia|].
  exists row. split_and!; [done|lia|done].
Qed.

(** [m] hits of a filter over the cells [a .. a+n-1] give [m] increasing
    positions; here for three. *)
Lemma filter_seq_hit (P : string → Prop) `{!∀ x, Decision (P x)}
    (f : nat → string) a n m :
  S m ≤ length (filter P (f <$> seq a n)) →
  ∃ i, a ≤ i ∧ i < a + n ∧ P (f i)
       ∧ m ≤ length (filter P (f <$> seq (S i) (a + n - S i))).
Proof.
  revert a. induction n as [|n IH]; intros a Hlen; [simpl in Hlen; lia|].
  cbn [seq] in Hlen. rewrite fmap_cons in Hlen.
  destruct (decide (P (f a))) as [Ha|Ha].
  - rewrite filter_cons_True in Hlen by done. cbn [length] in Hlen.
    exists a. split_and!; [lia|lia|done|].
    replace (a + S n - S a) with n by lia. lia.
  - rewrite filter_cons_False in Hlen by done.
    destruct (IH (S a) Hlen) as (i & ? & ? & ? & Hrest).
    exists i. split_and!; [lia|lia|done|].
    by replace (a + S n - S i) with (S a + n - S i) by lia.
Qed.

Lemma three_values column_count row :
  3 ≤ length (row_values column_count row) →
  ∃ i j k, i < j ∧ j < k ∧ k < column_count
    ∧ header_like (cell_text row i)
    ∧ header_like (cell_text row j)
    ∧ header_like (cell_text row k).
Proof.
  unfold row_values. intros H3.
  apply filter_seq_hit in H3 as (i & _ & Hi & Pi & H2).
  apply filter_seq_hit in H2 as (j & Hij & Hj & Pj & H1).
  apply filter_seq_hit in H1 as (k & Hjk & Hk & Pk & _).
  exists i, j, k. split_and!; try done; lia.
Qed.

(** The gate of each strategy, as a bound on the score. *)
Lemma strategy_gate h learned sheet c :
  c ∈ run_heuristic h learned sheet →
  ∃ rate, c ∈ scan_rows sheet rate
    ∧ ∀ n values sc an, 3 ≤ length values →
        rate n values = Some (sc, an) → (minimum_score h < sc)%Q.
Proof.
  destruct h; simpl;
    unfold strategy_1_pattern_based, strategy_2_structural_analysis,
      strategy_3_template_pattern, strategy_4_historical_learning;
    rewrite sorted_desc_Permutation; intros Hc;
    (eexists; split; [exact Hc|]); intros n values sc an Hlen;
    cbn beta zeta;
    match goal with
    | |- context [Qltb ?a ?b] => destruct (Qltb a b) eqn:Hgate; [|done]
    end;
    intros [= <- _].
  1-3: by apply Qltb_lt.
  apply Qltb_lt in Hgate.
  assert (0 < Q_of_nat (length values))%Q as Hpos.
  { unfold Q_of_nat. change 0%Q with (inject_Z 0).
    rewrite <-Zlt_Qlt. lia. }
  apply Qmult_lt_0_compat; [|done].
  apply Qlt_shift_div_l; [done|]. by rewrite Qmult_0_l.
Qed.

(** C8. Every candidate of each of the four strategies comes from one of
    the first 50 data rows, from a row with at least three cells whose
    stripped text is neither empty nor "nan" in any case, and has a score
    strictly above the strategy's minimum; the list is in descending order
    of score. *)
Theorem strategy_candidates_ranked h learned sheet :
  StronglySorted (λ c1 c2, (score c2 <= score c1)%Q)
                 (run_heuristic h learned sheet)
  ∧ ∀ c, c ∈ run_heuristic h learned sheet →
      row_index c < 50
      ∧ (∃ row, data sheet !! row_index c = Some row
           ∧ ∃ i j k, i < j ∧ j < k ∧ k < length (columns sheet)
               ∧ header_like (cell_text row i)
               ∧ header_like (cell_text row j)
               ∧ header_like (cell_text row k))
      ∧ (minimum_score h < score c)%Q.
Proof.
  split.
  - destruct h; apply (sorted_desc_sorted score).
  - intros c Hc.
    destruct (strategy_gate _ _ _ _ Hc) as (rate & Hscan & Hgate).
    destruct (elem_of_scan_rows _ _ _ Hscan) as (H50 & row & Hrow & H3 & Hrate).
    split_and!; [done| |by eapply Hgate].
    exists row. split; [done|]. by apply three_values.
Qed.

Lemma strategy_candidates_ranked_witness :
  ∃ c, c ∈ run_heuristic PatternBased (LearningPatterns [] []) lanes_sheet
    ∧ row_index c < 50
    ∧ (minimum_score PatternBased < score c)%Q.
Proof.
  assert (∃ c, c ∈ run_heuristic PatternBased (LearningPatterns [] [])
                     lanes_sheet) as [c Hc].
  { eexists. vm_compute. apply list_elem_of_here. }
  exists c. split; [exact Hc|].
  destruct (proj2 (strategy_candidates_ranked PatternBased
                     (LearningPatterns [] []) lanes_sheet) c Hc)
    as (H50 & _ & Hmin).
  split; [exact H50|exact Hmin].
Defined.

End strategy_theory.

(** ** The parser of the validator's answer *)

Section parse_theory.
Import Py HeaderDetector Notions.

(** C7 (as amended). The parser is total.  A brace-delimited fragment that
    [json.loads] rejects gives the outcome with an empty mapping and
    confidence 0.0; a text without such a fragment gives the fall-back
    outcome, with an empty mapping, confidence 0.5 and the text as
    reasoning; a fragment that decodes is returned as decoded. *)
Theorem parse_openai_response_outcomes json_loads response_text :
  match re_search_group json_fragment response_text with
  | Some fragment =>
      match json_loads fragment with
      | inl e =>
          parse_openai_response json_loads response_text
          = parsing_error_result e
          ∧ zero_confidence_outcome
              (parse_openai_response json_loads response_text)
      | inr result =>
          parse_openai_response json_loads response_text = result
      end
  | None =>
      parse_openai_response json_loads response_text
      = fallback_result response_text
      ∧ json_get "validated_mapping"
          (parse_openai_response json_loads response_text) = Some (JObj [])
      ∧ json_get "confidence"
          (parse_openai_response json_loads response_text) = Some (JNum 0.5)
  end.
Proof.
  unfold parse_openai_response.
  destruct (re_search_group json_fragment response_text) as [fragment|].
  - destruct (json_loads fragment) as [e|result]; [|done].
    split; [done|]. by split.
  - by split_and!.
Qed.

(** An answer in plain words has no fragment to decode, and comes back with
    confidence 0.5, not 0.0. *)
Lemma parse_openai_response_plain_text :
  ¬ (∀ json_loads response_text,
       unparsable json_loads response_text →
       zero_confidence_outcome (parse_openai_response json_loads response_text)).
Proof.
  intros Hall.
  destruct (Hall (λ _, inl "") "I cannot decide.") as [_ Hconf].
  - by vm_compute.
  - vm_compute in Hconf. discriminate Hconf.
Qed.

Example parse_openai_response_examples :
  parse_openai_response (λ _, inl "Expecting value") "see {above}"
  = parsing_error_result "Expecting value"
  ∧ parse_openai_response (λ _, inl "Expecting value") "no braces"
    = fallback_result "no braces"
  ∧ re_search_group json_fragment "a {b} c } d" = Some "{b} c }".
Proof. by vm_compute. Qed.

End parse_theory.

(** ** A header learned as fillable *)

Section cross_sheet_theory.
Import Py Store CrossSheet Notions Binary64.

Context (ratio : string → string → float)
        (format_2f : float → string)
        (verify_label : string → string * float * string)
        (detect_headers :
           HeaderDetector.sheet_data → string → list string * bool * float)
        (st : store).

(** [max] keeps the first element or returns one with a greater key. *)
Lemma max_by_above {A} (key : A → float) (best : A) (l : list A) :
  max_by key best l = best
  ∨ PrimFloat.ltb (key best) (key (max_by key best l)) = true.
Proof.
  revert best. induction l as [|y l IH]; intros best; simpl; [by left|].
  destruct (PrimFloat.ltb (key best) (key y)) eqn:Hlt; [|apply IH].
  right. destruct (IH y) as [->|Hy]; [done|]. by eapply ltb_trans.
Qed.

(** [max] returns an element of the list, and no element has a greater
    key. *)
Lemma max_by_spec {A} (key : A → float) (best : A) (l : list A) :
  max_by key best l ∈ best :: l
  ∧ ∀ x, x ∈ best :: l →
      PrimFloat.ltb (key (max_by key best l)) (key x) = false.
Proof.
  revert best. induction l as [|y l IH]; intros best; simpl.
  { split; [apply list_elem_of_here|].
    intros x ->%list_elem_of_singleton. apply ltb_irrefl. }
  destruct (PrimFloat.ltb (key best) (key y)) eqn:Hlt.
  - destruct (IH y) as [Hin Hmax]. split.
    + by apply list_elem_of_further.
    + intros x [->|Hx]%elem_of_cons; [|by apply Hmax].
      apply not_true_iff_false. intros Hx.
      pose proof (Hmax y (list_elem_of_here _ _)) as Hy.
      by rewrite (ltb_trans _ _ _ Hx Hlt) in Hy.
  - destruct (IH best) as [Hin Hmax]. split.
    + apply elem_of_cons in Hin as [->|Hin];
        [apply list_elem_of_here|by do 2 apply list_elem_of_further].
    + intros x [->|[->|Hx]%elem_of_cons]%elem_of_cons.
      * apply Hmax, list_elem_of_here.
      * destruct (max_by_above key best l) as [->|Habove]; [done|].
        apply not_true_iff_false. intros Hy.
        by rewrite (ltb_trans _ _ _ Habove Hy) in Hlt.
      * by apply Hmax, list_elem_of_further.
Qed.

(** A stored confidence of at most 1, discounted for a match in another
    sheet, stays below the 0.95 of a direct match. *)
Lemma discounted_below_direct (q : float) :
  PrimFloat.leb q 1 = true → PrimFloat.ltb (q * 0.85) 0.95 = true.
Proof.
  intros Hq. apply (leb_ltb_trans _ 0.85); [|by vm_compute].
  by apply (mul_le q 1); [vm_compute|].
Qed.

(** So does the confidence of a semantic match. *)
Lemma semantic_below_direct (sim q : float) :
  PrimFloat.ltb 0.7 sim = true → PrimFloat.leb sim 1 = true →
  PrimFloat.leb q 1 = true →
  PrimFloat.ltb (sim * q * 0.7) 0.95 = true.
Proof.
  intros Hlo Hhi Hq. apply (leb_ltb_trans _ 0.7); [|by vm_compute].
  apply (mul_le _ 1); [by vm_compute|].
  by apply (mul_le_1 0.7).
Qed.

(** Every candidate that is not below 0.95 is a direct one. *)
Lemma sheet_candidates_bound h name entry c :
  ratio_bounded ratio → confidences_bounded st →
  sheets st !! name = Some entry →
  c ∈ sheet_candidates ratio format_2f h name entry →
  PrimFloat.ltb (mc_confidence c) 0.95 = false →
  mc_confidence c = 0.95%float ∧ mc_is_learned_fillable c = true.
Proof.
  intros Hratio Hconf Hentry. unfold sheet_candidates.
  rewrite !elem_of_app. intros [Hc|[Hc|[Hc|Hc]]] Hge.
  - case_bool_decide; [|by apply elem_of_nil in Hc].
    by apply list_elem_of_singleton in Hc as ->.
  - destruct (verifications entry !! h) as [v|] eqn:Hv;
      [|by apply elem_of_nil in Hc].
    apply list_elem_of_singleton in Hc as ->. simpl in Hge.
    pose proof (Hconf _ _ _ _ Hentry Hv) as Hq.
    by rewrite (discounted_below_direct _ Hq) in Hge.
  - destruct (enhanced_patterns entry !! h);
      [|by apply elem_of_nil in Hc].
    apply list_elem_of_singleton in Hc as ->. simpl in Hge.
    by vm_compute in Hge.
  - apply list_elem_of_fmap in Hc as (m & -> & Hm). simpl in *.
    unfold _find_semantic_matches in Hm.
    apply list_elem_of_omap in Hm as ([vh v] & Hin & Hm).
    apply elem_of_map_to_list in Hin.
    destruct (PrimFloat.ltb 0.7 _) eqn:Hsim; [|done].
    injection Hm as <-. simpl in Hge.
    pose proof (Hconf _ _ _ _ Hentry Hin) as Hv.
    pose proof (Hratio (lower h) (lower vh)) as Hr.
    by rewrite (semantic_below_direct _ _ Hsim Hr Hv) in Hge.
Qed.

Lemma all_candidates_bound h c :
  ratio_bounded ratio → confidences_bounded st →
  c ∈ all_candidates ratio format_2f h (sheets st) →
  PrimFloat.ltb (mc_confidence c) 0.95 = false →
  mc_confidence c = 0.95%float ∧ mc_is_learned_fillable c = true.
Proof.
  intros Hratio Hconf. unfold all_candidates.
  intros ([name entry] & Hc & Hin)%list_elem_of_bind.
  apply elem_of_map_to_list in Hin.
  by eapply sheet_candidates_bound.
Qed.

(** A sheet that learned the header as fillable contributes a direct
    candidate. *)
Lemma direct_candidate h name entry :
  sheets st !! name = Some entry → h ∈ columns_to_fill entry →
  ∃ c, c ∈ all_candidates ratio format_2f h (sheets st)
       ∧ mc_confidence c = 0.95%float.
Proof.
  intros Hentry Hh. eexists. split.
  - unfold all_candidates. apply list_elem_of_bind.
    exists (name, entry). split; [|by apply elem_of_map_to_list].
    unfold sheet_candidates. rewrite bool_decide_eq_true_2.
    + rewrite !elem_of_app. left. apply list_elem_of_here.
    + unfold set_of. by apply elem_of_list_to_set.
  - done.
Qed.

Lemma best_match_of_learned_fillable h name entry :
  ratio_bounded ratio → confidences_bounded st →
  sheets st !! name = Some entry → h ∈ columns_to_fill entry →
  let best :=
    _find_best_cross_sheet_match ratio format_2f verify_label h (sheets st) in
  bm_confidence best = 0.95%float ∧ bm_is_learned_fillable best = true.
Proof.
  intros Hratio Hconf Hentry Hh.
  destruct (direct_candidate h name entry Hentry Hh) as (d & Hd & Hd95).
  unfold _find_best_cross_sheet_match.
  pose proof (all_candidates_bound h) as Hbound.
  destruct (all_candidates ratio format_2f h (sheets st)) as [|first rest].
  { by apply elem_of_nil in Hd. }
  destruct (max_by_spec mc_confidence first rest) as [Hin Hmax].
  simpl. apply Hbound; [done..|].
  rewrite <-Hd95. by apply Hmax.
Qed.

(** C2 (as amended). A column of the analysed sheet whose header is not
    empty and is in the [columns_to_fill] of some learned sheet is reported
    in ["columns"] with decision "fill" and a confidence of at least 0.7,
    whatever the threshold, when no confidence kept in the store and no
    similarity ratio is above 1. *)
Theorem learned_fillable_header_is_filled
    json_obj sheet_name file_path threshold sheet headers enhanced_used
    enhancement_confidence idx h name entry :
  ratio_bounded ratio → confidences_bounded st →
  get_sheet json_obj sheet_name = Some sheet →
  detect_headers sheet file_path
  = (headers, enhanced_used, enhancement_confidence) →
  idx ∈ list_value_columns headers → headers !! idx = Some h → h ≠ "" →
  sheets st !! name = Some entry → h ∈ columns_to_fill entry →
  ∃ c, c ∈ columns_of
             (_analyze_sheet_with_cross_patterns ratio format_2f
                verify_label detect_headers st json_obj sheet_name
                file_path threshold)
    ∧ position c = idx ∧ header c = h
    ∧ decision c = "fill" ∧ PrimFloat.leb 0.7 (confidence c) = true.
Proof.
  intros Hratio Hconf Hsheet Hdetect Hidx Hh Hne Hentry Hfill.
  unfold _analyze_sheet_with_cross_patterns. rewrite Hsheet, Hdetect.
  destruct (best_match_of_learned_fillable h name entry Hratio Hconf
              Hentry Hfill) as [H95 Hlearned].
  set (c := analyze_column ratio format_2f verify_label st enhanced_used
              enhancement_confidence threshold idx h).
  assert (decision c = "fill" ∧ PrimFloat.leb 0.7 (confidence c) = true)
    as [Hdec Hc].
  { unfold c, analyze_column. cbn [decision confidence].
    rewrite Hlearned, H95. split; [done|].
    destruct (enhanced_used && PrimFloat.ltb 0.8 enhancement_confidence);
      by vm_compute. }
  exists c. split_and!; try done.
  cbn [columns_of]. apply list_elem_of_filter. split; [done|].
  apply list_elem_of_omap. exists idx. split; [done|].
  rewrite Hh. cbn [default]. by rewrite bool_decide_eq_false_2.
Qed.

End cross_sheet_theory.

Section cross_sheet_example.
Import Py Store CrossSheet Notions.

Lemma plain_ratio_bounded : ratio_bounded plain_ratio.
Proof. intros a b. unfold plain_ratio. case_decide; by vm_compute. Qed.

Lemma rate_store_bounded : confidences_bounded rate_store.
Proof.
  intros name entry h v Hentry Hv. simpl in Hentry.
  apply lookup_singleton_Some in Hentry as [_ <-]. simpl in Hv.
  by rewrite lookup_empty in Hv.
Qed.

Lemma learned_fillable_header_is_filled_witness :
  ∃ c, c ∈ CrossSheet.columns_of
             (CrossSheet._analyze_sheet_with_cross_patterns plain_ratio
                plain_format plain_verify plain_detect rate_store
                quote_document "Rates" "quote.json" 2)
    ∧ CrossSheet.position c = 1 ∧ CrossSheet.header c = "rate"
    ∧ CrossSheet.decision c = "fill"
    ∧ PrimFloat.leb 0.7 (CrossSheet.confidence c) = true.
Proof.
  apply (learned_fillable_header_is_filled plain_ratio plain_format
           plain_verify plain_detect rate_store quote_document "Rates"
           "quote.json" 2 (HeaderDetector.SheetData
                             ["lane"; "rate"; "currency"] [∅; ∅])
           ["lane"; "rate"; "currency"] false 0 1 "rate" "Rates"
           (Store.SheetEntry ∅ ["rate"] ∅ ∅ ∅)).
  - exact plain_ratio_bounded.
  - exact rate_store_bounded.
  - reflexivity.
  - reflexivity.
  - by vm_compute; apply list_elem_of_here.
  - reflexivity.
  - done.
  - reflexivity.
  - apply list_elem_of_here.
Defined.

(** A stored confidence above 1 takes the place of the direct match.  The
    store lists "rate" among the [columns_to_fill] of the sheet "Rates" and
    keeps, for another sheet, a verdict for "rate" with the confidence 1.2.
    The verdict's candidate, at 1.2 x 0.85, is above the direct match's
    0.95 and is not learned-fillable, its confidence is cut to 1.0, and at
    the threshold 2 the column "rate" is not in ["columns"]: it is among
    the unknowns with decision "unknown". *)
Theorem learned_fillable_header_not_filled :
  let report :=
    CrossSheet._analyze_sheet_with_cross_patterns plain_ratio plain_format
      plain_verify plain_detect overrated_store quote_document "Rates"
      "quote.json" 2 in
  CrossSheet.get_sheet quote_document "Rates"
  = Some (HeaderDetector.SheetData ["lane"; "rate"; "currency"] [∅; ∅])
  ∧ 1 ∈ CrossSheet.list_value_columns ["lane"; "rate"; "currency"]
  ∧ (∃ entry, Store.sheets overrated_store !! "Rates" = Some entry
              ∧ "rate" ∈ Store.columns_to_fill entry)
  ∧ (∀ c, c ∈ CrossSheet.columns_of report → CrossSheet.header c ≠ "rate")
  ∧ ∃ c, c ∈ CrossSheet.unknowns_of report
       ∧ CrossSheet.position c = 1 ∧ CrossSheet.header c = "rate"
       ∧ CrossSheet.decision c = "unknown"
       ∧ CrossSheet.learned_fillable c = false
       ∧ CrossSheet.confidence c = 1%float.
Proof.
  intros report. split_and!.
  - reflexivity.
  - vm_compute. apply list_elem_of_here.
  - eexists. split; [by vm_compute|]. apply list_elem_of_here.
  - assert (CrossSheet.columns_of report = []) as -> by (by vm_compute).
    by intros c ?%elem_of_nil.
  - assert (∃ c rest, CrossSheet.unknowns_of report = c :: rest
              ∧ CrossSheet.position c = 1 ∧ CrossSheet.header c = "rate"
              ∧ CrossSheet.decision c = "unknown"
              ∧ CrossSheet.learned_fillable c = false
              ∧ CrossSheet.confidence c = 1%float)
      as (c & rest & -> & Hc).
    { vm_compute. do 2 eexists. split; [reflexivity|done]. }
    exists c. split; [apply list_elem_of_here|done].
Qed.

End cross_sheet_example.

(** ** The primary sheet and the fall-back *)

Section identify_theory.
Import Py Store CrossSheet Identifier Notions Binary64.

(** The best score is 0 or above, no sheet that competes has a score above
    it, and the best sheet, when there is one, has it. *)
Lemma find_best_sheet_spec all_results :
  PrimFloat.leb 0 (find_best_sheet all_results).2 = true
  ∧ (∀ name res, eligible all_results name res →
       PrimFloat.ltb (find_best_sheet all_results).2
         (sheet_score (columns_of res)) = false)
  ∧ match (find_best_sheet all_results).1 with
    | Some name =>
        PrimFloat.ltb 0 (find_best_sheet all_results).2 = true
        ∧ ∃ res, eligible all_results name res
            ∧ sheet_score (columns_of res) = (find_best_sheet all_results).2
    | None => (find_best_sheet all_results).2 = 0%float
    end.
Proof.
  unfold find_best_sheet.
  induction all_results as [|[name res] all IH] using rev_ind.
  { simpl. split_and!; [done| |done].
    intros ?? [Hin _]. by apply elem_of_nil in Hin. }
  rewrite foldl_app. cbn [foldl].
  destruct IH as (Hpos & Hmax & Hbest).
  set (acc := foldl best_sheet_step (None, 0%float) all) in *.
  assert (∀ n r, eligible (all ++ [(name, res)]) n r →
            eligible all n r ∨ (n = name ∧ r = res ∧ is_error res = false
                                 ∧ columns_of res ≠ [])) as Hsplit.
  { intros n r (Hin & He & Hc). apply elem_of_app in Hin as [Hin|Hin].
    - left. by split_and!.
    - apply list_elem_of_singleton in Hin as [= -> ->]. by right. }
  assert (∀ n r, eligible all n r → eligible (all ++ [(name, res)]) n r)
    as Hweak.
  { intros n r (Hin & He & Hc). split_and!; [|done..].
    apply elem_of_app. by left. }
  unfold best_sheet_step.
  destruct (is_error res) eqn:Herr.
  { split_and!; [done| |].
    - intros n r [He|(_ & -> & ? & _)]%Hsplit; [exact (Hmax _ _ He)|congruence].
    - destruct acc.1; [|done].
      destruct Hbest as (? & r & ? & ?). split; [done|]. exists r. auto. }
  case_bool_decide as Hcols.
  { split_and!; [done| |].
    - intros n r [He|(_ & -> & _ & ?)]%Hsplit; [exact (Hmax _ _ He)|done].
    - destruct acc.1; [|done].
      destruct Hbest as (? & r & ? & ?). split; [done|]. exists r. auto. }
  destruct (PrimFloat.ltb acc.2 (sheet_score (columns_of res))) eqn:Hlt.
  - cbn [fst snd]. split; [|split].
    + apply ltb_leb. by eapply leb_ltb_trans.
    + intros n r [He|(_ & -> & _)]%Hsplit; [|apply ltb_irrefl].
      apply not_true_iff_false. intros Hr.
      pose proof (Hmax _ _ He) as Hn.
      by rewrite (ltb_trans _ _ _ Hlt Hr) in Hn.
    + split; [by eapply leb_ltb_trans|]. exists res. split; [|done].
      split_and!; [|done..]. apply elem_of_app. right.
      apply list_elem_of_here.
  - split_and!; [done| |].
    + intros n r [He|(_ & -> & _)]%Hsplit; [exact (Hmax _ _ He)|done].
    + destruct acc.1; [|done].
      destruct Hbest as (? & r & ? & ?). split; [done|]. exists r. auto.
Qed.

Lemma assoc_NoDup {A} (key : string) (x : A) (l : list (string * A)) :
  NoDup l.*1 → (key, x) ∈ l → assoc key l = Some x.
Proof.
  induction l as [|[k y] l IH]; intros Hnd Hin; [by apply elem_of_nil in Hin|].
  apply NoDup_cons in Hnd as [Hk Hnd]. simpl.
  apply elem_of_cons in Hin as [[= -> ->]|Hin].
  - by rewrite decide_True.
  - rewrite decide_False; [by apply IH|]. intros ->. apply Hk.
    apply list_elem_of_fmap. by exists (key, x).
Qed.

Lemma omap_key_sublist {A} (f : string * A → option string)
    (l : list (string * A)) :
  (∀ kv k, f kv = Some k → k = kv.1) → omap f l `sublist_of` l.*1.
Proof.
  intros Hf. induction l as [|kv l IH]; [done|]. simpl.
  destruct (f kv) as [k|] eqn:Hk.
  - rewrite (Hf _ _ Hk). by apply sublist_skip.
  - by apply sublist_cons.
Qed.

Lemma fmap_fst_pair {A B} (g : A → B) (l : list A) :
  ((λ x, (x, g x)) <$> l).*1 = l.
Proof. induction l as [|x l IH]; [done|]. simpl. by f_equal. Qed.

Section with_collaborators.
Context {report : Type}
        (ratio : string → string → float)
        (format_2f : float → string)
        (verify_label : string → string * float * string)
        (detect_headers :
           HeaderDetector.sheet_data → string → list string * bool * float)
        (load_json : string → option document)
        (enhanced_identify_required_columns :
           string → store → option string → float → bool → report).

Lemma find_data_sheets_sublist (ej : document) :
  _find_data_sheets ej `sublist_of` ej.*1.
Proof.
  unfold _find_data_sheets. apply omap_key_sublist.
  intros [name [sheet_data|]] k; cbn [mbind option_bind fst]; [|done].
  destruct (existsb _ _); [done|]. case_bool_decide; congruence.
Qed.

Lemma analyze_sheets_keys st ej empty_file target_sheet threshold :
  NoDup ej.*1 →
  NoDup (analyze_sheets ratio format_2f verify_label detect_headers st
           ej empty_file target_sheet threshold).*1.
Proof.
  intros Hnd. unfold analyze_sheets. cbv zeta. rewrite fmap_fst_pair.
  assert (NoDup (_find_data_sheets ej)) as Havail.
  { exact (sublist_NoDup _ _ Hnd (find_data_sheets_sublist ej)). }
  destruct target_sheet as [t|]; [|done].
  case_bool_decide; [apply NoDup_singleton|done].
Qed.

(** C6 (as amended). The primary sheet is a sheet without error and with
    fillable columns whose aggregate score (number of fillable columns
    times their average confidence) is above 0 and the highest: no such
    sheet has a score above it; there is none when no score is above 0.
    The cross-sheet result is returned exactly when the primary results
    have a fillable column and the average confidence of their columns is
    at least 0.8 times the threshold; otherwise, and when the cross-sheet
    analysis fails, the result is that of the sheet-first identification
    with the same threshold.  The scores, the average and the product with
    0.8 are the binary64 numbers that the code computes and compares.  A
    loaded document is a dict: its sheet names are distinct. *)
Theorem identify_required_columns_choice empty_file st sheet_name threshold :
  (∀ ej, load_json empty_file = Some ej → NoDup ej.*1) →
  let fallback :=
    SheetFirst (enhanced_identify_required_columns
                  empty_file st sheet_name threshold true) in
  let identified :=
    identify_required_columns ratio format_2f verify_label detect_headers
      load_json enhanced_identify_required_columns
      empty_file st sheet_name threshold in
  let analysis :=
    cross_sheet_identify_required_columns ratio format_2f verify_label
      detect_headers load_json empty_file st sheet_name threshold true in
  (analysis = None → identified = fallback)
  ∧ ∀ cross, analysis = Some cross →
      let all_results := all_sheet_results cross in
      match primary_sheet cross with
      | Some name =>
          ∃ res, eligible all_results name res
            ∧ PrimFloat.ltb 0 (sheet_score (columns_of res)) = true
            ∧ (∀ name' res', eligible all_results name' res' →
                 PrimFloat.ltb (sheet_score (columns_of res))
                   (sheet_score (columns_of res')) = false)
            ∧ (name ≠ "" → primary_results cross = Some res)
      | None =>
          (∀ name' res', eligible all_results name' res' →
             PrimFloat.ltb 0 (sheet_score (columns_of res')) = false)
          ∧ primary_results cross = None
      end
      ∧ (good_primary (primary_results cross) threshold = true ↔
         ∃ res, primary_results cross = Some res ∧ columns_of res ≠ []
           ∧ PrimFloat.leb (threshold * 0.8)
               (avg_confidence (columns_of res)) = true)
      ∧ (good_primary (primary_results cross) threshold = true →
         identified = CrossSheetAnalysis cross)
      ∧ (good_primary (primary_results cross) threshold = false →
         identified = fallback).
Proof.
  intros Hkeys fallback identified analysis.
  subst fallback identified analysis.
  unfold identify_required_columns, cross_sheet_identify_required_columns,
    analyze_file.
  destruct (load_json empty_file) as [ej|] eqn:Hload; cbn [mbind option_bind];
    [|by split].
  split; [done|]. intros cross [= <-].
  set (all := analyze_sheets ratio format_2f verify_label detect_headers st
                ej empty_file sheet_name threshold).
  assert (NoDup all.*1) as Hnd by (by apply analyze_sheets_keys, Hkeys).
  unfold _consolidate_cross_sheet_results.
  destruct (find_best_sheet_spec all) as (Hpos & Hmax & Hbest).
  destruct (find_best_sheet all) as [best score] eqn:Hfind.
  cbn [fst snd] in *.
  cbn [primary_sheet primary_results all_sheet_results].
  split_and!.
  - destruct best as [name|].
    + destruct Hbest as (Hscore & res & Hel & Heq). exists res.
      split_and!; [done|by rewrite Heq| |].
      * intros name' res' Hel'. rewrite Heq. by eapply Hmax.
      * intros Hname. rewrite bool_decide_eq_false_2 by done.
        apply assoc_NoDup; [done|]. by destruct Hel.
    + split; [|done]. intros name' res' Hel'. rewrite <-Hbest.
      by eapply Hmax.
  - set (pr := match best with
               | Some name => _
               | None => None
               end).
    unfold good_primary. destruct pr as [[e|cols unk th ac cp]|].
    + split; [done|]. by intros (res & [= <-] & Hc & _).
    + rewrite andb_true_iff, bool_decide_eq_true. split.
      * intros [Hc Havg]. by eexists.
      * by intros (res & [= <-] & Hc & Havg).
    + split; [done|]. by intros (res & [=] & _).
  - by intros ->.
  - by intros ->.
Qed.

End with_collaborators.

End identify_theory.

(** ** Two runs of [identify_required_columns] *)

Section identify_examples.
Import Py Store CrossSheet Identifier Notions.

Lemma identify_required_columns_choice_witness :
  (∀ ej, plain_load "quote.json" = Some ej → NoDup ej.*1)
  ∧ ∃ cross,
      cross_sheet_identify_required_columns plain_ratio plain_format
        plain_verify plain_detect plain_load "quote.json" rate_store None
        0.7 true = Some cross
      ∧ good_primary (primary_results cross) 0.7 = true
      ∧ identify_required_columns plain_ratio plain_format plain_verify
          plain_detect plain_load plain_sheet_first "quote.json" rate_store
          None 0.7
        = CrossSheetAnalysis cross.
Proof.
  assert (∀ ej, plain_load "quote.json" = Some ej → NoDup ej.*1) as Hkeys.
  { intros ej [= <-]. apply NoDup_singleton. }
  split; [exact Hkeys|].
  assert (∃ cross,
            cross_sheet_identify_required_columns plain_ratio plain_format
              plain_verify plain_detect plain_load "quote.json" rate_store
              None 0.7 true = Some cross
            ∧ good_primary (primary_results cross) 0.7 = true)
    as (cross & Hcross & Hg).
  { eexists. split; [vm_compute; reflexivity|]. by vm_compute. }
  exists cross. split; [exact Hcross|]. split; [exact Hg|].
  exact (proj1 (proj2 (proj2 (proj2
           (identify_required_columns_choice plain_ratio plain_format
              plain_verify plain_detect plain_load plain_sheet_first
              "quote.json" rate_store None 0.7 Hkeys)
           cross Hcross))) Hg).
Defined.

(** With threshold 0 both columns of the only sheet are fillable with
    confidence 0: the sheet has the highest aggregate score there is, and
    the average confidence of its columns reaches 0.8 times the threshold,
    yet the score is not above 0, no primary sheet is chosen, and the
    sheet-first identification answers. *)
Lemma identify_required_columns_zero_score :
  ∃ cross res,
    cross_sheet_identify_required_columns plain_ratio plain_format
      plain_verify plain_detect plain_load "quote.json" zero_store None
      0 true = Some cross
    ∧ all_sheet_results cross = [("Rates", res)]
    ∧ is_error res = false
    ∧ length (columns_of res) = 2
    ∧ PrimFloat.leb (0 * 0.8) (avg_confidence (columns_of res)) = true
    ∧ identify_required_columns plain_ratio plain_format plain_verify
        plain_detect plain_load plain_sheet_first "quote.json" zero_store
        None 0
      = SheetFirst "sheet-first report".
Proof.
  do 2 eexists. split; [vm_compute; reflexivity|].
  split; [vm_compute; reflexivity|].
  split; [reflexivity|]. split; [reflexivity|].
  split; [by vm_compute|]. by vm_compute.
Qed.

(** The average and the product with 0.8 are rounded: at the threshold
    1.1875, whose product with 0.8 is the binary64 number just above 0.95,
    one column of confidence 0.95 does not pass the test of the primary
    results, and six of them, whose average is rounded to that number,
    do. *)
Lemma good_primary_rounding :
  let column :=
    ColumnResult 1 "rate" "rate" 0.95 "learned+cross-sheet" "fill" true
      ["direct_match"; "learned_fillable"; "cross_sheet_analysis"] false
      ["Rates"] None in
  good_primary (Some (SheetResults [column] [] 2 1 1)) 1.1875 = false
  ∧ good_primary (Some (SheetResults (replicate 6 column) [] 7 6 1)) 1.1875
    = true.
Proof. by vm_compute. Qed.

End identify_examples.

(** ** store.py: the laws of merging *)

Section store_laws.
Import Py Store Notions.

Lemma update_set_of (s : gset string) (l : list string) :
  update s l = s ∪ set_of l.
Proof. done. Qed.

Local Ltac sets :=
  unfold id; rewrite ?update_set_of, ?set_of_sorted; unfold set_of;
  apply (f_equal sorted), set_eq; intros ?;
  repeat (rewrite elem_of_union || rewrite elem_of_list_to_set
          || rewrite elem_of_nil || rewrite elem_of_empty);
  tauto.

Lemma lookup_merge_last {A} (inc base : gmap string A) :
  update_from (λ _ x, x) inc base = inc ∪ base.
Proof.
  apply map_eq. intros k. rewrite lookup_update_from, lookup_union.
  destruct (inc !! k), (base !! k); done.
Qed.

Lemma sheet_entry_eq (a b : sheet_entry) :
  header_map a = header_map b → columns_to_fill a = columns_to_fill b →
  column_positions a = column_positions b →
  verifications a = verifications b →
  enhanced_patterns a = enhanced_patterns b → a = b.
Proof. destruct a, b; simpl; congruence. Qed.

Lemma merge_sheet_twice_all (target payload : sheet_entry) :
  merge_sheet (merge_sheet target payload) payload = merge_sheet target payload.
Proof.
  pose proof (merge_sheet_twice target payload) as [= Hc Hm].
  apply sheet_entry_eq; try done.
  - cbn [merge_sheet column_positions]. rewrite !lookup_merge_last.
    by rewrite (assoc_L (∪)), (idemp_L (∪)).
  - cbn [merge_sheet verifications]. rewrite !lookup_merge_last.
    by rewrite (assoc_L (∪)), (idemp_L (∪)).
Qed.

Lemma store_eq (a b : store) :
  (∀ sheet, sheets a !! sheet = sheets b !! sheet) → a = b.
Proof. destruct a, b; simpl. intros H. f_equal. by apply map_eq. Qed.

(** A payload that went through [setdefault] and a merge of its own counts
    as the payload itself. *)
Lemma merge_sheet_fresh_payload (target payload : sheet_entry) :
  merge_sheet target (merge_sheet fresh_entry payload)
  = merge_sheet target payload.
Proof.
  apply sheet_entry_eq.
  - apply map_eq. intros norm. rewrite !lookup_merge_header_map.
    cbn [fresh_entry header_map]. rewrite lookup_empty.
    destruct (header_map payload !! norm) as [variants|]; [|done].
    cbn [default]. f_equal. sets.
  - cbn [merge_sheet columns_to_fill fresh_entry]. sets.
  - cbn [merge_sheet column_positions fresh_entry]. rewrite !lookup_merge_last.
    by rewrite !(right_id_L ∅ (∪)).
  - cbn [merge_sheet verifications fresh_entry]. rewrite !lookup_merge_last.
    by rewrite !(right_id_L ∅ (∪)).
  - done.
Qed.

Lemma merge_sheet_assoc (target a b : sheet_entry) :
  merge_sheet (merge_sheet target a) b = merge_sheet target (merge_sheet a b).
Proof.
  apply sheet_entry_eq.
  - apply map_eq. intros norm. rewrite !lookup_merge_header_map.
    destruct (header_map a !! norm) as [va|], (header_map b !! norm) as [vb|];
      cbn [default]; try done.
    + f_equal. sets.
    + f_equal. sets.
  - cbn [merge_sheet columns_to_fill].
    sets.
  - cbn [merge_sheet column_positions]. rewrite !lookup_merge_last.
    by rewrite (assoc_L (∪)).
  - cbn [merge_sheet verifications]. rewrite !lookup_merge_last.
    by rewrite (assoc_L (∪)).
  - done.
Qed.

(** X2. After a merge the [columns_to_fill] of a sheet named by the
    incoming patterns is in ascending order, has no duplicate, and holds
    exactly the headers that the store or the incoming patterns list for
    that sheet. *)
Theorem merge_patterns_columns_to_fill (S I : store) (sheet : string)
    (payload : sheet_entry) :
  sheets I !! sheet = Some payload →
  ∃ merged, sheets (merge_patterns S I) !! sheet = Some merged
    ∧ Sorted String.le (columns_to_fill merged)
    ∧ NoDup (columns_to_fill merged)
    ∧ ∀ h, h ∈ columns_to_fill merged ↔
        h ∈ columns_to_fill (default fresh_entry (sheets S !! sheet))
        ∨ h ∈ columns_to_fill payload.
Proof.
  intros HI. rewrite lookup_merge_patterns, HI. eexists. split; [done|].
  cbn [merge_sheet columns_to_fill]. split_and!.
  - apply sorted_is_Sorted.
  - apply sorted_NoDup.
  - intros h. rewrite elem_of_sorted. unfold update, set_of.
    by rewrite elem_of_union, !elem_of_list_to_set.
Qed.

Lemma merge_patterns_columns_to_fill_witness :
  ∃ merged,
    sheets (merge_patterns rate_store lane_patterns) !! "Rates" = Some merged
    ∧ Sorted String.le (columns_to_fill merged)
    ∧ NoDup (columns_to_fill merged)
    ∧ ∀ h, h ∈ columns_to_fill merged ↔
        h ∈ columns_to_fill
              (default fresh_entry (sheets rate_store !! "Rates"))
        ∨ h ∈ columns_to_fill lane_payload.
Proof.
  apply (merge_patterns_columns_to_fill rate_store lane_patterns "Rates"
           lane_payload).
  reflexivity.
Defined.

(** X3. For the verdicts and the column positions the incoming patterns
    win: after a merge a header has the incoming verdict (position) when
    there is one, and the stored one otherwise. *)
Theorem merge_patterns_incoming_wins (S I : store) (sheet : string)
    (payload : sheet_entry) :
  sheets I !! sheet = Some payload →
  ∃ merged, sheets (merge_patterns S I) !! sheet = Some merged
    ∧ verifications merged
      = verifications payload
        ∪ verifications (default fresh_entry (sheets S !! sheet))
    ∧ column_positions merged
      = column_positions payload
        ∪ column_positions (default fresh_entry (sheets S !! sheet)).
Proof.
  intros HI. rewrite lookup_merge_patterns, HI. eexists. split; [done|].
  cbn [merge_sheet verifications column_positions].
  by rewrite !lookup_merge_last.
Qed.

Lemma merge_patterns_incoming_wins_witness :
  ∃ merged,
    sheets (merge_patterns rate_store lane_patterns) !! "Rates" = Some merged
    ∧ verifications merged
      = verifications lane_payload
        ∪ verifications (default fresh_entry (sheets rate_store !! "Rates"))
    ∧ column_positions merged
      = column_positions lane_payload
        ∪ column_positions
            (default fresh_entry (sheets rate_store !! "Rates")).
Proof.
  apply (merge_patterns_incoming_wins rate_store lane_patterns "Rates"
           lane_payload).
  reflexivity.
Defined.

(** X4. Merging is associative: merging [A] and then [B] into a store
    gives the store obtained by merging [B] into [A] first and the outcome
    into the store. *)
Theorem merge_patterns_assoc (S A B : store) :
  merge_patterns (merge_patterns S A) B
  = merge_patterns S (merge_patterns A B).
Proof.
  apply store_eq. intros sheet. rewrite !lookup_merge_patterns.
  destruct (sheets A !! sheet) as [a|], (sheets B !! sheet) as [b|],
    (sheets S !! sheet) as [s|]; cbn [default]; try done; f_equal.
  - apply merge_sheet_assoc.
  - apply merge_sheet_assoc.
  - by rewrite merge_sheet_fresh_payload.
  - by rewrite merge_sheet_fresh_payload.
Qed.

End store_laws.

(** ** enhanced_trainer.py: what the analyzer reports *)

Section analyzer_theory.
Import Py EnhancedTrainer Notions.

Implicit Types (empty_rows filled_rows : list (gmap string Py.cell)).

(** The value of [score_signals] in each of its 24 cases. *)
Lemma score_signals_cases er fr d n s :
  let ratio_up := PrimFloat.leb er 0.1 && PrimFloat.leb 0.3 fr in
  let ratio_more := PrimFloat.ltb er fr && PrimFloat.leb 0.2 (fr - er) in
  let confidence := (score_signals er fr d n s).1 in
  let reasons := (score_signals er fr d n s).2 in
  PrimFloat.leb 0 confidence = true
  ∧ PrimFloat.leb confidence 1 = true
  ∧ (PrimFloat.leb 0.3 confidence = false ↔
     reasons = [] ∨ reasons = ["numeric_pattern"]
     ∨ reasons = ["structured_pattern"])
  ∧ ("empty_to_filled" ∈ reasons ↔ ratio_up = true)
  ∧ ("increased_filling" ∈ reasons ↔ ratio_up = false ∧ ratio_more = true)
  ∧ ("value_diversity_increase" ∈ reasons ↔ d = true)
  ∧ ("numeric_pattern" ∈ reasons ↔ n = true)
  ∧ ("structured_pattern" ∈ reasons ↔ s = true)
  ∧ (reasons `sublist_of` reasons_in_order "empty_to_filled"
     ∨ reasons `sublist_of` reasons_in_order "increased_filling").
Proof.
  unfold score_signals. cbv zeta.
  destruct (PrimFloat.leb er 0.1 && PrimFloat.leb 0.3 fr),
    (PrimFloat.ltb er fr && PrimFloat.leb 0.2 (fr - er)), d, n, s;
    (split_and!;
     try (apply (bool_decide_unpack _); vm_compute; exact I));
    unfold reasons_in_order; cbn [fst snd app];
    first [ left;
            by repeat first [apply sublist_skip | apply sublist_cons
                            | apply sublist_nil]
          | right;
            by repeat first [apply sublist_skip | apply sublist_cons
                            | apply sublist_nil] ].
Qed.

(** A full result is scored from its two ratios and three value signals;
    the last two need a filled value, and the diversity signal compares the
    numbers of distinct values. *)
Lemma analyzed_signals empty_rows filled_rows key a :
  analyze_column_filling_patterns empty_rows filled_rows key = Analyzed a →
  ∃ d n s,
    confidence a = (score_signals (empty_ratio a) (filled_ratio a) d n s).1
    ∧ reasons a = (score_signals (empty_ratio a) (filled_ratio a) d n s).2
    ∧ fillable a = PrimFloat.leb 0.3 (confidence a)
    ∧ filled_sample_values a
      = take 10 (filter non_empty (column_values filled_rows key))
    ∧ (filter non_empty (column_values filled_rows key) = [] →
       n = false ∧ s = false
       ∧ (d = true →
          PrimFloat.ltb
            (float_of_nat
               (size (set_of (filter non_empty
                                (column_values empty_rows key)))) * 1.5)
            (float_of_nat 0) = true)).
Proof.
  unfold analyze_column_filling_patterns.
  case_bool_decide as Hmin; [done|].
  match goal with
  | |- context [score_signals ?er ?fr ?d ?n ?s] =>
      destruct (score_signals er fr d n s) as [c rs] eqn:Hsig;
      intros [= <-]; exists d, n, s
  end.
  cbn [confidence reasons fillable empty_ratio filled_ratio
                         filled_sample_values].
  rewrite Hsig. split_and!; try done.
  intros ->. split_and!; try done.
  rewrite andb_true_iff. intros [_ Hd]. exact Hd.
Qed.

(** Three facts of binary64 arithmetic on the counts of a sample (at most
    200 rows), checked on every count: [0 / n] does not reach 0.3, no
    quotient of two counts is below [0 / n], and no count times 1.5 is
    below zero. *)
Lemma zero_quotient_small_ok :
  forallb (λ n, negb (PrimFloat.leb 0.3 (truediv 0 n))) (seq 1 200) = true.
Proof. vm_compute. reflexivity. Qed.

Lemma no_quotient_below_zero_ok :
  forallb (λ n, forallb (λ k, negb (PrimFloat.ltb (truediv k n)
                                                  (truediv 0 n)))
                        (seq 0 201))
          (seq 1 200) = true.
Proof. vm_compute. reflexivity. Qed.

Lemma no_scaled_count_below_zero_ok :
  forallb (λ m, negb (PrimFloat.ltb (float_of_nat m * 1.5) (float_of_nat 0)))
          (seq 0 201) = true.
Proof. vm_compute. reflexivity. Qed.

Lemma size_set_of_le (l : list string) : size (set_of l) ≤ length l.
Proof.
  unfold set_of. induction l as [|x l IH]; [done|].
  cbn [list_to_set foldr length].
  rewrite size_union_alt, size_singleton.
  assert (size (list_to_set l ∖ {[x]} : gset string)
          ≤ size (list_to_set l : gset string)).
  { apply subseteq_size. by apply subseteq_difference_l. }
  lia.
Qed.

(** X5. The confidence of a full result lies between 0.0 and 1.0, and the
    column is reported fillable exactly when the confidence reaches 0.3. *)
Theorem analysis_confidence_bounds empty_rows filled_rows key a :
  analyze_column_filling_patterns empty_rows filled_rows key = Analyzed a →
  PrimFloat.leb 0 (confidence a) = true
  ∧ PrimFloat.leb (confidence a) 1 = true
  ∧ fillable a = PrimFloat.leb 0.3 (confidence a).
Proof.
  intros (d & n & s & Hc & _ & Hf & _)%analyzed_signals.
  destruct (score_signals_cases (empty_ratio a) (filled_ratio a) d n s)
    as (H0 & H1 & _).
  split_and!; [by rewrite Hc..|done].
Qed.

Lemma analysis_confidence_bounds_witness :
  ∃ a, analyze_column_filling_patterns
         (rows_of "rate" [""; ""; "0"; ""])
         (rows_of "rate" ["100"; "250"; "0"; "300"]) "rate" = Analyzed a
    ∧ PrimFloat.leb 0 (confidence a) = true
    ∧ PrimFloat.leb (confidence a) 1 = true
    ∧ fillable a = PrimFloat.leb 0.3 (confidence a).
Proof.
  eexists. split; [vm_compute; reflexivity|].
  apply (analysis_confidence_bounds
           (rows_of "rate" [""; ""; "0"; ""])
           (rows_of "rate" ["100"; "250"; "0"; "300"]) "rate").
  vm_compute. reflexivity.
Defined.

(** X6. A full result is not fillable in three cases only: no signal
    fired, or the numeric signal alone, or the structured signal alone.
    Either ratio signal, the diversity signal, and the numeric and the
    structured signal together each make the column fillable. *)
Theorem not_fillable_reasons empty_rows filled_rows key a :
  analyze_column_filling_patterns empty_rows filled_rows key = Analyzed a →
  fillable a = false ↔
  reasons a = [] ∨ reasons a = ["numeric_pattern"]
  ∨ reasons a = ["structured_pattern"].
Proof.
  intros (d & n & s & Hc & Hr & Hf & _)%analyzed_signals.
  destruct (score_signals_cases (empty_ratio a) (filled_ratio a) d n s)
    as (_ & _ & Hlow & _).
  by rewrite Hf, Hc, Hr.
Qed.

Lemma not_fillable_reasons_witness :
  ∃ a, analyze_column_filling_patterns
         (rows_of "rate" ["7"; "7"; "7"])
         (rows_of "rate" ["7"; "7"; "7"]) "rate" = Analyzed a
    ∧ (fillable a = false ↔
       reasons a = [] ∨ reasons a = ["numeric_pattern"]
       ∨ reasons a = ["structured_pattern"]).
Proof.
  eexists. split; [vm_compute; reflexivity|].
  apply (not_fillable_reasons
           (rows_of "rate" ["7"; "7"; "7"])
           (rows_of "rate" ["7"; "7"; "7"]) "rate").
  vm_compute. reflexivity.
Defined.

Lemma column_values_take rows key :
  column_values (take 200 rows) key = column_values rows key.
Proof. unfold column_values. by rewrite take_take, Nat.min_id. Qed.

Lemma zero_quotient_small_spec n :
  1 ≤ n ≤ 200 → PrimFloat.leb 0.3 (truediv 0 n) = false.
Proof.
  intros Hn. pose proof zero_quotient_small_ok as Hall.
  rewrite forallb_forall in Hall.
  apply negb_true_iff, Hall, in_seq. lia.
Qed.

Lemma no_quotient_below_zero_spec k n :
  k ≤ 200 → 1 ≤ n ≤ 200 →
  PrimFloat.ltb (truediv k n) (truediv 0 n) = false.
Proof.
  intros Hk Hn. pose proof no_quotient_below_zero_ok as Hall.
  rewrite forallb_forall in Hall.
  assert (In n (seq 1 200)) as Hin by (apply in_seq; lia).
  apply Hall in Hin. rewrite forallb_forall in Hin.
  assert (In k (seq 0 201)) as Hik by (apply in_seq; lia).
  apply Hin in Hik. by apply negb_true_iff in Hik.
Qed.

Lemma no_scaled_count_below_zero_spec m :
  m ≤ 200 →
  PrimFloat.ltb (float_of_nat m * 1.5) (float_of_nat 0) = false.
Proof.
  intros Hm. pose proof no_scaled_count_below_zero_ok as Hall.
  rewrite forallb_forall in Hall.
  apply negb_true_iff, Hall, in_seq. lia.
Qed.

(** Without a filled value no signal fires. *)
Lemma score_signals_nothing_filled k n :
  k ≤ 200 → 1 ≤ n ≤ 200 →
  score_signals (truediv k n) (truediv 0 n) false false false
  = (0%float, []).
Proof.
  intros Hk Hn. unfold score_signals.
  rewrite zero_quotient_small_spec, no_quotient_below_zero_spec by done.
  rewrite andb_false_r. reflexivity.
Qed.

(** X7. A column in which the filled version has no value (every sampled
    cell is empty, "0" or missing) is never reported fillable, whatever the
    empty version holds: no signal fires and the confidence is 0.0. *)
Theorem nothing_filled_not_fillable empty_rows filled_rows key :
  Forall (λ v, ¬ non_empty v) (column_values filled_rows key) →
  match analyze_column_filling_patterns empty_rows filled_rows key with
  | NoData fillable confidence _ => fillable = false ∧ confidence = 0%float
  | Analyzed a =>
      fillable a = false ∧ confidence a = 0%float ∧ reasons a = []
      ∧ filled_sample_values a = []
  end.
Proof.
  intros Hnone.
  assert (filter non_empty (column_values filled_rows key) = []) as Hnil.
  { induction Hnone as [|v vs Hv _ IH]; [done|].
    by rewrite filter_cons_False. }
  destruct (analyze_column_filling_patterns empty_rows filled_rows key)
    as [fl c r|a] eqn:Ha.
  { revert Ha. unfold analyze_column_filling_patterns.
    case_bool_decide; [by intros [= <- <- _]|].
    by destruct (score_signals _ _ _ _ _). }
  destruct (analyzed_fields _ _ _ _ Ha)
    as (Hec & Hfc & Htot & Hpos & Her & Hfr).
  destruct (analyzed_signals _ _ _ _ Ha)
    as (d & n & s & Hc & Hr & Hf & Hsample & Hsig).
  destruct (Hsig Hnil) as (-> & -> & Hd).
  pose proof (length_column_values empty_rows key) as Hle.
  pose proof (length_column_values filled_rows key) as Hlf.
  pose proof (length_filter non_empty (column_values empty_rows key)) as Hfe.
  assert (d = false) as ->.
  { destruct d; [|done]. specialize (Hd eq_refl).
    pose proof (size_set_of_le
                  (filter non_empty (column_values empty_rows key))) as Hsz.
    assert (size (set_of (filter non_empty (column_values empty_rows key)))
            ≤ 200) as Hm by lia.
    by rewrite no_scaled_count_below_zero_spec in Hd. }
  rewrite Hnil in Hfc, Hsample. cbn [length] in Hfc.
  rewrite Hfr, Her, Hfc in Hc, Hr.
  rewrite score_signals_nothing_filled in Hc, Hr by lia.
  cbn [fst snd] in Hc, Hr.
  split_and!; [|done..]. by rewrite Hf, Hc.
Qed.

Lemma nothing_filled_not_fillable_witness :
  Forall (λ v, ¬ non_empty v)
         (column_values (rows_of "rate" ["0"; " "; ""]) "rate")
  ∧ ∃ a, analyze_column_filling_patterns
           (rows_of "rate" ["4"; "5"; "6"])
           (rows_of "rate" ["0"; " "; ""]) "rate" = Analyzed a
      ∧ fillable a = false ∧ confidence a = 0%float.
Proof.
  assert (Forall (λ v, ¬ non_empty v)
            (column_values (rows_of "rate" ["0"; " "; ""]) "rate")) as Hnone.
  { vm_compute. repeat constructor; intros [? Hin]; apply Hin;
      repeat constructor. }
  split; [exact Hnone|].
  pose proof (nothing_filled_not_fillable
                (rows_of "rate" ["4"; "5"; "6"])
                (rows_of "rate" ["0"; " "; ""]) "rate" Hnone) as Hthm.
  destruct (analyze_column_filling_patterns
              (rows_of "rate" ["4"; "5"; "6"])
              (rows_of "rate" ["0"; " "; ""]) "rate") as [|a] eqn:Ha.
  - vm_compute in Ha. discriminate Ha.
  - exists a. by destruct Hthm as (? & ? & _).
Defined.

(** X8. The counters of a full result stay within the sample: at least
    one and at most 200 rows are compared, neither count exceeds 200, and
    the sample of filled values holds at most ten values, each of them a
    non-empty stripped value of the column. *)
Theorem analysis_counters empty_rows filled_rows key a :
  analyze_column_filling_patterns empty_rows filled_rows key = Analyzed a →
  1 ≤ total_rows a ≤ 200
  ∧ total_rows a ≤ length empty_rows ∧ total_rows a ≤ length filled_rows
  ∧ empty_count a ≤ 200 ∧ filled_count a ≤ 200
  ∧ length (filled_sample_values a) ≤ 10
  ∧ (∀ v, v ∈ filled_sample_values a →
       non_empty v ∧ v ∈ column_values filled_rows key)
  ∧ (filled_sample_values a = [] ↔ filled_count a = 0).
Proof.
  intros Ha.
  destruct (analyzed_fields _ _ _ _ Ha)
    as (Hec & Hfc & Htot & Hpos & _ & _).
  destruct (analyzed_signals _ _ _ _ Ha)
    as (_ & _ & _ & _ & _ & _ & Hsample & _).
  pose proof (length_column_values empty_rows key) as Hle.
  pose proof (length_column_values filled_rows key) as Hlf.
  pose proof (length_filter non_empty (column_values empty_rows key)) as Hfe.
  pose proof (length_filter non_empty (column_values filled_rows key)) as Hff.
  split_and!; try lia.
  - rewrite Hsample, length_take. lia.
  - intros v. rewrite Hsample. intros (i & Hv & _)%elem_of_take.
    apply list_elem_of_lookup_2 in Hv. by apply list_elem_of_filter in Hv.
  - rewrite Hsample, Hfc.
    destruct (filter non_empty (column_values filled_rows key)); done.
Qed.

Lemma analysis_counters_witness :
  ∃ a, analyze_column_filling_patterns
         (rows_of "rate" [""; ""; "0"; ""])
         (rows_of "rate" ["100"; "250"; "0"; "300"]) "rate" = Analyzed a
    ∧ 1 ≤ total_rows a ≤ 200
    ∧ length (filled_sample_values a) ≤ 10.
Proof.
  eexists. split; [vm_compute; reflexivity|].
  destruct (analysis_counters
              (rows_of "rate" [""; ""; "0"; ""])
              (rows_of "rate" ["100"; "250"; "0"; "300"]) "rate" _ eq_refl)
    as (Htot & _ & _ & _ & _ & Hlen & _).
  split; [exact Htot|exact Hlen].
Defined.

End analyzer_theory.

(** ** The scores and the rows of the four strategies *)

Section strategy_bounds.
Import Py HeaderDetector Notions.

Lemma Q_of_nat_le a b : a ≤ b → (Q_of_nat a <= Q_of_nat b)%Q.
Proof. intros Hab. unfold Q_of_nat. rewrite <-Zle_Qle. lia. Qed.

Lemma Q_of_nat_pos a : 0 < a → (0 < Q_of_nat a)%Q.
Proof.
  intros Ha. unfold Q_of_nat. change 0%Q with (inject_Z 0).
  rewrite <-Zlt_Qlt. lia.
Qed.

Lemma qdiv_unit a b : a ≤ b → 0 < b → (0 <= qdiv a b <= 1)%Q.
Proof.
  intros Hab Hb. unfold qdiv. pose proof (Q_of_nat_pos b Hb) as Hpos.
  split.
  - apply Qle_shift_div_l; [done|]. rewrite Qmult_0_l.
    change 0%Q with (Q_of_nat 0). apply Q_of_nat_le. lia.
  - apply Qle_shift_div_r; [done|]. rewrite Qmult_1_l.
    by apply Q_of_nat_le.
Qed.

Lemma length_row_values column_count row :
  length (row_values column_count row) ≤ column_count.
Proof.
  unfold row_values.
  etrans; [apply length_filter|]. by rewrite length_fmap, length_seq.
Qed.

Lemma Q_of_nat_S n : (Q_of_nat (S n) == Q_of_nat n + 1)%Q.
Proof.
  unfold Q_of_nat. rewrite Nat2Z.inj_succ, <-Z.add_1_r, inject_Z_plus.
  reflexivity.
Qed.

Lemma indicator_score_le_1 learned value :
  (indicator_score learned value <= 1)%Q.
Proof.
  unfold indicator_score. cbv zeta.
  match goal with
  | |- context [Q_of_nat ?k] =>
      assert (0 <= Q_of_nat k)%Q as Hk
        by (change 0%Q with (Q_of_nat 0); apply Q_of_nat_le; lia)
  end.
  destruct (existsb _ _); lra.
Qed.

Lemma pattern_matches_le learned values acc :
  (foldl (λ acc value, acc + indicator_score learned value) acc values
   <= acc + Q_of_nat (length values))%Q.
Proof.
  revert acc. induction values as [|v values IH]; intros acc; cbn [foldl length].
  { change (Q_of_nat 0) with 0%Q. lra. }
  pose proof (IH (acc + indicator_score learned v)%Q) as Hrest.
  pose proof (Q_of_nat_S (length values)) as HS.
  pose proof (indicator_score_le_1 learned v). lra.
Qed.

(** A kept row was rated from its values, and no rating exceeds the
    maximum of the strategy. *)
Lemma strategy_rated h learned sheet c :
  c ∈ run_heuristic h learned sheet →
  ∃ rate, c ∈ scan_rows sheet rate
    ∧ ∀ n values sc an, 3 ≤ length values → length values ≤ n →
        rate n values = Some (sc, an) → (sc <= maximum_score h)%Q.
Proof.
  destruct h; simpl;
    unfold strategy_1_pattern_based, strategy_2_structural_analysis,
      strategy_3_template_pattern, strategy_4_historical_learning;
    rewrite sorted_desc_Permutation; intros Hc;
    (eexists; split; [exact Hc|]); intros n values sc an Hlen Hn;
    cbn beta zeta;
    match goal with
    | |- context [Qltb ?a ?b] => destruct (Qltb a b) eqn:Hgate; [|done]
    end;
    intros [= <- _].
  - pose proof (length_filter (λ v, has_business_keyword v) values) as Hk.
    destruct (qdiv_unit _ (length values) Hk) as [_ H1]; [lia|]. lra.
  - pose proof (length_filter (λ v, contains "_" v) values) as Hu.
    destruct (qdiv_unit _ (length values) Hu) as [_ H1]; [lia|].
    destruct (qdiv_unit _ (length values) (size_set_of_le values))
      as [_ H2]; [lia|].
    destruct (qdiv_unit _ n Hn) as [_ H3]; [lia|].
    destruct (_ && _); lra.
  - match goal with
    | |- context [filter ?P values] =>
        pose proof (length_filter P values) as Hk
    end.
    destruct (qdiv_unit _ (length values) Hk) as [_ H1]; [lia|]. lra.
  - pose proof (pattern_matches_le learned values 0) as Hpm.
    pose proof (Q_of_nat_pos (length values)) as Hpos.
    set (pm := foldl _ _ _) in *. set (len := Q_of_nat (length values)) in *.
    assert (pm / len <= 1)%Q.
    { apply Qle_shift_div_r; [apply Hpos; lia|]. lra. }
    lra.
Qed.

Lemma scan_rows_rows sheet rate :
  row_index <$> scan_rows sheet rate
  `sublist_of` seq 0 (50 `min` length (data sheet)).
Proof.
  unfold scan_rows. cbv zeta.
  induction (seq 0 (50 `min` length (data sheet))) as [|i l IH]; [done|].
  cbn [omap list_omap].
  destruct (data sheet !! i) as [row|]; cbn [mbind option_bind];
    [|by apply sublist_cons].
  case_bool_decide; [by apply sublist_cons|].
  destruct (rate _ _) as [[sc an]|]; cbn [mbind option_bind];
    [|by apply sublist_cons].
  cbn [fmap list_fmap row_index]. by apply sublist_skip.
Qed.

Lemma run_heuristic_scan h learned sheet :
  ∃ rate, run_heuristic h learned sheet ≡ₚ scan_rows sheet rate.
Proof.
  destruct h; simpl;
    unfold strategy_1_pattern_based, strategy_2_structural_analysis,
      strategy_3_template_pattern, strategy_4_historical_learning;
    eexists; apply sorted_desc_Permutation.
Qed.

(** X9. No strategy scores a row above its maximum: 40 for the keyword
    strategy, 90 for the structural one, 50 for the template one and 30 for
    the one that learns from earlier decisions. *)
Theorem strategy_scores_bounded h learned sheet c :
  c ∈ run_heuristic h learned sheet → (score c <= maximum_score h)%Q.
Proof.
  intros Hc.
  destruct (strategy_rated _ _ _ _ Hc) as (rate & Hscan & Hmax).
  destruct (elem_of_scan_rows _ _ _ Hscan) as (_ & row & _ & H3 & Hrate).
  eapply Hmax; [exact H3|apply length_row_values|exact Hrate].
Qed.

Lemma strategy_scores_bounded_witness :
  ∃ c, c ∈ run_heuristic Structural (LearningPatterns [] []) lanes_sheet
    ∧ (score c <= maximum_score Structural)%Q.
Proof.
  assert (∃ c, c ∈ run_heuristic Structural (LearningPatterns [] [])
                     lanes_sheet) as [c Hc].
  { eexists. vm_compute. apply list_elem_of_here. }
  exists c. split; [exact Hc|].
  exact (strategy_scores_bounded Structural (LearningPatterns [] [])
           lanes_sheet c Hc).
Defined.

Lemma narrow_sheet_empty h learned sheet :
  length (columns sheet) < 3 ∨ data sheet = [] →
  run_heuristic h learned sheet = [].
Proof.
  intros Hnarrow.
  destruct (run_heuristic h learned sheet) as [|c l] eqn:Hrun; [done|].
  assert (c ∈ run_heuristic h learned sheet) as Hc.
  { rewrite Hrun. apply list_elem_of_here. }
  destruct (strategy_rated _ _ _ _ Hc) as (rate & Hscan & _).
  destruct (elem_of_scan_rows _ _ _ Hscan) as (_ & row & Hrow & H3 & _).
  pose proof (length_row_values (length (columns sheet)) row).
  destruct Hnarrow as [Hcols|Hdata]; [lia|]. by rewrite Hdata in Hrow.
Qed.

(** X10. A strategy reports a row at most once, and reports at most 50
    rows, all of them rows of the sheet; for a sheet with fewer than three
    columns, or without a data row, it reports none. *)
Theorem strategy_rows_distinct h learned sheet :
  NoDup (row_index <$> run_heuristic h learned sheet)
  ∧ length (run_heuristic h learned sheet) ≤ 50
  ∧ (∀ c, c ∈ run_heuristic h learned sheet →
       row_index c < length (data sheet))
  ∧ (length (columns sheet) < 3 ∨ data sheet = [] →
     run_heuristic h learned sheet = []).
Proof.
  destruct (run_heuristic_scan h learned sheet) as [rate Hperm].
  pose proof (scan_rows_rows sheet rate) as Hsub.
  split_and!; [| | |apply narrow_sheet_empty].
  - rewrite Hperm. eapply sublist_NoDup; [apply NoDup_seq|exact Hsub].
  - rewrite Hperm, <-(length_fmap row_index).
    apply sublist_length in Hsub. rewrite length_seq in Hsub. lia.
  - intros c Hc. rewrite Hperm in Hc.
    assert (row_index c ∈ seq 0 (50 `min` length (data sheet))) as Hin.
    { eapply elem_of_sublist; [|exact Hsub].
      apply list_elem_of_fmap. by exists c. }
    apply elem_of_seq in Hin. lia.
Qed.

End strategy_bounds.

(** ** Cleaned headers and the candidates of the detection *)

Section detection_theory.
Import Py HeaderDetector Detection Notions.

Lemma lower_char_fixed c : lower_char c = c → is_upper c = false.
Proof.
  destruct c as [[] [] [] [] [] [] [] []]; vm_compute; try done; intros [=].
Qed.

Lemma drop_while_head p l c :
  drop_while p l = l → head l = Some c → p c = false.
Proof.
  destruct l as [|d l]; [done|]. cbn [drop_while head]. intros Heq [= ->].
  destruct (p c) eqn:Hc; [|done].
  pose proof (length_drop_while p l) as Hlen.
  rewrite Heq in Hlen. simpl in Hlen. lia.
Qed.

Lemma drop_end_last p l c :
  drop_end p l = l → last l = Some c → p c = false.
Proof.
  induction l as [|d l IH]; [done|]. cbn [drop_end].
  destruct (drop_end p l) as [|e kept] eqn:Hkept.
  - destruct (p d) eqn:Hd; [done|]. intros [= <-]. by intros [= <-].
  - intros [= Hl]. rewrite <-Hl. rewrite <-Hl in IH.
    cbn [last]. intros Hlast. by apply IH.
Qed.

(** X11. A cleaned header holds no bracket, no white space and no
    upper-case letter, has no two underscores in a row, and neither starts
    nor ends with an underscore. *)
Theorem clean_header_name_shape raw_header :
  let cleaned := chars (clean_header_name raw_header) in
  Forall (λ c, is_bracket c = false ∧ is_space c = false
               ∧ is_upper c = false) cleaned
  ∧ no_run is_underscore cleaned
  ∧ head cleaned ≠ Some "_"%char
  ∧ last cleaned ≠ Some "_"%char.
Proof.
  cbv zeta. unfold clean_header_name. rewrite chars_normalize.
  destruct (normalize_chars_canonical (chars (strip_markers raw_header)))
    as [Hchars Hruns Hhead Hlast].
  split_and!.
  - eapply Forall_impl; [exact Hchars|]. intros c (Hb & Hs & Hl).
    split_and!.
    + destruct (is_bracket c); [destruct Hb; exact I|reflexivity].
    + destruct (is_space c); [destruct Hs; exact I|reflexivity].
    + exact (lower_char_fixed c Hl).
  - exact Hruns.
  - intros Hh. pose proof (drop_while_head _ _ _ Hhead Hh) as Hp.
    clear -Hp. discriminate Hp.
  - intros Hl. pose proof (drop_end_last _ _ _ Hlast Hl) as Hp.
    clear -Hp. discriminate Hp.
Qed.

(** X12. [extract_clean_headers] gives no header for a row outside the
    data; otherwise its keys are distinct names [col_i] of columns of the
    sheet, and each value is the cleaned text of that cell, which is
    neither empty nor "nan" before the cleaning and not empty after it. *)
Theorem extract_clean_headers_entries sheet row_idx :
  NoDup (extract_clean_headers sheet row_idx).*1
  ∧ length (extract_clean_headers sheet row_idx) ≤ length (columns sheet)
  ∧ (length (data sheet) ≤ row_idx → extract_clean_headers sheet row_idx = [])
  ∧ ∀ key cleaned,
      (key, cleaned) ∈ extract_clean_headers sheet row_idx →
      cleaned ≠ ""
      ∧ ∃ i header_row,
          i < length (columns sheet)
          ∧ data sheet !! row_idx = Some header_row
          ∧ key = "col_" +:+ pretty i
          ∧ header_like (cell_text header_row i)
          ∧ cleaned = clean_header_name (cell_text header_row i).
Proof.
  unfold extract_clean_headers.
  destruct (data sheet !! row_idx) as [header_row|] eqn:Hrow.
  2: { split_and!; [apply NoDup_nil_2|simpl; lia|done|].
       intros ?? Hin. by apply elem_of_nil in Hin. }
  cbv zeta.
  set (f := λ i : nat, _).
  assert (∀ l, (omap f l).*1 `sublist_of` ((λ i, "col_" +:+ pretty i) <$> l))
    as Hsub.
  { induction l as [|i l IH]; [done|]. cbn [omap list_omap fmap list_fmap].
    unfold f at 1. cbv zeta.
    destruct (decide (header_like _)); [|by apply sublist_cons].
    case_bool_decide; [|by apply sublist_cons].
    cbn [fmap list_fmap fst]. by apply sublist_skip. }
  split_and!.
  - eapply sublist_NoDup; [|apply Hsub].
    apply (NoDup_fmap_2 (λ i, "col_" +:+ pretty i)), NoDup_seq.
  - pose proof (sublist_length _ _ (Hsub (seq 0 (length (columns sheet))))) as H.
    by rewrite !length_fmap, length_seq in H.
  - intros Hout. apply lookup_lt_Some in Hrow. lia.
  - intros key cleaned (i & Hi & Hf)%list_elem_of_omap.
    apply elem_of_seq in Hi. unfold f in Hf. cbv zeta in Hf.
    destruct (decide (header_like _)) as [Hlike|]; [|done].
    case_bool_decide as Hne; [|done]. injection Hf as <- <-.
    split; [done|]. exists i, header_row. split_and!; try done. lia.
Qed.

Lemma StronglySorted_sublist {A} (R : relation A) (l1 l2 : list A) :
  l1 `sublist_of` l2 → StronglySorted R l2 → StronglySorted R l1.
Proof.
  induction 1 as [|x l1 l2 Hsub IH|x l1 l2 Hsub IH]; intros Hs.
  - constructor.
  - apply StronglySorted_inv in Hs as [Hs Hall]. constructor; [by apply IH|].
    apply Forall_forall. intros y Hy. rewrite Forall_forall in Hall.
    apply Hall. by eapply elem_of_sublist.
  - apply StronglySorted_inv in Hs as [Hs _]. by apply IH.
Qed.

Lemma unique_rows_sublist seen l : unique_rows seen l `sublist_of` l.
Proof.
  revert seen. induction l as [|c l IH]; intros seen; [done|].
  cbn [unique_rows]. case_decide; [by apply sublist_cons|by apply sublist_skip].
Qed.

Lemma unique_rows_fresh seen l c :
  c ∈ unique_rows seen l → hc_row_index c ∉ seen.
Proof.
  revert seen. induction l as [|d l IH]; intros seen; cbn [unique_rows].
  { by intros ?%elem_of_nil. }
  case_decide as Hd; [apply IH|].
  intros [->|Hc]%elem_of_cons; [done|].
  apply IH in Hc. intros Hin. apply Hc, elem_of_union. by left.
Qed.

Lemma unique_rows_NoDup seen l : NoDup (hc_row_index <$> unique_rows seen l).
Proof.
  revert seen. induction l as [|d l IH]; intros seen; cbn [unique_rows].
  { apply NoDup_nil_2. }
  case_decide as Hd; [apply IH|].
  cbn [fmap list_fmap]. apply NoDup_cons. split; [|apply IH].
  intros (c & Heq & Hc)%list_elem_of_fmap.
  apply unique_rows_fresh in Hc. apply Hc, elem_of_union. right.
  rewrite Heq. by apply elem_of_singleton.
Qed.

Lemma strategy_row_bound h learned sheet c :
  c ∈ run_heuristic h learned sheet →
  row_index c < 50 `min` length (data sheet).
Proof.
  intros Hc.
  assert (∃ rate, c ∈ scan_rows sheet rate) as [rate Hscan].
  { destruct h; simpl in Hc;
      unfold strategy_1_pattern_based, strategy_2_structural_analysis,
        strategy_3_template_pattern, strategy_4_historical_learning in Hc;
      rewrite sorted_desc_Permutation in Hc; by eexists. }
  destruct (elem_of_scan_rows _ _ _ Hscan) as (H50 & row & Hrow & _).
  apply lookup_lt_Some in Hrow. lia.
Qed.

Lemma elem_of_entries sheet strategy results n e :
  e ∈ entries sheet strategy (take n results) →
  ∃ c, c ∈ results ∧ hc_row_index e = row_index c ∧ hc_score e = score c
    ∧ hc_detected_headers e = extract_clean_headers sheet (row_index c).
Proof.
  unfold entries. intros (c & -> & Hc)%list_elem_of_fmap.
  exists c. split; [|done]. eapply elem_of_sublist; [exact Hc|].
  apply sublist_take.
Qed.

(** X13. The candidates that [detect_headers_enhanced] returns are at most
    five, come with the highest score first, name each row at most once,
    and each is one of the first 50 rows of the sheet together with the
    cleaned headers of that row. *)
Theorem detect_headers_enhanced_candidates strategy_5 learned sheet file :
  let result := detect_headers_enhanced strategy_5 learned sheet file in
  length (candidates result) ≤ 5
  ∧ NoDup (hc_row_index <$> candidates result)
  ∧ StronglySorted (descending hc_score) (candidates result)
  ∧ ∀ c, c ∈ candidates result →
      hc_row_index c < 50 `min` length (data sheet)
      ∧ hc_detected_headers c = extract_clean_headers sheet (hc_row_index c).
Proof.
  cbv zeta. unfold detect_headers_enhanced. cbn [candidates].
  unfold unique_candidates. cbv zeta.
  set (all := entries _ _ _ ++ _).
  pose proof (unique_rows_sublist ∅ (sorted_desc hc_score all)) as Hsub.
  pose proof (sublist_take (unique_rows ∅ (sorted_desc hc_score all)) 5)
    as Htake.
  split_and!.
  - rewrite length_take. lia.
  - eapply sublist_NoDup; [apply unique_rows_NoDup|].
    apply fmap_sublist, sublist_take.
  - eapply StronglySorted_sublist; [exact Htake|].
    eapply StronglySorted_sublist; [exact Hsub|].
    apply sorted_desc_sorted.
  - intros c Hc.
    assert (c ∈ all) as Hall.
    { rewrite <-(sorted_desc_Permutation hc_score all).
      eapply elem_of_sublist; [|exact Hsub].
      eapply elem_of_sublist; [exact Hc|exact Htake]. }
    unfold all in Hall. rewrite !elem_of_app in Hall.
    destruct Hall as [He|[He|[He|He]]];
      apply elem_of_entries in He as (r & Hr & Hrow & _ & Hheaders);
      rewrite Hheaders, Hrow; (split; [|done]).
    + exact (strategy_row_bound PatternBased learned sheet r Hr).
    + exact (strategy_row_bound Structural learned sheet r Hr).
    + exact (strategy_row_bound TemplatePattern learned sheet r Hr).
    + exact (strategy_row_bound HistoricalLearning learned sheet r Hr).
Qed.

End detection_theory.

(** ** The learning patterns of the decision history *)

Section learning_theory.
Import Py HeaderDetector Learning Notions.

Lemma last_n_length {A} n (l : list A) : length (last_n n l) ≤ n.
Proof. unfold last_n. rewrite length_drop. lia. Qed.

Lemma last_n_suffix {A} n (l : list A) : last_n n l `suffix_of` l.
Proof. apply suffix_drop. Qed.

(** The words of a split hold no white space, and only characters of the
    text that was split. *)
Lemma split_go_words word l w :
  Forall (λ c, is_space c = false) word →
  w ∈ split_go word l →
  Forall (λ c, is_space c = false ∧ c ∈ word ++ l) (chars w).
Proof.
  revert word. induction l as [|c l IH]; intros word Hword; cbn [split_go].
  - case_bool_decide; [by intros ?%elem_of_nil|].
    intros ->%list_elem_of_singleton. rewrite chars_text, app_nil_r.
    apply Forall_forall. intros c Hc. rewrite Forall_forall in Hword. auto.
  - destruct (is_space c) eqn:Hc.
    + assert (w ∈ split_go [] l →
              Forall (λ c0, is_space c0 = false ∧ c0 ∈ word ++ c :: l)
                     (chars w)) as Hrest.
      { intros Hw. apply (IH []) in Hw; [|constructor].
        eapply Forall_impl; [exact Hw|]. intros d [Hd Hin].
        split; [done|]. rewrite elem_of_app. right. by right. }
      case_bool_decide; [done|].
      intros [->|Hw]%elem_of_cons; [|by apply Hrest].
      rewrite chars_text. apply Forall_forall. intros d Hd.
      rewrite Forall_forall in Hword. split; [by apply Hword|].
      rewrite elem_of_app. by left.
    + intros Hw. apply IH in Hw.
      * eapply Forall_impl; [exact Hw|]. intros d [Hd Hin].
        split; [done|]. by rewrite <-(assoc_L (++)) in Hin.
      * apply Forall_app. split; [done|]. by constructor.
Qed.

Lemma split_replace_words header w :
  w ∈ split (replace_char "_" " " header) →
  Forall (λ c, is_space c = false ∧ c ≠ "_"%char) (chars w).
Proof.
  unfold split, replace_char. rewrite chars_text.
  intros Hw%split_go_words; [|constructor].
  eapply Forall_impl; [exact Hw|]. intros c [Hc Hin].
  split; [done|]. intros ->. cbn [app] in Hin.
  apply list_elem_of_fmap in Hin as (x & Hx & _).
  case_bool_decide; [discriminate Hx|congruence].
Qed.

Lemma grown_weaken old mapping mapping' l :
  mapping ⊆ mapping' → grown old mapping l → grown old mapping' l.
Proof.
  intros Hsub [Hnd Hin]. split; [done|].
  intros p [Hp|(Hlen & c & h & Hch & Hp)]%Hin; [by left|right].
  split; [done|]. exists c, h. split; [by apply Hsub|done].
Qed.

Lemma add_parts_grown old mapping l col header :
  grown old mapping l →
  grown old (mapping ++ [(col, header)]) (add_parts l header).
Proof.
  intros Hl.
  assert (mapping ⊆ mapping ++ [(col, header)]) as Hmore.
  { intros x Hx. apply elem_of_app. by left. }
  unfold add_parts.
  destruct (_ && _); [|by eapply grown_weaken].
  cbv zeta.
  assert (∀ parts l,
            parts ⊆ split (replace_char "_" " " header) →
            grown old (mapping ++ [(col, header)]) l →
            grown old (mapping ++ [(col, header)])
              (foldl (λ indicators part,
                        if bool_decide (2 < len part)
                           && bool_decide (part ∉ indicators)
                        then indicators ++ [part] else indicators)
                     l parts)) as Hfold.
  { clear. induction parts as [|part parts IH]; intros l Hparts Hl; [done|].
    cbn [foldl]. apply IH.
    { intros x Hx. apply Hparts. by right. }
    destruct (bool_decide (2 < len part)) eqn:Hlen; [|done].
    destruct (bool_decide (part ∉ l)) eqn:Hnew; [|done]. cbn [andb].
    apply bool_decide_eq_true in Hlen, Hnew.
    destruct Hl as [Hnd Hin]. split.
    - intros Hold. apply NoDup_app. split_and!.
      + by apply Hnd.
      + intros x Hx Hx'. apply list_elem_of_singleton in Hx' as ->. done.
      + apply NoDup_singleton.
    - intros p Hp. apply elem_of_app in Hp as [Hp|Hp]; [by apply Hin|].
      apply list_elem_of_singleton in Hp as ->.
      right. split; [done|]. exists col, header. split.
      + apply elem_of_app. right. apply list_elem_of_here.
      + apply Hparts. apply list_elem_of_here. }
  apply Hfold; [done|]. by eapply grown_weaken.
Qed.

Lemma add_all_grown old mapping :
  grown old mapping
    (foldl (λ indicators '(col, header), add_parts indicators header)
           old mapping).
Proof.
  induction mapping as [|[col header] mapping IH] using rev_ind.
  { split; [done|]. by left. }
  rewrite foldl_app. cbn [foldl]. by apply add_parts_grown.
Qed.

(** X14. On a history that holds both lists, [update_learning_patterns]
    succeeds and keeps them bounded: at most 100 positive and 50 negative
    indicators.  The negative ones are the last of the old ones; a positive
    list without duplicates stays so; and every positive indicator is an
    old one or a word of a validated header (underscores read as blanks)
    of more than two characters, without white space or underscore. *)
Theorem update_learning_patterns_bounded positive_indicators
    negative_indicators validated_mapping :
  ∃ positive' negative',
    update_learning_patterns
      (Some (PatternDict (Some positive_indicators)
                         (Some negative_indicators)))
      validated_mapping
    = Updated (PatternDict (Some positive') (Some negative'))
    ∧ length positive' ≤ 100
    ∧ length negative' ≤ 50
    ∧ negative' `suffix_of` negative_indicators
    ∧ (NoDup positive_indicators → NoDup positive')
    ∧ ∀ p, p ∈ positive' →
        p ∈ positive_indicators
        ∨ (2 < len p
           ∧ Forall (λ c, is_space c = false ∧ c ≠ "_"%char) (chars p)
           ∧ ∃ col header, (col, header) ∈ validated_mapping
               ∧ p ∈ split (replace_char "_" " " header)).
Proof.
  unfold update_learning_patterns. cbn [default positive negative].
  do 2 eexists. split; [reflexivity|].
  destruct (add_all_grown positive_indicators validated_mapping)
    as [Hnd Hin].
  split_and!.
  - apply last_n_length.
  - apply last_n_length.
  - apply last_n_suffix.
  - intros Hold. eapply sublist_NoDup; [by apply Hnd|].
    apply sublist_drop.
  - intros p Hp.
    assert (p ∈ foldl (λ indicators '(col, header),
                         add_parts indicators header)
                      positive_indicators validated_mapping) as Hp'.
    { eapply elem_of_sublist; [exact Hp|].
      apply sublist_drop. }
    apply Hin in Hp' as [Hold|(Hlen & col & header & Hch & Hpart)];
      [by left|right].
    split_and!; [done|by eapply split_replace_words|by exists col, header].
Qed.

(** X15. [update_learning_patterns] raises [KeyError] on a history whose
    pattern dict lacks the list of positive indicators, as the dict of a
    new history does, and leaves the dict as it was; once the fourth
    strategy has read the history, which gives the stored dict the lists it
    lacks, the update succeeds on every history. *)
Theorem update_after_strategy_4 history negative_indicators
    validated_mapping :
  update_learning_patterns (Some (PatternDict None negative_indicators))
    validated_mapping
  = KeyError "positive_indicators" (PatternDict None negative_indicators)
  ∧ ∃ patterns,
      update_learning_patterns (strategy_4_patterns history).2
        validated_mapping
      = Updated patterns.
Proof.
  split; [done|].
  destruct history as [[positive_indicators negative']|];
    unfold strategy_4_patterns, update_learning_patterns;
    cbn [snd default positive negative]; by eexists.
Qed.

End learning_theory.

(** ** The reports of the cross-sheet analysis *)

Section cross_sheet_reports.
Import Py Store CrossSheet Identifier Notions Binary64.

Context {report : Type}
        (ratio : string → string → float)
        (format_2f : float → string)
        (verify_label : string → string * float * string)
        (detect_headers :
           HeaderDetector.sheet_data → string → list string * bool * float)
        (load_json : string → option document)
        (enhanced_identify_required_columns :
           string → store → option string → float → bool → report)
        (st : store) (use_enhanced_headers : bool).

(** [min(x, 1.0)] is not above 1. *)
Lemma cap_le_1 x : PrimFloat.ltb 1 (cap x) = false.
Proof.
  unfold cap, fmin. destruct (PrimFloat.ltb 1 x) eqn:Hx; [|done].
  apply ltb_irrefl.
Qed.

(** The column that the loop of [_analyze_sheet_with_cross_patterns] makes
    of a header. *)
Lemma analyze_column_fields enhanced_used enhancement_confidence threshold
    idx raw_header :
  let c := analyze_column ratio format_2f verify_label st enhanced_used
             enhancement_confidence threshold idx raw_header in
  position c = idx ∧ header c = raw_header
  ∧ enhanced_header c = enhanced_used
  ∧ PrimFloat.ltb 1 (confidence c) = false
  ∧ (decision c = "fill"
     ∧ (learned_fillable c = true
        ∨ PrimFloat.leb threshold (confidence c) = true)
     ∨ decision c = "unknown" ∧ learned_fillable c = false
       ∧ PrimFloat.leb threshold (confidence c) = false).
Proof.
  cbv zeta. unfold analyze_column.
  cbn [position header enhanced_header confidence decision learned_fillable].
  split_and!; [done|done|done|apply cap_le_1|].
  destruct (bm_is_learned_fillable _) eqn:Hlearned; cbn [orb].
  { left. split; [done|by left]. }
  destruct (PrimFloat.leb threshold _) eqn:Hle.
  - left. split; [done|]. by right.
  - right. by split_and!.
Qed.

(** The columns that the loop makes of the headers: one for each position
    from 1 on whose header is not empty. *)
Lemma analyzed_columns_spec (headers : list string) enhanced_used
    enhancement_confidence threshold :
  let analyzed :=
    omap (λ idx,
            let raw_header := default "" (headers !! idx) in
            if bool_decide (raw_header = "") then None
            else Some (analyze_column ratio format_2f verify_label st
                         enhanced_used enhancement_confidence threshold
                         idx raw_header))
         (list_value_columns headers) in
  position <$> analyzed `sublist_of` seq 1 (length headers - 1)
  ∧ ∀ c, c ∈ analyzed →
      headers !! position c = Some (header c) ∧ header c ≠ ""
      ∧ c = analyze_column ratio format_2f verify_label st enhanced_used
              enhancement_confidence threshold (position c) (header c).
Proof.
  cbv zeta. unfold list_value_columns. split.
  - induction (seq 1 (length headers - 1)) as [|idx l IH]; [done|].
    cbn [omap list_omap]. case_bool_decide; [by apply sublist_cons|].
    cbn [fmap list_fmap]. by apply sublist_skip.
  - intros c (idx & Hidx & Hc)%list_elem_of_omap.
    apply elem_of_seq in Hidx. cbv zeta in Hc.
    case_bool_decide as Hraw; [done|]. injection Hc as <-.
    cbn [position header].
    destruct (headers !! idx) as [raw|] eqn:Hlookup; cbn [default] in *; done.
Qed.

(** X16. The report of one sheet: the two lists of columns hold each
    position at most once, only positions from 1 up to the last header,
    with the header found there, which is not empty; no confidence exceeds
    1; a column is under "columns" with decision "fill" when it was learned
    as fillable or its confidence reaches the threshold, and under
    "unknowns" with decision "unknown" otherwise.  The comparisons are
    those of binary64. *)
Theorem sheet_report_columns json_obj sheet_name file_path threshold sheet
    headers enhanced_used enhancement_confidence :
  get_sheet json_obj sheet_name = Some sheet →
  detect_headers sheet file_path
  = (headers, enhanced_used, enhancement_confidence) →
  ∃ columns unknowns,
    _analyze_sheet_with_cross_patterns ratio format_2f verify_label
      detect_headers st json_obj sheet_name file_path threshold
    = SheetResults columns unknowns (length headers) (length headers - 1)
        (size (sheets st))
    ∧ NoDup (position <$> columns ++ unknowns)
    ∧ (∀ c, c ∈ columns ++ unknowns →
         1 ≤ position c < length headers
         ∧ headers !! position c = Some (header c) ∧ header c ≠ ""
         ∧ PrimFloat.ltb 1 (confidence c) = false
         ∧ enhanced_header c = enhanced_used)
    ∧ (∀ c, c ∈ columns →
         decision c = "fill"
         ∧ (learned_fillable c = true
            ∨ PrimFloat.leb threshold (confidence c) = true))
    ∧ (∀ c, c ∈ unknowns →
         decision c = "unknown" ∧ learned_fillable c = false
         ∧ PrimFloat.leb threshold (confidence c) = false).
Proof.
  intros Hsheet Hdetect. unfold _analyze_sheet_with_cross_patterns.
  rewrite Hsheet, Hdetect. cbv zeta.
  destruct (analyzed_columns_spec headers enhanced_used
              enhancement_confidence threshold) as [Hsub Hspec].
  cbv zeta in Hsub, Hspec.
  set (analyzed := omap _ _) in *.
  do 2 eexists. split.
  { f_equal. unfold list_value_columns. by rewrite length_seq. }
  assert (∀ c, c ∈ analyzed →
            PrimFloat.ltb 1 (confidence c) = false
            ∧ enhanced_header c = enhanced_used
            ∧ (decision c = "fill"
               ∧ (learned_fillable c = true
                  ∨ PrimFloat.leb threshold (confidence c) = true)
               ∨ decision c = "unknown" ∧ learned_fillable c = false
                 ∧ PrimFloat.leb threshold (confidence c) = false))
    as Hfields.
  { intros c Hc. destruct (Hspec c Hc) as (_ & _ & Heq).
    destruct (analyze_column_fields enhanced_used enhancement_confidence
                threshold (position c) (header c)) as (_ & _ & He & Hc1 & Hd).
    cbv zeta in He, Hc1, Hd. by rewrite <-Heq in He, Hc1, Hd. }
  split_and!.
  - rewrite filter_app_complement.
    eapply sublist_NoDup; [apply NoDup_seq|exact Hsub].
  - intros c Hc. rewrite filter_app_complement in Hc.
    destruct (Hspec c Hc) as (Hh & Hne & _).
    destruct (Hfields c Hc) as (Hc1 & He & _).
    split_and!; try done.
    + assert (position c ∈ seq 1 (length headers - 1)) as Hin.
      { eapply elem_of_sublist; [|exact Hsub].
        apply list_elem_of_fmap. by exists c. }
      apply elem_of_seq in Hin. lia.
    + by apply lookup_lt_Some in Hh.
  - intros c [Hdec Hc]%list_elem_of_filter.
    destruct (Hfields c Hc) as (_ & _ & [[_ H]|[H _]]); [done|congruence].
  - intros c [Hdec Hc]%list_elem_of_filter.
    destruct (Hfields c Hc) as (_ & _ & [[H _]|H]); done.
Qed.

(** A data sheet is a sheet of the document. *)
Lemma elem_of_find_data_sheets (ej : document) name :
  name ∈ _find_data_sheets ej →
  ∃ sheet, (name, Some sheet) ∈ ej
    ∧ 2 ≤ length (HeaderDetector.data sheet)
    ∧ 3 ≤ length (HeaderDetector.columns sheet).
Proof.
  unfold _find_data_sheets.
  intros ([n [sheet|]] & Hin & Hf)%list_elem_of_omap;
    cbn [mbind option_bind] in Hf; [|done].
  destruct (existsb _ _); [done|]. case_bool_decide as Hsize; [|done].
  injection Hf as ->. exists sheet. by destruct Hsize.
Qed.

Lemma get_sheet_data_sheet (ej : document) name :
  NoDup ej.*1 → name ∈ _find_data_sheets ej →
  ∃ sheet, get_sheet ej name = Some sheet.
Proof.
  intros Hnd (sheet & Hin & _)%elem_of_find_data_sheets.
  exists sheet. unfold get_sheet. by rewrite (assoc_NoDup name (Some sheet)).
Qed.

Lemma analyze_sheets_spec ej empty_file target_sheet threshold :
  NoDup ej.*1 →
  let all_results :=
    analyze_sheets ratio format_2f verify_label detect_headers st ej
      empty_file target_sheet threshold in
  (all_results.*1 = _find_data_sheets ej
   ∨ ∃ t, target_sheet = Some t ∧ t ∈ _find_data_sheets ej
       ∧ all_results.*1 = [t])
  ∧ (∀ t, target_sheet = Some t → t ∉ _find_data_sheets ej →
       all_results.*1 = _find_data_sheets ej)
  ∧ Forall (λ e, is_error e.2 = false) all_results.
Proof.
  intros Hnd. cbv zeta. unfold analyze_sheets. cbv zeta.
  rewrite fmap_fst_pair.
  set (sheets_to_analyze := match target_sheet with
                            | Some t => _
                            | None => _
                            end).
  assert (sheets_to_analyze ⊆ _find_data_sheets ej) as Hsub.
  { unfold sheets_to_analyze. destruct target_sheet as [t|]; [|done].
    case_bool_decide as Ht; [|done].
    intros x ->%list_elem_of_singleton. by destruct Ht. }
  split_and!.
  - unfold sheets_to_analyze. destruct target_sheet as [t|]; [|by left].
    case_bool_decide as Ht; [|by left]. right. exists t. by destruct Ht.
  - intros t -> Hout. unfold sheets_to_analyze.
    rewrite bool_decide_eq_false_2; [done|]. by intros [_ ?].
  - apply Forall_fmap, Forall_forall. intros name Hname%Hsub.
    unfold compose. cbn [snd].
    destruct (get_sheet_data_sheet ej name Hnd Hname) as [sheet Hsheet].
    unfold _analyze_sheet_with_cross_patterns. rewrite Hsheet.
    by destruct (detect_headers sheet empty_file) as [[? ?] ?].
Qed.

(** X17. [analyze_file] on a document that loads (its sheet names are
    distinct, as the keys of a dict are): it analyses the data sheets of
    the document, or the target sheet alone when that is one of them; a
    target that is not a data sheet is ignored; no sheet is reported with
    an error entry, so the summary counts every analysed sheet as
    processed. *)
Theorem analyze_file_sheets empty_file target_sheet threshold ej :
  load_json empty_file = Some ej → NoDup ej.*1 →
  ∃ cross,
    analyze_file ratio format_2f verify_label detect_headers load_json st
      use_enhanced_headers empty_file target_sheet threshold = Some cross
    ∧ ((all_sheet_results cross).*1 = _find_data_sheets ej
       ∨ ∃ t, target_sheet = Some t ∧ t ∈ _find_data_sheets ej
           ∧ (all_sheet_results cross).*1 = [t])
    ∧ (∀ t, target_sheet = Some t → t ∉ _find_data_sheets ej →
         (all_sheet_results cross).*1 = _find_data_sheets ej)
    ∧ Forall (λ e, is_error e.2 = false) (all_sheet_results cross)
    ∧ sheets_processed (cross_summary cross)
      = length (all_sheet_results cross).
Proof.
  intros Hload Hnd. unfold analyze_file. rewrite Hload.
  cbn [mbind option_bind]. eexists. split; [reflexivity|].
  destruct (analyze_sheets_spec ej empty_file target_sheet threshold Hnd)
    as (Hnames & Hignored & Hlive).
  cbv zeta in Hnames, Hignored, Hlive.
  unfold _consolidate_cross_sheet_results.
  destruct (find_best_sheet _) as [best score].
  cbn [all_sheet_results cross_summary sheets_processed].
  split_and!; try done.
  f_equal. by apply filter_all.
Qed.

Lemma find_best_sheet_none all_results :
  Forall (λ e, columns_of e.2 = []) all_results →
  find_best_sheet all_results = (None, 0%float).
Proof.
  unfold find_best_sheet. generalize (@None string, 0%float).
  intros start Hall. revert start.
  induction Hall as [|[name res] l Hres _ IH]; intros start; [done|].
  cbn [foldl].
  assert (best_sheet_step start (name, res) = start) as ->; [|apply IH].
  unfold best_sheet_step. destruct (is_error res); [done|].
  cbn [snd] in Hres. by rewrite bool_decide_eq_true_2.
Qed.

Lemma no_fillable_columns (l : list (string * sheet_results)) :
  foldr (λ e n, length (columns_of e.2) + n) 0 l = 0 →
  Forall (λ e, columns_of e.2 = []) l.
Proof.
  induction l as [|e l IH]; cbn [foldr]; intros Hsum; constructor.
  - destruct (columns_of e.2); [done|]. simpl in Hsum. lia.
  - apply IH. lia.
Qed.

(** X18. When the cross-sheet analysis finds no fillable column in any
    sheet, there is no primary sheet, and [identify_required_columns]
    answers with the sheet-first identification. *)
Theorem nothing_fillable_falls_back empty_file sheet_name threshold cross :
  cross_sheet_identify_required_columns ratio format_2f verify_label
    detect_headers load_json empty_file st sheet_name threshold true
  = Some cross →
  total_fillable_columns (cross_summary cross) = 0 →
  primary_sheet cross = None
  ∧ primary_results cross = None
  ∧ identify_required_columns ratio format_2f verify_label detect_headers
      load_json enhanced_identify_required_columns empty_file st sheet_name
      threshold
    = SheetFirst (enhanced_identify_required_columns empty_file st
                    sheet_name threshold true).
Proof.
  intros Hcross. unfold identify_required_columns. rewrite Hcross.
  revert Hcross.
  unfold cross_sheet_identify_required_columns, analyze_file.
  destruct (load_json empty_file) as [ej|]; cbn [mbind option_bind]; [|done].
  intros [= <-]. unfold _consolidate_cross_sheet_results.
  set (all := analyze_sheets _ _ _ _ _ _ _ _ _).
  destruct (find_best_sheet all) as [best score] eqn:Hbest.
  cbn [cross_summary total_fillable_columns primary_sheet primary_results].
  intros Hnone.
  assert (Forall (λ e, columns_of e.2 = []) all) as Hall.
  { apply Forall_forall. intros e He.
    destruct (is_error e.2) eqn:Herr.
    - by destruct e.2.
    - apply no_fillable_columns in Hnone. rewrite Forall_forall in Hnone.
      apply Hnone. by apply list_elem_of_filter. }
  rewrite (find_best_sheet_none all Hall) in Hbest.
  injection Hbest as <- <-. done.
Qed.

(** X19. A header that no learned sheet knows (it is not a column to fill,
    has neither a verdict nor a value pattern, and resembles no verified
    header by more than 0.7) is judged by the live verification alone. *)
Theorem unknown_header_live_verification h :
  (∀ name entry, sheets st !! name = Some entry →
     (h ∉ columns_to_fill entry)
     ∧ verifications entry !! h = None
     ∧ enhanced_patterns entry !! h = None
     ∧ ∀ vh v, verifications entry !! vh = Some v →
         PrimFloat.ltb 0.7 (ratio (lower h) (lower vh)) = false) →
  _find_best_cross_sheet_match ratio format_2f verify_label h (sheets st)
  = let '(label, conf, method) := verify_label h in
    BestMatch conf label method false ["live_verification"] [] "fallback".
Proof.
  intros Hunknown. unfold _find_best_cross_sheet_match.
  destruct (all_candidates ratio format_2f h (sheets st)) as [|c l] eqn:Hall;
    [by destruct (verify_label h) as [[? ?] ?]|].
  exfalso.
  assert (c ∈ all_candidates ratio format_2f h (sheets st)) as Hc.
  { rewrite Hall. apply list_elem_of_here. }
  clear Hall. unfold all_candidates in Hc.
  apply list_elem_of_bind in Hc as ([name entry] & Hc & Hin).
  apply elem_of_map_to_list in Hin.
  destruct (Hunknown name entry Hin) as (Hfill & Hv & Hp & Hsim).
  unfold sheet_candidates in Hc.
  rewrite Hv, Hp, bool_decide_eq_false_2 in Hc.
  2: { unfold set_of. by rewrite elem_of_list_to_set. }
  cbn [app] in Hc.
  apply list_elem_of_fmap in Hc as (m & _ & Hm).
  unfold _find_semantic_matches in Hm.
  apply list_elem_of_omap in Hm as ([vh v] & Hvh & Hm).
  apply elem_of_map_to_list in Hvh.
  destruct (PrimFloat.ltb 0.7 _) eqn:Hlt; [|done].
  specialize (Hsim vh v Hvh). congruence.
Qed.

End cross_sheet_reports.

Section cross_sheet_report_examples.
Import Py Store CrossSheet Identifier Notions.

Lemma sheet_report_columns_witness :
  ∃ columns unknowns,
    CrossSheet._analyze_sheet_with_cross_patterns plain_ratio plain_format
      plain_verify plain_detect rate_store quote_document "Rates"
      "quote.json" 0.7%float
    = SheetResults columns unknowns 3 2 1
    ∧ NoDup (position <$> columns ++ unknowns)
    ∧ (∀ c, c ∈ unknowns →
         decision c = "unknown" ∧ learned_fillable c = false
         ∧ PrimFloat.leb 0.7 (confidence c) = false).
Proof.
  destruct (sheet_report_columns plain_ratio plain_format plain_verify
              plain_detect rate_store quote_document "Rates" "quote.json"
              0.7%float (HeaderDetector.SheetData
                     ["lane"; "rate"; "currency"] [∅; ∅])
              ["lane"; "rate"; "currency"] false 0 eq_refl eq_refl)
    as (columns & unknowns & Heq & Hnd & _ & _ & Hunknown).
  exists columns, unknowns. split; [exact Heq|]. split; [exact Hnd|].
  exact Hunknown.
Defined.

Lemma analyze_file_sheets_witness :
  ∃ cross,
    analyze_file plain_ratio plain_format plain_verify plain_detect
      plain_load rate_store true "quote.json" (Some "Summary") 0.7%float
    = Some cross
    ∧ (all_sheet_results cross).*1 = ["Rates"]
    ∧ Forall (λ e, is_error e.2 = false) (all_sheet_results cross)
    ∧ sheets_processed (cross_summary cross) = 1.
Proof.
  destruct (analyze_file_sheets plain_ratio plain_format plain_verify
              plain_detect plain_load rate_store true "quote.json"
              (Some "Summary") 0.7%float quote_document eq_refl)
    as (cross & Hcross & _ & Hignored & Hlive & Hcount).
  { apply NoDup_singleton. }
  exists cross. split; [exact Hcross|].
  assert ((all_sheet_results cross).*1 = ["Rates"]) as Hnames.
  { apply (Hignored "Summary" eq_refl). vm_compute.
    intros Hin. apply list_elem_of_singleton in Hin. discriminate Hin. }
  split; [exact Hnames|]. split; [exact Hlive|].
  rewrite Hcount, <-(length_fmap fst), Hnames. reflexivity.
Defined.

Lemma nothing_fillable_falls_back_witness :
  ∃ cross,
    cross_sheet_identify_required_columns plain_ratio plain_format
      plain_verify plain_detect plain_load "quote.json" (MkStore ∅) None
      0.7%float true = Some cross
    ∧ total_fillable_columns (cross_summary cross) = 0
    ∧ identify_required_columns plain_ratio plain_format plain_verify
        plain_detect plain_load plain_sheet_first "quote.json" (MkStore ∅)
        None 0.7%float
      = SheetFirst "sheet-first report".
Proof.
  assert (∃ cross,
            cross_sheet_identify_required_columns plain_ratio plain_format
              plain_verify plain_detect plain_load "quote.json" (MkStore ∅)
              None 0.7%float true = Some cross
            ∧ total_fillable_columns (cross_summary cross) = 0)
    as (cross & Hcross & Hnone).
  { eexists. split; [vm_compute; reflexivity|]. reflexivity. }
  exists cross. split; [exact Hcross|]. split; [exact Hnone|].
  exact (proj2 (proj2 (nothing_fillable_falls_back plain_ratio plain_format
                         plain_verify plain_detect plain_load
                         plain_sheet_first (MkStore ∅) "quote.json" None
                         0.7%float cross Hcross Hnone))).
Defined.

Lemma unknown_header_live_verification_witness :
  _find_best_cross_sheet_match plain_ratio plain_format plain_verify "lane"
    (sheets rate_store)
  = BestMatch 0.3%float "unknown" "mock-unknown" false ["live_verification"] []
      "fallback".
Proof.
  apply (unknown_header_live_verification plain_ratio plain_format
           plain_verify rate_store "lane").
  intros name entry Hentry. cbn in Hentry.
  apply lookup_singleton_Some in Hentry as [_ <-].
  cbn [columns_to_fill verifications enhanced_patterns].
  split_and!; [|done|done|].
  - intros Hin. apply list_elem_of_singleton in Hin. discriminate Hin.
  - intros vh v Hv. by rewrite lookup_empty in Hv.
Defined.

End cross_sheet_report_examples.

(** ** enhanced_trainer.py: the enhanced merge *)

Section merging_theory.
Import Py Store EnhancedMerge Notions.

Lemma lookup_enhanced_merge store1 store2 sheet :
  sheets (enhanced_merge_patterns store1 store2) !! sheet
  = match sheets store2 !! sheet with
    | Some sheet_data =>
        Some (merge_sheet_patterns
                (merge_sheet (default fresh_entry (sheets store1 !! sheet))
                             sheet_data)
                sheet_data)
    | None => sheets store1 !! sheet
    end.
Proof.
  unfold enhanced_merge_patterns. cbn [sheets].
  set (base := Store.sheets (merge_patterns store1 store2)).
  assert (∀ k, base !! k
               = match Store.sheets store2 !! k with
                 | Some payload =>
                     Some (merge_sheet
                             (default fresh_entry (Store.sheets store1 !! k))
                             payload)
                 | None => Store.sheets store1 !! k
                 end) as Hbase.
  { intros k. apply lookup_merge_patterns. }
  assert (∀ (inc : gmap string sheet_entry) k,
            map_fold (λ sheet_name sheet_data merged_sheets,
                        match merged_sheets !! sheet_name with
                        | Some target =>
                            <[sheet_name :=
                                merge_sheet_patterns target sheet_data]>
                              merged_sheets
                        | None => merged_sheets
                        end) base inc !! k
            = match inc !! k with
              | Some sheet_data =>
                  (λ target, merge_sheet_patterns target sheet_data)
                    <$> base !! k
              | None => base !! k
              end) as Hfold.
  { intros inc. apply (map_fold_weak_ind
             (λ r (m : gmap string sheet_entry), ∀ k,
                r !! k = match m !! k with
                         | Some sheet_data =>
                             (λ target, merge_sheet_patterns target sheet_data)
                               <$> base !! k
                         | None => base !! k
                         end)).
    - intros k. by rewrite lookup_empty.
    - intros i x m r Hi IH k. rewrite (IH i), Hi.
      destruct (base !! i) as [target|] eqn:Hbi.
      + destruct (decide (i = k)) as [->|Hne].
        * rewrite !lookup_insert_eq. by rewrite Hbi.
        * rewrite !lookup_insert_ne by done. apply IH.
      + destruct (decide (i = k)) as [->|Hne].
        * rewrite lookup_insert_eq. by rewrite IH, Hi, Hbi.
        * rewrite lookup_insert_ne by done. apply IH. }
  rewrite Hfold, Hbase.
  by destruct (Store.sheets store2 !! sheet).
Qed.

Lemma enhanced_patterns_merge_sheet_patterns target sheet_data :
  enhanced_patterns (merge_sheet_patterns target sheet_data)
  = enhanced_patterns sheet_data ∪ enhanced_patterns target.
Proof.
  unfold merge_sheet_patterns. cbv zeta. case_bool_decide as Hempty.
  - by rewrite Hempty, (left_id_L ∅ (∪)).
  - cbn [enhanced_patterns]. apply lookup_merge_last.
Qed.

Lemma merge_sheet_patterns_fields target sheet_data :
  header_map (merge_sheet_patterns target sheet_data) = header_map target
  ∧ columns_to_fill (merge_sheet_patterns target sheet_data)
    = columns_to_fill target
  ∧ column_positions (merge_sheet_patterns target sheet_data)
    = column_positions target
  ∧ verifications (merge_sheet_patterns target sheet_data)
    = verifications target.
Proof. unfold merge_sheet_patterns. cbv zeta. by case_bool_decide. Qed.

(** X20. [enhanced_merge_patterns] treats the four basic fields of a sheet
    as [merge_patterns] does, and adds what [merge_patterns] leaves out:
    [merge_patterns] keeps the stored value patterns only, while the
    enhanced merge lays the incoming value patterns over them.  A sheet
    that the incoming store does not name is left as it was. *)
Theorem enhanced_merge_patterns_sheet store1 store2 sheet :
  match sheets store2 !! sheet with
  | Some sheet_data =>
      ∃ plain merged,
        sheets (merge_patterns store1 store2) !! sheet = Some plain
        ∧ sheets (enhanced_merge_patterns store1 store2) !! sheet
          = Some merged
        ∧ header_map merged = header_map plain
        ∧ columns_to_fill merged = columns_to_fill plain
        ∧ column_positions merged = column_positions plain
        ∧ verifications merged = verifications plain
        ∧ enhanced_patterns plain
          = enhanced_patterns (default fresh_entry (sheets store1 !! sheet))
        ∧ enhanced_patterns merged
          = enhanced_patterns sheet_data ∪ enhanced_patterns plain
  | None =>
      sheets (enhanced_merge_patterns store1 store2) !! sheet
      = sheets store1 !! sheet
  end.
Proof.
  rewrite lookup_enhanced_merge, lookup_merge_patterns.
  destruct (sheets store2 !! sheet) as [sheet_data|]; [|done].
  do 2 eexists. split; [reflexivity|]. split; [reflexivity|].
  destruct (merge_sheet_patterns_fields
              (merge_sheet (default fresh_entry (sheets store1 !! sheet))
                           sheet_data) sheet_data) as (-> & -> & -> & ->).
  split_and!; try done. apply enhanced_patterns_merge_sheet_patterns.
Qed.

Lemma enhanced_sheet_twice target payload :
  merge_sheet_patterns
    (merge_sheet (merge_sheet_patterns (merge_sheet target payload) payload)
                 payload)
    payload
  = merge_sheet_patterns (merge_sheet target payload) payload.
Proof.
  set (once := merge_sheet_patterns (merge_sheet target payload) payload).
  destruct (merge_sheet_patterns_fields (merge_sheet target payload) payload)
    as (Hm & Hc & Hp & Hv).
  destruct (merge_sheet_patterns_fields (merge_sheet once payload) payload)
    as (Hm' & Hc' & Hp' & Hv').
  pose proof (merge_sheet_twice_all target payload) as Htwice.
  apply sheet_entry_eq.
  - rewrite Hm'. fold once in Hm. 
    apply (f_equal header_map) in Htwice.
    cbn [merge_sheet header_map] in *. by rewrite Hm.
  - rewrite Hc'. apply (f_equal columns_to_fill) in Htwice.
    fold once in Hc. cbn [merge_sheet columns_to_fill] in *. by rewrite Hc.
  - rewrite Hp'. apply (f_equal column_positions) in Htwice.
    fold once in Hp. cbn [merge_sheet column_positions] in *. by rewrite Hp.
  - rewrite Hv'. apply (f_equal verifications) in Htwice.
    fold once in Hv. cbn [merge_sheet verifications] in *. by rewrite Hv.
  - rewrite enhanced_patterns_merge_sheet_patterns.
    cbn [merge_sheet enhanced_patterns]. unfold once.
    rewrite enhanced_patterns_merge_sheet_patterns.
    by rewrite (assoc_L (∪)), (idemp_L (∪)).
Qed.

(** X21. Learning the same patterns twice changes nothing at all, under
    [merge_patterns] and under [enhanced_merge_patterns] alike: merging
    incoming patterns into the outcome of their own merge gives that
    outcome again, the whole store and not only its set-valued fields. *)
Theorem merging_twice store1 store2 :
  merge_patterns (merge_patterns store1 store2) store2
  = merge_patterns store1 store2
  ∧ enhanced_merge_patterns (enhanced_merge_patterns store1 store2) store2
    = enhanced_merge_patterns store1 store2.
Proof.
  split; apply store_eq; intros sheet.
  - rewrite !lookup_merge_patterns.
    destruct (sheets store2 !! sheet) as [payload|]; [|done].
    cbn [default]. f_equal. apply merge_sheet_twice_all.
  - rewrite !lookup_enhanced_merge.
    destruct (sheets store2 !! sheet) as [payload|]; [|done].
    cbn [default]. f_equal. apply enhanced_sheet_twice.
Qed.

End merging_theory.

(** ** identifier.py: the data sheets and the sheet-first scoring *)

Section sheets_theory.
Import Py CrossSheet SheetFirst Notions.

(** X22. The three functions that pick the data sheets of a document (in
    [identifier.py], [trainer.py] and [cross_sheet_analyzer.py]) give the
    same list: the names, in the order of the document, of the sheets with
    columns and data whose lower-cased name holds none of the skip words
    and which have at least two rows and three columns. *)
Theorem find_data_sheets_agree (json_obj : document) :
  find_data_sheets json_obj = _find_data_sheets json_obj
  ∧ find_data_sheets json_obj `sublist_of` json_obj.*1
  ∧ ∀ name,
      name ∈ find_data_sheets json_obj ↔
      ∃ sheet, (name, Some sheet) ∈ json_obj
        ∧ (∀ skip_word, skip_word ∈ skip_words →
             contains skip_word (lower name) = false)
        ∧ 2 ≤ length (HeaderDetector.data sheet)
        ∧ 3 ≤ length (HeaderDetector.columns sheet).
Proof.
  assert (find_data_sheets json_obj = _find_data_sheets json_obj) as Heq.
  { unfold find_data_sheets, _find_data_sheets.
    induction json_obj as [|[name [sheet|]] l IH]; [done| |];
      cbn [omap list_omap mbind option_bind]; [|exact IH].
    destruct (existsb _ _); [exact IH|]. cbv zeta.
    do 2 case_bool_decide; first [lia | by rewrite IH]. }
  split; [exact Heq|]. rewrite Heq.
  split; [apply find_data_sheets_sublist|].
  intros name. unfold _find_data_sheets. rewrite list_elem_of_omap. split.
  - intros ([n [sheet|]] & Hin & Hf); cbn [mbind option_bind] in Hf; [|done].
    destruct (existsb _ _) eqn:Hskip; [done|].
    case_bool_decide as Hsize; [|done]. injection Hf as ->.
    exists sheet. split_and!; [done| |lia|lia].
    intros skip_word Hw. apply not_true_iff_false. intros Hc.
    apply not_true_iff_false in Hskip. apply Hskip, existsb_exists.
    exists skip_word. split; [by apply list_elem_of_In|done].
  - intros (sheet & Hin & Hskip & Hrows & Hcols).
    exists (name, Some sheet). split; [done|]. cbn [mbind option_bind].
    destruct (existsb _ _) eqn:Hex.
    + apply existsb_exists in Hex as (w & Hw%list_elem_of_In & Hc).
      by rewrite Hskip in Hc.
    + by rewrite bool_decide_eq_true_2.
Qed.

End sheets_theory.

Section sheet_first_theory.
Import Py Store CrossSheet SheetFirst Notions Binary64.

Context (verify_label : string → string * float * string).

(** [min(x, 1.0)] is [x] when [x] is at most 1. *)
Lemma cap_id x : PrimFloat.leb x 1 = true → cap x = x.
Proof.
  intros Hx. unfold cap, fmin. by rewrite (leb_not_ltb _ _ Hx).
Qed.

(** X23. The sheet-first identification of one column: the confidence
    never exceeds 1; the column is filled exactly when its header is among
    the sheet's learned columns to fill or the confidence reaches 0.8 times
    the threshold, so a learned header is filled whatever the threshold;
    and it is flagged as learned exactly when its header is a learned
    one.  The confidence, the product with 0.8 and their comparison are
    those of binary64. *)
Theorem score_column_decision columns_to_fill verifications
    enhanced_patterns enhanced_used enhancement_confidence threshold idx
    raw :
  let c := score_column verify_label columns_to_fill verifications
             enhanced_patterns enhanced_used enhancement_confidence
             threshold idx raw in
  SheetFirst.position c = idx ∧ SheetFirst.header c = raw
  ∧ PrimFloat.ltb 1 (SheetFirst.confidence c) = false
  ∧ (SheetFirst.decision c = "fill"
     ∧ (raw ∈ columns_to_fill
        ∨ PrimFloat.leb (threshold * 0.8) (SheetFirst.confidence c) = true)
     ∨ SheetFirst.decision c = "unknown"
       ∧ (raw ∉ columns_to_fill)
       ∧ PrimFloat.leb (threshold * 0.8) (SheetFirst.confidence c) = false)
  ∧ (raw ∈ columns_to_fill → SheetFirst.decision c = "fill")
  ∧ (SheetFirst.learned_fillable c = true ↔ raw ∈ columns_to_fill).
Proof.
  cbv zeta. unfold score_column. cbv zeta.
  repeat match goal with
         | |- context [let '(_, _) := ?x in _] => destruct x as [? ?] eqn:?
         end.
  cbn [SheetFirst.position SheetFirst.header SheetFirst.confidence
         SheetFirst.decision SheetFirst.learned_fillable].
  assert (raw ∈ set_of columns_to_fill ↔ raw ∈ columns_to_fill) as Hset.
  { unfold set_of. apply elem_of_list_to_set. }
  split_and!; [done|done|apply cap_le_1|..].
  - case_bool_decide as Hlearned; cbn [orb].
    { left. split; [done|]. left. by apply Hset. }
    destruct (PrimFloat.leb _ _) eqn:Hle.
    + left. split; [done|]. by right.
    + right. split_and!; [done|by rewrite <-Hset|done].
  - intros Hin%Hset. by rewrite bool_decide_eq_true_2.
  - rewrite <-Hset. case_bool_decide as Hlearned; cbn [orb]; [done|].
    destruct (PrimFloat.leb _ _); split; done.
Qed.

(** What the live verdict, the value patterns and the enhanced headers can
    add up to. *)
Lemma live_share (conf : float) :
  PrimFloat.leb conf 1 = true → PrimFloat.leb (0 + conf * 0.3) 0.3 = true.
Proof.
  intros Hconf.
  assert (PrimFloat.leb (conf * 0.3) 0.3 = true) as Hle
    by (by apply (mul_le conf 1); [vm_compute|]).
  apply leb_rank in Hle as (a & b & Ha & Hb & Hab).
  apply leb_rank. exists a, b. by rewrite add_zero_rank.
Qed.

Lemma below_enhanced_threshold (score threshold : float) :
  PrimFloat.leb score 0.55 = true → PrimFloat.leb 0.7 threshold = true →
  cap score = score ∧ PrimFloat.leb (threshold * 0.8) score = false.
Proof.
  intros Hscore Hthreshold. split.
  - apply cap_id. apply (leb_trans _ 0.55); [done|by vm_compute].
  - apply ltb_not_leb.
    apply (ltb_leb_trans _ 0.5599999999999999);
      [|by apply (mul_ge threshold 0.7); [vm_compute|]].
    apply (leb_ltb_trans _ 0.55); [done|by vm_compute].
Qed.

(** X24. A header the store has never seen (it is not among the sheet's
    learned columns to fill and has no stored verdict) is never filled by
    the sheet-first identification at a threshold of 0.7 or more, whatever
    the live verifier says with a confidence of at most 1: the live
    verdict, the value patterns and the enhanced headers add up to 0.55 at
    most. *)
Theorem unseen_header_stays_unknown columns_to_fill verifications
    enhanced_patterns enhanced_used enhancement_confidence threshold idx
    raw :
  raw ∉ columns_to_fill → verifications !! raw = None →
  PrimFloat.leb (verify_label raw).1.2 1 = true →
  PrimFloat.leb 0.7 threshold = true →
  let c := score_column verify_label columns_to_fill verifications
             enhanced_patterns enhanced_used enhancement_confidence
             threshold idx raw in
  SheetFirst.decision c = "unknown"
  ∧ PrimFloat.leb (SheetFirst.confidence c) 0.55 = true
  ∧ SheetFirst.verified_by c = (verify_label raw).2.
Proof.
  intros Hnew Hverdict Hlive Hthreshold. cbv zeta.
  unfold score_column. cbv zeta. rewrite Hverdict.
  rewrite bool_decide_eq_false_2
    by (unfold set_of; by rewrite elem_of_list_to_set).
  destruct (verify_label raw) as [[label conf] method]. cbn [fst snd] in *.
  pose proof (live_share conf Hlive) as Hshare.
  set (live := (0 + conf * 0.3)%float) in *.
  assert (PrimFloat.leb live 0.55 = true) as H0
    by (apply (leb_trans _ 0.3); [done|by vm_compute]).
  assert (PrimFloat.leb (live + 0.1) 0.4 = true) as Hpatterns
    by (by apply (add_le live 0.3); [vm_compute|]).
  assert (PrimFloat.leb (live + 0.1) 0.55 = true) as H1
    by (apply (leb_trans _ 0.4); [done|by vm_compute]).
  assert (PrimFloat.leb (live + 0.15) 0.55 = true) as H2.
  { apply (leb_trans _ 0.45); [|by vm_compute].
    by apply (add_le live 0.3); [vm_compute|]. }
  assert (PrimFloat.leb (live + 0.1 + 0.15) 0.55 = true) as H3
    by (by apply (add_le (live + 0.1) 0.4); [vm_compute|]).
  destruct (enhanced_patterns !! raw) as [pattern_data|];
    [case_bool_decide|];
    destruct (enhanced_used && PrimFloat.ltb 0.8 enhancement_confidence);
    cbn [SheetFirst.decision SheetFirst.confidence SheetFirst.verified_by
           orb];
    match goal with
    | |- context [cap ?score] =>
        let Hcap := fresh in
        let Hlow := fresh in
        assert (PrimFloat.leb score 0.55 = true) as Hlow by assumption;
        destruct (below_enhanced_threshold score threshold Hlow Hthreshold)
          as [-> ->]; done
    end.
Qed.

End sheet_first_theory.

Section sheet_first_examples.
Import Py Store CrossSheet SheetFirst Notions.

Lemma unseen_header_stays_unknown_witness :
  SheetFirst.decision
    (score_column plain_verify ["rate"] ∅ ∅ true 0.9%float 0.7%float 2
       "currency")
  = "unknown".
Proof.
  apply (unseen_header_stays_unknown plain_verify ["rate"] ∅ ∅ true
           0.9%float 0.7%float 2 "currency").
  - intros Hin. apply list_elem_of_singleton in Hin. discriminate Hin.
  - apply lookup_empty.
  - by vm_compute.
  - by vm_compute.
Defined.

(** The sums and the product are rounded: at the threshold 0.75 a column
    whose verdict, pattern analysis and value patterns add up to 0.6 stays
    unknown, as 0.75 x 0.8 is the binary64 number just above 0.6. *)
Lemma score_column_rounding :
  let c :=
    score_column plain_verify []
      {[ "rate" :=
           Verdict (Verification (Some "rate") (Some 1%float) (Some "openai"))
             (Some (PatternAnalysis (Some 1%float) [])) ]}
      {[ "rate" := PatternData None ["numeric"] ]}
      false 0 0.75 1 "rate" in
  SheetFirst.confidence c = 0.6%float ∧ SheetFirst.decision c = "unknown".
Proof. by vm_compute. Qed.

End sheet_first_examples.

(** ** verifier.py: the mock verifier *)

Section verifier_theory.
Import Py Verifier Notions.

Context (normalize : string → string)
        (CONTROLLED_VOCAB : list (string * list string)).

Lemma first_answer_Some {A B} (f : A → option B) l y :
  first_answer f l = Some y → ∃ x, x ∈ l ∧ f x = Some y.
Proof.
  induction l as [|x l IH]; [done|]. cbn [first_answer].
  destruct (f x) as [z|] eqn:Hx.
  - intros [= ->]. exists x. split; [apply list_elem_of_here|done].
  - intros (x' & Hin & Hx')%IH. exists x'. split; [by right|done].
Qed.

Lemma first_answer_None {A B} (f : A → option B) l :
  first_answer f l = None → ∀ x, x ∈ l → f x = None.
Proof.
  induction l as [|x l IH]; [by intros _ ? ?%elem_of_nil|].
  cbn [first_answer]. destruct (f x) as [z|] eqn:Hx; [done|].
  intros Hl x' [->|Hin]%elem_of_cons; [done|by apply IH].
Qed.

Lemma match_label_None n label variants :
  match_label normalize n (label, variants) = None →
  n ≠ replace_char "_" " " label ∧ ∀ v, v ∈ variants → n ≠ normalize v.
Proof.
  unfold match_label. case_bool_decide as Hexact; [done|].
  destruct (existsb _ _) eqn:Hvariant; [done|]. intros _. split; [done|].
  intros v Hv Hn. apply not_true_iff_false in Hvariant. apply Hvariant.
  apply existsb_exists. exists v. split; [by apply list_elem_of_In|].
  by apply bool_decide_eq_true.
Qed.

(** X25. The verdict of the mock verifier is one of four: an exact match
    of a label (confidence 0.95), a match of one of its variants (0.9), a
    token of a label inside the normalized header when no label matches
    exactly or by a variant (0.6), and "unknown" (0.3) when no label
    matches in any of these ways.  So its confidence lies between 0.3 and
    0.95. *)
Theorem mock_verify_label_verdict raw_header :
  let n := normalize raw_header in
  let verdict := mock_verify_label normalize CONTROLLED_VOCAB raw_header in
  let label := verdict.1.1 in
  let confidence := verdict.1.2 in
  let method := verdict.2 in
  (PrimFloat.leb 0.3 confidence = true
   ∧ PrimFloat.leb confidence 0.95 = true)
  ∧ (method = "mock-exact" ∧ confidence = 0.95%float
     ∧ (∃ variants, (label, variants) ∈ CONTROLLED_VOCAB)
     ∧ n = replace_char "_" " " label
     ∨ method = "mock-variant" ∧ confidence = 0.9%float
       ∧ (∃ variants v, (label, variants) ∈ CONTROLLED_VOCAB
            ∧ v ∈ variants ∧ n = normalize v)
     ∨ method = "mock-fuzzy" ∧ confidence = 0.6%float
       ∧ (∃ variants tok, (label, variants) ∈ CONTROLLED_VOCAB
            ∧ tok ∈ split_on "_" label ∧ contains tok n = true)
       ∧ unmatched normalize CONTROLLED_VOCAB n
     ∨ method = "mock-unknown" ∧ confidence = 0.3%float ∧ label = "unknown"
       ∧ unmatched normalize CONTROLLED_VOCAB n
       ∧ ∀ label' variants tok, (label', variants) ∈ CONTROLLED_VOCAB →
           tok ∈ split_on "_" label' → contains tok n = false).
Proof.
  cbv zeta. unfold mock_verify_label. cbv zeta.
  set (n := normalize raw_header).
  destruct (first_answer (match_label normalize n) CONTROLLED_VOCAB)
    as [verdict|] eqn:Hfirst.
  { apply first_answer_Some in Hfirst as ([label variants] & Hin & Hm).
    unfold match_label in Hm. case_bool_decide as Hexact.
    - injection Hm as <-. cbn [fst snd]. split; [split; by vm_compute|].
      left. split_and!; try done. by exists variants.
    - destruct (existsb _ _) eqn:Hvariant; [|done]. injection Hm as <-.
      cbn [fst snd]. split; [split; by vm_compute|].
      right; left. split_and!; try done.
      apply existsb_exists in Hvariant as (v & Hv%list_elem_of_In & Hn).
      apply bool_decide_eq_true in Hn. by exists variants, v. }
  assert (unmatched normalize CONTROLLED_VOCAB n) as Hunmatched.
  { intros label variants Hin. apply match_label_None.
    by apply (first_answer_None _ _ Hfirst). }
  destruct (first_answer (fuzzy_label n) CONTROLLED_VOCAB)
    as [verdict|] eqn:Hsecond.
  { apply first_answer_Some in Hsecond as ([label variants] & Hin & Hm).
    unfold fuzzy_label in Hm.
    destruct (existsb _ _) eqn:Htok; [|done]. injection Hm as <-.
    cbn [fst snd]. split; [split; by vm_compute|].
    right; right; left. split_and!; try done.
    apply existsb_exists in Htok as (tok & Htok%list_elem_of_In & Hc).
    by exists variants, tok. }
  cbn [fst snd]. split; [split; by vm_compute|].
  right; right; right. split_and!; try done.
  intros label variants tok Hin Htok.
  pose proof (first_answer_None _ _ Hsecond _ Hin) as Hm.
  unfold fuzzy_label in Hm. destruct (existsb _ _) eqn:Hex; [done|].
  apply not_true_iff_false. intros Hc.
  apply not_true_iff_false in Hex. apply Hex, existsb_exists.
  exists tok. split; [by apply list_elem_of_In|done].
Qed.

End verifier_theory.

(** ** Merging and the bound of the confidences *)

Section bounded_theory.
Import Py Store EnhancedMerge Notions.

Lemma merge_sheet_verifications target payload h v :
  verifications (merge_sheet target payload) !! h = Some v →
  verifications payload !! h = Some v ∨ verifications target !! h = Some v.
Proof.
  cbn [merge_sheet verifications]. rewrite lookup_merge_last.
  intros [?|[_ ?]]%lookup_union_Some_raw; auto.
Qed.

(** X26. Merging keeps the invariant of the data model that the
    identification relies on: when no stored verdict of the store or of
    the incoming patterns has a confidence above 1, none of the merged
    store has, under [merge_patterns] and under [enhanced_merge_patterns]
    alike. *)
Theorem merging_keeps_confidences_bounded (S I : store) :
  confidences_bounded S → confidences_bounded I →
  confidences_bounded (merge_patterns S I)
  ∧ confidences_bounded (enhanced_merge_patterns S I).
Proof.
  intros HS HI.
  assert (∀ name target payload h v,
            sheets I !! name = Some payload →
            target = default fresh_entry (sheets S !! name) →
            verifications (merge_sheet target payload) !! h = Some v →
            PrimFloat.leb (default 0%float (v_confidence v)) 1 = true)
    as Hsheet.
  { intros name target payload h v Hpayload -> Hv.
    apply merge_sheet_verifications in Hv as [Hv|Hv].
    - by eapply HI.
    - destruct (sheets S !! name) as [entry|] eqn:Hentry; cbn [default] in Hv.
      + by eapply HS.
      + cbn [fresh_entry verifications] in Hv. by rewrite lookup_empty in Hv. }
  split; intros name entry h v Hentry Hv.
  - rewrite lookup_merge_patterns in Hentry.
    destruct (sheets I !! name) as [payload|] eqn:Hpayload.
    + injection Hentry as <-. by eapply Hsheet.
    + by eapply HS.
  - rewrite lookup_enhanced_merge in Hentry.
    destruct (sheets I !! name) as [payload|] eqn:Hpayload.
    + injection Hentry as <-.
      destruct (merge_sheet_patterns_fields
                  (merge_sheet (default fresh_entry (sheets S !! name))
                               payload) payload) as (_ & _ & _ & Hver).
      rewrite Hver in Hv. by eapply Hsheet.
    + by eapply HS.
Qed.

Lemma lane_patterns_bounded : confidences_bounded lane_patterns.
Proof.
  intros name entry h v Hentry Hv. cbn in Hentry.
  apply lookup_singleton_Some in Hentry as [_ <-].
  cbn [lane_payload verifications] in Hv.
  apply lookup_singleton_Some in Hv as [_ <-]. by vm_compute.
Qed.

Lemma merging_keeps_confidences_bounded_witness :
  confidences_bounded (merge_patterns rate_store lane_patterns)
  ∧ confidences_bounded (enhanced_merge_patterns rate_store lane_patterns).
Proof.
  apply (merging_keeps_confidences_bounded rate_store lane_patterns).
  - exact rate_store_bounded.
  - exact lane_patterns_bounded.
Defined.

End bounded_theory.

(** ** The patterns of the filled values *)

Section value_patterns_theory.
Import Py Collections ValuePatterns Notions.

(** What the two thresholds mean for counts up to 200, in binary64: a
    share above 0.7 is more than seven tenths, a share above 0.5 more than
    a half. *)
Lemma shares_ok :
  forallb (λ t,
     forallb (λ k,
        implb (PrimFloat.ltb 0.7 (truediv k t)) (7 * t <? 10 * k)
        && implb (PrimFloat.ltb 0.5 (float_of_Z (Z.of_nat k) / float_of_nat t))
                 (t <? 2 * k))
       (seq 0 (S t)))
    (seq 1 200) = true.
Proof. vm_compute. reflexivity. Qed.

Lemma shares_spec k t :
  1 ≤ t ≤ 200 → k ≤ t →
  (PrimFloat.ltb 0.7 (truediv k t) = true → 7 * t < 10 * k)
  ∧ (PrimFloat.ltb 0.5 (float_of_Z (Z.of_nat k) / float_of_nat t) = true →
     t < 2 * k).
Proof.
  intros Ht Hk. pose proof shares_ok as Hall.
  rewrite forallb_forall in Hall.
  assert (In t (seq 1 200)) as Hin by (apply in_seq; lia).
  apply Hall in Hin. rewrite forallb_forall in Hin.
  assert (In k (seq 0 (S t))) as Hik by (apply in_seq; lia).
  apply Hin in Hik. apply andb_true_iff in Hik as [H7 H5].
  split; intros Hlt.
  - rewrite Hlt in H7. cbn [implb] in H7. by apply Nat.ltb_lt in H7.
  - rewrite Hlt in H5. cbn [implb] in H5. by apply Nat.ltb_lt in H5.
Qed.

(** A match of [^[class]+$] starts with a character of the class. *)
Lemma re_match_class_head p v :
  re_match (Seq [Bol; Plus (Cls p); Eol]) v = true →
  ∃ c s, chars v = c :: s ∧ p c = true.
Proof.
  unfold re_match. intros Hm%bool_decide_eq_true. revert Hm.
  unfold match_at. cbn [Seq Plus run].
  destruct (chars v) as [|c s]; [by intros [? ?]|].
  destruct (p c) eqn:Hc; [|by intros [? ?]]. intros _. by exists c, s.
Qed.

Lemma exclusive_counts {A} (P Q : A → Prop) `{!∀ x, Decision (P x)}
    `{!∀ x, Decision (Q x)} (l : list A) :
  (∀ x, P x → Q x → False) →
  length (filter P l) + length (filter Q l) ≤ length l.
Proof.
  intros Hex. induction l as [|x l IH]; [done|].
  destruct (decide (P x)) as [HP|HP], (decide (Q x)) as [HQ|HQ];
    [by destruct (Hex x)|..];
    rewrite ?(filter_cons_True P), ?(filter_cons_False P),
      ?(filter_cons_True Q), ?(filter_cons_False Q) by done;
    cbn [length]; lia.
Qed.

Lemma numeric_or_alphabetic (l : list string) :
  length (filter (λ v, re_match numeric_value (strip v)) l)
  + length (filter (λ v, re_match alphabetic_value (strip v)) l)
  ≤ length l.
Proof.
  apply exclusive_counts. intros v Hn Ha.
  apply Is_true_eq_true, re_match_class_head in Hn as (c & s & Hv & Hc).
  apply Is_true_eq_true, re_match_class_head in Ha as (c' & s' & Hv' & Hc').
  rewrite Hv in Hv'. injection Hv' as <- _. clear -Hc Hc'.
  destruct c as [[] [] [] [] [] [] [] []]; vm_compute in Hc, Hc';
    discriminate.
Qed.

Lemma first_seen_spec seen l :
  NoDup (first_seen seen l)
  ∧ ∀ x, x ∈ first_seen seen l → x ∈ l ∧ x ∉ seen.
Proof.
  revert seen. induction l as [|y l IH]; intros seen; cbn [first_seen].
  { split; [apply NoDup_nil_2|]. by intros x ?%elem_of_nil. }
  case_bool_decide as Hy.
  - destruct (IH seen) as [Hnd Hin]. split; [done|].
    intros x [Hx Hs]%Hin. split; [by right|done].
  - destruct (IH (y :: seen)) as [Hnd Hin]. split.
    + apply NoDup_cons. split; [|done]. intros [_ Hs]%Hin.
      apply Hs. by left.
    + intros x [->|[Hx Hs]%Hin]%elem_of_cons.
      * split; [by left|done].
      * split; [by right|]. intros Hseen. apply Hs. by right.
Qed.

(** The frequent parts: at most three, distinct, each counted twice or
    more. *)
Lemma frequent_parts (parts : list string) :
  let frequent := (filter (λ item, 2 ≤ item.2) (most_common 3 parts)).*1 in
  length frequent ≤ 3 ∧ NoDup frequent
  ∧ ∀ p, p ∈ frequent → 2 ≤ length (filter (λ y, y = p) parts).
Proof.
  cbv zeta. unfold most_common.
  set (items := sorted_desc _ (counter parts)).
  assert (items ≡ₚ counter parts) as Hperm by apply sorted_desc_Permutation.
  assert (filter (λ item : string * nat, 2 ≤ item.2) (take 3 items)
          `sublist_of` items) as Hsub.
  { etrans; [apply sublist_filter|apply sublist_take]. }
  assert ((counter parts).*1 = first_seen [] parts) as Hkeys.
  { unfold counter. rewrite <-list_fmap_compose. apply list_fmap_id. }
  split_and!.
  - rewrite length_fmap. etrans; [apply length_filter|].
    rewrite length_take. lia.
  - eapply sublist_NoDup; [|by apply fmap_sublist].
    rewrite Hperm, Hkeys. apply first_seen_spec.
  - intros p ([q n] & -> & Hq)%list_elem_of_fmap.
    apply list_elem_of_filter in Hq as [Hn Hq]. cbn [fst snd] in *.
    apply elem_of_take in Hq as (i & Hq & _).
    apply list_elem_of_lookup_2 in Hq. rewrite Hperm in Hq.
    unfold counter in Hq. apply list_elem_of_fmap in Hq as (x & [= -> ->] & _).
    done.
Qed.

Lemma filter_fmap_length {A} (f : A → string) (p : string) (l : list A) :
  length (filter (λ y, y = p) (f <$> l)) = length (filter (λ x, f x = p) l).
Proof.
  induction l as [|x l IH]; [done|]. cbn [fmap list_fmap].
  destruct (decide (f x = p));
    [rewrite !filter_cons_True by done|rewrite !filter_cons_False by done];
    cbn [length]; by rewrite IH.
Qed.

Lemma filter_filter_length {A} (P Q : A → Prop) `{!∀ x, Decision (P x)}
    `{!∀ x, Decision (Q x)} (l : list A) :
  length (filter Q (filter P l)) = length (filter (λ x, P x ∧ Q x) l).
Proof.
  induction l as [|x l IH]; [done|].
  destruct (decide (P x)) as [HP|HP], (decide (Q x)) as [HQ|HQ];
    rewrite ?(filter_cons_True P), ?(filter_cons_False P) by done;
    rewrite ?(filter_cons_True Q), ?(filter_cons_False Q) by done;
    rewrite ?(filter_cons_True (λ x, P x ∧ Q x)),
      ?(filter_cons_False (λ x, P x ∧ Q x)) by tauto;
    cbn [length]; by rewrite ?IH.
Qed.

(** X27. [learn_value_patterns] returns the empty dict for an empty list
    only.  Otherwise, for up to 200 values (the trainer passes ten at
    most), it reports at most one of the value types "numeric",
    "alphabetic" and "mixed"; it lists at most three prefixes and three
    suffixes, each of them once, and each the first (last) two characters
    of at least two values; and it lists none for fewer than three
    values. *)
Theorem learn_value_patterns_facts column_values :
  length column_values ≤ 200 →
  match learn_value_patterns column_values with
  | None => column_values = []
  | Some patterns =>
      column_values ≠ []
      ∧ (value_types patterns = [] ∨ value_types patterns = ["numeric"]
         ∨ value_types patterns = ["alphabetic"]
         ∨ value_types patterns = ["mixed"])
      ∧ length (common_prefixes patterns) ≤ 3
      ∧ NoDup (common_prefixes patterns)
      ∧ (∀ p, p ∈ common_prefixes patterns →
           2 ≤ length (filter (λ v, 2 ≤ len v ∧ first_chars 2 v = p)
                              column_values))
      ∧ length (common_suffixes patterns) ≤ 3
      ∧ NoDup (common_suffixes patterns)
      ∧ (∀ s, s ∈ common_suffixes patterns →
           2 ≤ length (filter (λ v, 2 ≤ len v ∧ last_chars 2 v = s)
                              column_values))
      ∧ (length column_values < 3 →
         common_prefixes patterns = [] ∧ common_suffixes patterns = [])
  end.
Proof.
  intros Hlen. unfold learn_value_patterns.
  case_bool_decide as Hempty; [done|]. cbv zeta.
  set (numeric_count := length (filter _ column_values)).
  set (alpha_count := length (filter _ column_values)).
  pose proof (numeric_or_alphabetic column_values) as Hcounts.
  fold numeric_count alpha_count in Hcounts.
  assert (1 ≤ length column_values) as Hpos.
  { destruct column_values; [done|simpl; lia]. }
  set (long_enough := filter (λ v, 2 ≤ len v) column_values).
  destruct (frequent_parts (first_chars 2 <$> long_enough)) as (Hp3 & Hpnd & Hpc).
  destruct (frequent_parts (last_chars 2 <$> long_enough)) as (Hs3 & Hsnd & Hsc).
  set (pair := if bool_decide (3 ≤ length column_values) then _ else _).
  assert (∃ ps ss, pair = (ps, ss)
            ∧ length ps ≤ 3 ∧ NoDup ps
            ∧ (∀ p, p ∈ ps →
                 2 ≤ length (filter (λ v, 2 ≤ len v ∧ first_chars 2 v = p)
                                    column_values))
            ∧ length ss ≤ 3 ∧ NoDup ss
            ∧ (∀ s, s ∈ ss →
                 2 ≤ length (filter (λ v, 2 ≤ len v ∧ last_chars 2 v = s)
                                    column_values))
            ∧ (length column_values < 3 → ps = [] ∧ ss = []))
    as (ps & ss & -> & Hps).
  { unfold pair. case_bool_decide as H3.
    - do 2 eexists. split; [reflexivity|]. split_and!; try done.
      + intros p Hp%Hpc. rewrite filter_fmap_length in Hp.
        unfold long_enough in Hp. by rewrite filter_filter_length in Hp.
      + intros s Hs%Hsc. rewrite filter_fmap_length in Hs.
        unfold long_enough in Hs. by rewrite filter_filter_length in Hs.
      + lia.
    - exists [], []. split; [reflexivity|].
      split_and!; try done; try apply NoDup_nil_2; try (simpl; lia);
        by intros ? ?%elem_of_nil. }
  cbn [value_types common_prefixes common_suffixes].
  split; [done|]. split; [|exact Hps].
  set (mixed_count := (_ - _ - _)%Z).
  assert (mixed_count
          = Z.of_nat (length column_values - numeric_count - alpha_count))
    as -> by (unfold mixed_count; lia).
  destruct (shares_spec numeric_count (length column_values)) as [Hn _];
    [lia..|].
  destruct (shares_spec alpha_count (length column_values)) as [Ha _];
    [lia..|].
  destruct (shares_spec (length column_values - numeric_count - alpha_count)
              (length column_values)) as [_ Hm]; [lia..|].
  destruct (PrimFloat.ltb 0.7 (truediv numeric_count _)) eqn:En;
    destruct (PrimFloat.ltb 0.7 (truediv alpha_count _)) eqn:Ea;
    destruct (PrimFloat.ltb 0.5 _) eqn:Em; cbn [app];
    try specialize (Hn eq_refl); try specialize (Ha eq_refl);
    try specialize (Hm eq_refl); try lia; auto.
Qed.

End value_patterns_theory.

Section value_patterns_examples.
Import Py Collections ValuePatterns Notions.

Lemma learn_value_patterns_facts_witness :
  ∃ patterns,
    learn_value_patterns ["USD 10"; "USD 20"; "EUR 20"; "7"] = Some patterns
    ∧ value_types patterns = ["mixed"]
    ∧ common_prefixes patterns = ["US"]
    ∧ common_suffixes patterns = ["20"]
    ∧ NoDup (common_prefixes patterns)
    ∧ ∀ s, s ∈ common_suffixes patterns →
        2 ≤ length (filter (λ v, 2 ≤ len v ∧ last_chars 2 v = s)
                           ["USD 10"; "USD 20"; "EUR 20"; "7"]).
Proof.
  pose proof (learn_value_patterns_facts
                ["USD 10"; "USD 20"; "EUR 20"; "7"] ltac:(simpl; lia))
    as Hfacts.
  destruct (learn_value_patterns ["USD 10"; "USD 20"; "EUR 20"; "7"])
    as [patterns|] eqn:Hlearn; [|discriminate Hfacts].
  destruct Hfacts as (_ & _ & _ & Hprefixes & _ & _ & _ & Hsuffixes & _).
  exists patterns. split; [reflexivity|].
  split_and!; [| | |exact Hprefixes|exact Hsuffixes];
    vm_compute in Hlearn; by injection Hlearn as <-.
Defined.

End value_patterns_examples.

(** ** enhanced_trainer.py: what a pair of documents teaches *)

Section training_theory.
Import Py EnhancedTrainer ValuePatterns EnhancedLearning Notions.

(** A column without a sampled value in the filled version is not
    fillable. *)
Lemma fillable_has_sample empty_rows filled_rows key :
  fillable_of (analyze_column_filling_patterns empty_rows filled_rows key)
  = true →
  sample_of (analyze_column_filling_patterns empty_rows filled_rows key)
  ≠ [].
Proof.
  destruct (analyze_column_filling_patterns empty_rows filled_rows key)
    as [fl c r|a] eqn:Ha; cbn [fillable_of sample_of].
  { revert Ha. unfold analyze_column_filling_patterns.
    case_bool_decide; [by intros [= <- _ _]|].
    by destruct (score_signals _ _ _ _ _). }
  intros Hfillable Hsample.
  destruct (analyzed_fields _ _ _ _ Ha)
    as (Hec & Hfc & Htot & Hpos & Her & Hfr).
  destruct (analyzed_signals _ _ _ _ Ha)
    as (d & n & s & Hc & Hr & Hf & Hsam & Hsig).
  assert (filter non_empty (column_values filled_rows key) = []) as Hnil.
  { rewrite Hsample in Hsam.
    by destruct (filter non_empty (column_values filled_rows key)). }
  destruct (Hsig Hnil) as (-> & -> & Hd).
  pose proof (length_column_values empty_rows key) as Hle.
  pose proof (length_column_values filled_rows key) as Hlf.
  pose proof (length_filter non_empty (column_values empty_rows key)) as Hfe.
  assert (d = false) as ->.
  { destruct d; [|done]. specialize (Hd eq_refl).
    pose proof (size_set_of_le
                  (filter non_empty (column_values empty_rows key))) as Hsz.
    assert (size (set_of (filter non_empty (column_values empty_rows key)))
            ≤ 200) as Hm by lia.
    by rewrite no_scaled_count_below_zero_spec in Hd. }
  rewrite Hnil in Hfc. cbn [length] in Hfc.
  rewrite Hfr, Her, Hfc in Hc.
  rewrite score_signals_nothing_filled in Hc by lia.
  cbn [fst] in Hc. rewrite Hf, Hc in Hfillable. by vm_compute in Hfillable.
Qed.

Lemma last_filter_snoc {A} (P : A → Prop) `{!∀ x, Decision (P x)} l x :
  last (filter P (l ++ [x]))
  = if decide (P x) then Some x else last (filter P l).
Proof.
  rewrite filter_app. destruct (decide (P x)) as [HP|HP].
  - rewrite filter_cons_True by done. apply last_snoc.
  - rewrite filter_cons_False by done. by rewrite app_nil_r.
Qed.

Lemma last_filter_seq (P : nat → Prop) `{!∀ x, Decision (P x)} start n idx :
  last (filter P (seq start n)) = Some idx
  ↔ start ≤ idx < start + n ∧ P idx ∧ ∀ j, idx < j < start + n → ¬ P j.
Proof.
  induction n as [|n IH].
  { simpl. split; [done|]. intros [? _]. lia. }
  rewrite seq_S, last_filter_snoc. destruct (decide (P (start + n))) as [HP|HP].
  - split.
    + intros [= <-]. split_and!; [lia..|done|]. intros j ?. lia.
    + intros (Hr & Hidx & Hlast).
      destruct (decide (idx = start + n)) as [->|Hne]; [done|].
      destruct (Hlast (start + n)); [lia|done].
  - rewrite IH. split.
    + intros (Hr & Hidx & Hlast). split_and!; [lia..|done|].
      intros j Hj. destruct (decide (j = start + n)) as [->|]; [done|].
      apply Hlast. lia.
    + intros (Hr & Hidx & Hlast).
      assert (idx ≠ start + n) by (by intros ->).
      split_and!; [lia..|done|]. intros j Hj. apply Hlast. lia.
Qed.

Section loop.
Context (detect_header_row : HeaderDetector.sheet_data → list string * Z)
        (verify_label : string → string * float * string)
        (es fs : HeaderDetector.sheet_data) (headers : list string).


(** What the loop has collected after the columns [done]. *)
Lemma learn_columns_spec (done : list nat) :
  let step := learn_column detect_header_row verify_label es fs headers in
  let analysis_at := column_analysis detect_header_row es fs in
  let fillable_at raw idx :=
    named headers raw idx ∧ fillable_of (analysis_at idx) = true in
  let st := foldl step start done in
  p_columns_to_fill st
  = (λ idx, default "" (headers !! idx))
      <$> filter (λ idx, default "" (headers !! idx) ≠ ""
                         ∧ fillable_of (analysis_at idx) = true) done
  ∧ (∀ raw, p_column_positions st !! raw
            = last (filter (fillable_at raw) done))
  ∧ (∀ raw, p_enhanced_patterns st !! raw
            = (λ idx, learn_value_patterns (sample_of (analysis_at idx)))
                <$> p_column_positions st !! raw)
  ∧ (∀ raw, p_verifications st !! raw
            = (λ idx, verdict_of verify_label raw (analysis_at idx)
                        (p_enhanced_patterns st !! raw))
                <$> last (filter (named headers raw) done))
  ∧ (∀ raw, p_header_map st !! raw
            = (λ _, {[raw]}) <$> p_verifications st !! raw).
Proof.
  cbv zeta.
  induction done as [|idx done IH] using rev_ind.
  { cbn. split_and!; [done|..]; intros raw; by rewrite ?lookup_empty. }
  cbv zeta in *. rewrite foldl_app. cbn [foldl].
  set (st := foldl _ start done) in *.
  destruct IH as (Hfill & Hpos & Hpat & Hver & Hmap).
  unfold learn_column. cbv zeta.
  case_bool_decide as Hraw.
  { (* the column has no header *)
    rewrite filter_app, filter_cons_False, app_nil_r by tauto.
    split_and!; [done|..]; intros raw.
    - rewrite last_filter_snoc, decide_False; [apply Hpos|].
      intros [[Hh Hne] _]. by rewrite Hh in Hraw.
    - apply Hpat.
    - rewrite last_filter_snoc, decide_False; [apply Hver|].
      intros [Hh Hne]. by rewrite Hh in Hraw.
    - apply Hmap. }
  set (raw0 := default "" (headers !! idx)) in *.
  assert (headers !! idx = Some raw0) as Hidx.
  { unfold raw0. destruct (headers !! idx); [done|]. by destruct Hraw. }
  assert (∀ raw, named headers raw idx ↔ raw = raw0) as Hnamed.
  { intros raw. unfold named. rewrite Hidx. split.
    - by intros [[= <-] _].
    - by intros ->. }
  destruct (fillable_of (column_analysis detect_header_row es fs idx))
    eqn:Hfillable.
  - (* a fillable column *)
    pose proof (fillable_has_sample _ _ _ Hfillable) as Hsample.
    
    cbn [p_columns_to_fill p_column_positions p_header_map p_verifications
         p_enhanced_patterns].
    rewrite (bool_decide_eq_false_2 _ Hsample).
    split_and!.
    + rewrite filter_app, filter_cons_True, fmap_app by done.
      by rewrite Hfill.
    + intros raw. rewrite last_filter_snoc.
      destruct (decide (raw = raw0)) as [->|Hne].
      * rewrite lookup_insert_eq, decide_True; [done|].
        split; [by apply Hnamed|done].
      * rewrite lookup_insert_ne, decide_False, Hpos; [done| |done].
        intros [Hn _]. by apply Hnamed in Hn.
    + intros raw. destruct (decide (raw = raw0)) as [->|Hne].
      * by rewrite !lookup_insert_eq.
      * by rewrite !lookup_insert_ne, Hpat.
    + intros raw. rewrite last_filter_snoc.
      destruct (decide (raw = raw0)) as [->|Hne].
      * rewrite !lookup_insert_eq, decide_True; [done|by apply Hnamed].
      * rewrite !lookup_insert_ne, decide_False, Hver by
          (done || by rewrite Hnamed).
        done.
    + intros raw. destruct (decide (raw = raw0)) as [->|Hne].
      * rewrite !lookup_insert_eq. cbn [fmap option_fmap option_map].
        f_equal. rewrite Hmap. destruct (p_verifications st !! raw0);
          cbn [fmap option_fmap option_map default];
          [apply (idemp_L (∪))|apply (left_id_L ∅ (∪))].
      * by rewrite !lookup_insert_ne, Hmap.
  - (* a column that is not fillable *)
    cbn [p_columns_to_fill p_column_positions p_header_map p_verifications
         p_enhanced_patterns].
    split_and!.
    + rewrite filter_app, filter_cons_False, app_nil_r; [done|].
      intros [_ ?]. congruence.
    + intros raw. rewrite last_filter_snoc, decide_False; [done|].
      intros [_ ?]. congruence.
    + done.
    + intros raw. rewrite last_filter_snoc.
      destruct (decide (raw = raw0)) as [->|Hne].
      * rewrite !lookup_insert_eq, decide_True; [done|by apply Hnamed].
      * rewrite !lookup_insert_ne, decide_False, Hver by
          (done || by rewrite Hnamed).
        done.
    + intros raw. destruct (decide (raw = raw0)) as [->|Hne].
      * rewrite !lookup_insert_eq. cbn [fmap option_fmap option_map].
        f_equal. rewrite Hmap. destruct (p_verifications st !! raw0);
          cbn [fmap option_fmap option_map default];
          [apply (idemp_L (∪))|apply (left_id_L ∅ (∪))].
      * by rewrite !lookup_insert_ne, Hmap.
Qed.

End loop.


Lemma learn_value_patterns_None column_values :
  learn_value_patterns column_values = None ↔ column_values = [].
Proof.
  unfold learn_value_patterns. case_bool_decide as Hnil; [done|].
  cbv zeta. by destruct (if bool_decide (3 ≤ length column_values) then _ else _).
Qed.

Lemma named_header_at headers raw idx :
  named headers raw idx ↔ header_at headers idx = raw ∧ raw ≠ "".
Proof.
  unfold named, header_at. split.
  - by intros [-> ?].
  - intros [<- Hne]. by destruct (headers !! idx).
Qed.

Lemma named_value_column headers raw idx :
  named headers raw idx → 1 ≤ idx →
  idx ∈ CrossSheet.list_value_columns headers.
Proof.
  intros [Hidx%lookup_lt_Some _] ?. unfold CrossSheet.list_value_columns.
  apply elem_of_seq. lia.
Qed.

Section learned.
Context (detect_header_row : HeaderDetector.sheet_data → list string * Z)
        (verify_label : string → string * float * string).

Lemma columns_to_fill_learned es fs :
  let headers := chosen_headers detect_header_row es fs in
  columns_to_fill (learn_sheet detect_header_row verify_label es fs)
  ≡ₚ header_at headers
       <$> filter (λ idx, header_at headers idx ≠ ""
                          ∧ fillable_of
                              (column_analysis detect_header_row es fs idx)
                            = true)
                  (CrossSheet.list_value_columns headers).
Proof.
  intros headers.
  destruct (learn_columns_spec detect_header_row verify_label es fs headers
              (CrossSheet.list_value_columns headers)) as (Hfill & _).
  unfold learn_sheet. cbn [columns_to_fill].
  rewrite merge_sort_Permutation. fold headers. by rewrite Hfill.
Qed.

Lemma elem_of_columns_to_fill es fs raw :
  raw ∈ columns_to_fill (learn_sheet detect_header_row verify_label es fs)
  ↔ ∃ idx,
      1 ≤ idx ∧ named (chosen_headers detect_header_row es fs) raw idx
      ∧ fillable_of (column_analysis detect_header_row es fs idx) = true.
Proof.
  rewrite columns_to_fill_learned, list_elem_of_fmap. split.
  - intros (idx & -> & [[Hne Hf] Hvalue%elem_of_seq]%list_elem_of_filter).
    exists idx. split_and!; [lia| |done]. by apply named_header_at.
  - intros (idx & Hidx & [Hh Hne]%named_header_at & Hf).
    exists idx. split; [done|]. apply list_elem_of_filter.
    split; [by rewrite Hh|]. eapply named_value_column; [|done].
    by apply named_header_at.
Qed.

Lemma column_positions_learned es fs raw idx :
  let headers := chosen_headers detect_header_row es fs in
  let fillable_at raw idx :=
    1 ≤ idx ∧ named headers raw idx
    ∧ fillable_of (column_analysis detect_header_row es fs idx) = true in
  column_positions (learn_sheet detect_header_row verify_label es fs) !! raw
  = Some idx
  ↔ fillable_at raw idx ∧ ∀ j, idx < j → ¬ fillable_at raw j.
Proof.
  intros headers fillable_at.
  destruct (learn_columns_spec detect_header_row verify_label es fs headers
              (CrossSheet.list_value_columns headers)) as (_ & Hpos & _).
  unfold learn_sheet. cbn [column_positions].
  fold headers. rewrite Hpos. unfold CrossSheet.list_value_columns.
  rewrite last_filter_seq. unfold fillable_at. split.
  - intros (Hr & [Hn Hf] & Hlast). split_and!; [lia|done..|].
    intros j Hj (_ & Hnj & Hfj).
    apply (Hlast j); [|done]. destruct Hnj as [?%lookup_lt_Some _]. lia.
  - intros ((H1 & Hn & Hf) & Hlast). split_and!; [lia| |done..|].
    + destruct Hn as [?%lookup_lt_Some _]. lia.
    + intros j Hj [Hnj Hfj]. apply (Hlast j); [lia|].
      split_and!; [lia|done..].
Qed.

Lemma enhanced_patterns_learned es fs raw :
  let entry := learn_sheet detect_header_row verify_label es fs in
  enhanced_patterns entry !! raw
  = (λ idx, learn_value_patterns
              (sample_of (column_analysis detect_header_row es fs idx)))
      <$> column_positions entry !! raw.
Proof.
  destruct (learn_columns_spec detect_header_row verify_label es fs
              (chosen_headers detect_header_row es fs)
              (CrossSheet.list_value_columns
                 (chosen_headers detect_header_row es fs)))
    as (_ & _ & Hpat & _).
  exact (Hpat raw).
Qed.

Lemma enhanced_patterns_keys es fs raw :
  let entry := learn_sheet detect_header_row verify_label es fs in
  (raw ∈ columns_to_fill entry
   ↔ ∃ patterns, enhanced_patterns entry !! raw = Some (Some patterns))
  ∧ (raw ∉ columns_to_fill entry ↔ enhanced_patterns entry !! raw = None).
Proof.
  intros entry. unfold entry.
  rewrite enhanced_patterns_learned, elem_of_columns_to_fill.
  fold entry.
  destruct (column_positions entry !! raw) as [k|] eqn:Hk;
    cbn [fmap option_fmap option_map].
  - apply column_positions_learned in Hk as [(H1 & Hn & Hf) _].
    destruct (learn_value_patterns _) as [patterns|] eqn:Hlearn.
    + split; split; [by exists patterns|by exists k| |done].
      intros Hno. destruct Hno. by exists k.
    + apply learn_value_patterns_None in Hlearn.
      by apply fillable_has_sample in Hf.
  - assert (¬ ∃ idx,
              1 ≤ idx
              ∧ named (chosen_headers detect_header_row es fs) raw idx
              ∧ fillable_of (column_analysis detect_header_row es fs idx)
                = true) as Hnone.
    { intros (idx & H1 & Hn & Hf). revert Hk. unfold entry, learn_sheet.
      cbn [column_positions].
      destruct (learn_columns_spec detect_header_row verify_label es fs
                  (chosen_headers detect_header_row es fs)
                  (CrossSheet.list_value_columns
                     (chosen_headers detect_header_row es fs)))
        as (_ & Hpos & _).
      rewrite Hpos. intros Hnone%last_None.
      assert (idx ∈ filter
                (λ idx, named (chosen_headers detect_header_row es fs)
                          raw idx
                        ∧ fillable_of
                            (column_analysis detect_header_row es fs idx)
                          = true)
                (CrossSheet.list_value_columns
                   (chosen_headers detect_header_row es fs))) as Hmem.
      { apply list_elem_of_filter. split; [done|].
        by eapply named_value_column. }
      rewrite Hnone in Hmem. by apply elem_of_nil in Hmem. }
    split; split; [done|by intros [? ?]|done..].
Qed.

(** X28. What [enhanced_learn_from_pair] learns of the columns of a sheet:
    [columns_to_fill] lists, in ascending order, the headers of the value
    columns (every column but the first) that have a header and that
    [analyze_column_filling_patterns] finds fillable, a header as often as
    it names such a column; [column_positions] maps such a header to the
    last of its fillable columns; and [enhanced_patterns] holds for it the
    value patterns of the sample of that column, which are never the empty
    dict. *)
Theorem learn_sheet_columns es fs :
  let headers := chosen_headers detect_header_row es fs in
  let entry := learn_sheet detect_header_row verify_label es fs in
  let analysis_at := column_analysis detect_header_row es fs in
  let fillable_at raw idx :=
    1 ≤ idx ∧ named headers raw idx
    ∧ fillable_of (analysis_at idx) = true in
  Sorted String.le (columns_to_fill entry)
  ∧ columns_to_fill entry
    ≡ₚ header_at headers
         <$> filter (λ idx, header_at headers idx ≠ ""
                            ∧ fillable_of (analysis_at idx) = true)
                    (CrossSheet.list_value_columns headers)
  ∧ (∀ raw, raw ∈ columns_to_fill entry ↔ ∃ idx, fillable_at raw idx)
  ∧ (∀ raw idx,
       column_positions entry !! raw = Some idx
       ↔ fillable_at raw idx ∧ ∀ j, idx < j → ¬ fillable_at raw j)
  ∧ (∀ raw,
       enhanced_patterns entry !! raw
       = (λ idx, learn_value_patterns (sample_of (analysis_at idx)))
           <$> column_positions entry !! raw)
  ∧ (∀ raw,
       raw ∈ columns_to_fill entry
       ↔ ∃ patterns, enhanced_patterns entry !! raw = Some (Some patterns)).
Proof.
  intros headers entry analysis_at fillable_at. split_and!.
  - apply Sorted_merge_sort, _.
  - apply columns_to_fill_learned.
  - intros raw. apply elem_of_columns_to_fill.
  - intros raw idx. apply column_positions_learned.
  - intros raw. apply enhanced_patterns_learned.
  - intros raw. apply enhanced_patterns_keys.
Qed.

Lemma fmin_capped x : PrimFloat.ltb 1 (fmin x 1) = false.
Proof.
  unfold fmin. destruct (PrimFloat.ltb 1 x) eqn:Hx; [reflexivity|exact Hx].
Qed.

(** X29. What [enhanced_learn_from_pair] stores about the headers of a
    sheet: a verdict for every header of a value column that is not empty,
    made of the label of the verifier and of the analysis of the last
    column with that header, and the header itself as its only variant in
    [header_map].  For a header in [columns_to_fill] the method is marked
    with "+pattern" and the confidence, raised by the boost, is capped at
    1.0; for any other header method and confidence are the verifier's. *)
Theorem learn_sheet_verifications es fs :
  let headers := chosen_headers detect_header_row es fs in
  let entry := learn_sheet detect_header_row verify_label es fs in
  (∀ raw v,
     verifications entry !! raw = Some v
     ↔ ∃ idx,
         1 ≤ idx ∧ named headers raw idx
         ∧ (∀ j, idx < j → headers !! j ≠ Some raw)
         ∧ v = verdict_of verify_label raw
                 (column_analysis detect_header_row es fs idx)
                 (enhanced_patterns entry !! raw))
  ∧ (∀ raw,
       header_map entry !! raw
       = (λ _, [raw]) <$> verifications entry !! raw)
  ∧ (∀ raw v,
       verifications entry !! raw = Some v →
       lv_label v = (verify_label raw).1.1
       ∧ if bool_decide (raw ∈ columns_to_fill entry)
         then lv_method v = (verify_label raw).2 +:+ "+pattern"
              ∧ PrimFloat.ltb 1 (lv_confidence v) = false
         else lv_method v = (verify_label raw).2
              ∧ lv_confidence v = (verify_label raw).1.2).
Proof.
  intros headers entry.
  destruct (learn_columns_spec detect_header_row verify_label es fs headers
              (CrossSheet.list_value_columns headers))
    as (_ & _ & _ & Hver & Hmap).
  assert (∀ raw v,
            verifications entry !! raw = Some v
            ↔ ∃ idx,
                1 ≤ idx ∧ named headers raw idx
                ∧ (∀ j, idx < j → headers !! j ≠ Some raw)
                ∧ v = verdict_of verify_label raw
                        (column_analysis detect_header_row es fs idx)
                        (enhanced_patterns entry !! raw)) as Hverdict.
  { intros raw v. unfold entry, learn_sheet.
    cbn [verifications enhanced_patterns]. fold headers. rewrite Hver.
    rewrite fmap_Some. unfold CrossSheet.list_value_columns. split.
    - intros (idx & (Hr & Hn & Hlast)%last_filter_seq & ->).
      exists idx. split_and!; [lia|done| |done].
      intros j Hj Hh. apply (Hlast j).
      + apply lookup_lt_Some in Hh. lia.
      + split; [done|]. by destruct Hn.
    - intros (idx & H1 & Hn & Hlast & ->). exists idx. split; [|done].
      apply last_filter_seq. split_and!; [lia| |done|].
      + destruct Hn as [?%lookup_lt_Some _]. lia.
      + intros j Hj [Hh _]. by apply (Hlast j); [lia|]. }
  split_and!; [exact Hverdict| |].
  - intros raw. unfold entry, learn_sheet. cbn [header_map verifications].
    fold headers. rewrite lookup_fmap, Hmap.
    destruct (p_verifications _ !! raw);
      cbn [fmap option_fmap option_map]; [|done].
    f_equal. unfold sorted. by rewrite elements_singleton.
  - intros raw v (idx & _ & _ & _ & ->)%Hverdict.
    destruct (enhanced_patterns_keys es fs raw) as [Hin Hout].
    fold entry in Hin, Hout. unfold verdict_of.
    destruct (verify_label raw) as [[label conf] method]. cbn [fst snd].
    case_bool_decide as Hfill.
    + apply Hin in Hfill as [patterns ->]. cbn [lv_label lv_method
        lv_confidence]. split_and!; [done..|]. apply fmin_capped.
    + apply Hout in Hfill as ->. done.
Qed.

Lemma find_data_sheets_get_sheet (json_obj : CrossSheet.document) name :
  NoDup json_obj.*1 → name ∈ SheetFirst.find_data_sheets json_obj →
  ∃ sheet, CrossSheet.get_sheet json_obj name = Some sheet.
Proof.
  intros Hnd ([n [sheet|]] & Hin & Hf)%list_elem_of_omap;
    cbn [mbind option_bind] in Hf; [|done].
  destruct (existsb _ _); [done|]. cbv zeta in Hf.
  case_bool_decide; [done|]. injection Hf as ->.
  exists sheet. unfold CrossSheet.get_sheet.
  by rewrite (assoc_NoDup name (Some sheet)).
Qed.

(** X30. [enhanced_learn_from_pair] without a target sheet learns exactly
    the sheets that [find_data_sheets] finds in both documents: each of
    them gets the entry learned from its two versions, and no other sheet
    gets one. *)
Theorem enhanced_learn_from_pair_sheets (ej fj : CrossSheet.document) name :
  NoDup ej.*1 → NoDup fj.*1 →
  let learned :=
    enhanced_learn_from_pair detect_header_row verify_label ej fj in
  if bool_decide (name ∈ SheetFirst.find_data_sheets ej
                  ∧ name ∈ SheetFirst.find_data_sheets fj)
  then ∃ es fs,
         CrossSheet.get_sheet ej name = Some es
         ∧ CrossSheet.get_sheet fj name = Some fs
         ∧ learned !! name
           = Some (learn_sheet detect_header_row verify_label es fs)
  else learned !! name = None.
Proof.
  intros Hej Hfj learned. unfold learned, enhanced_learn_from_pair.
  cbv zeta.
  set (common_sheets := set_of (SheetFirst.find_data_sheets ej)
                        ∩ set_of (SheetFirst.find_data_sheets fj)).
  assert (∀ n, n ∈ common_sheets
               ↔ n ∈ SheetFirst.find_data_sheets ej
                 ∧ n ∈ SheetFirst.find_data_sheets fj) as Hcommon.
  { intros n. unfold common_sheets, set_of.
    by rewrite elem_of_intersection, !elem_of_list_to_set. }
  destruct (decide (common_sheets = ∅)) as [Hempty|Hempty].
  { rewrite (bool_decide_eq_true_2 (common_sheets = ∅)) by done.
    case_bool_decide as Hname; [|apply lookup_empty].
    apply Hcommon in Hname. rewrite Hempty in Hname.
    by apply elem_of_empty in Hname. }
  rewrite (bool_decide_eq_false_2 (common_sheets = ∅)) by done.
  assert (∀ X : gset string,
            X ⊆ common_sheets →
            ∀ n,
              let r :=
                set_fold
                  (λ current_sheet all_results,
                     match CrossSheet.get_sheet ej current_sheet,
                           CrossSheet.get_sheet fj current_sheet with
                     | Some es, Some fs =>
                         <[current_sheet :=
                             learn_sheet detect_header_row verify_label
                               es fs]> all_results
                     | _, _ => all_results
                     end) (∅ : gmap string learned_sheet) X in
              (n ∈ X →
               ∃ es fs,
                 CrossSheet.get_sheet ej n = Some es
                 ∧ CrossSheet.get_sheet fj n = Some fs
                 ∧ r !! n
                   = Some (learn_sheet detect_header_row verify_label
                             es fs))
              ∧ (n ∉ X → r !! n = None)) as Hfold.
  { intros X. cbv zeta.
    apply (set_fold_ind_L
             (λ r (X : gset string),
                X ⊆ common_sheets →
                ∀ n,
                  (n ∈ X →
                   ∃ es fs,
                     CrossSheet.get_sheet ej n = Some es
                     ∧ CrossSheet.get_sheet fj n = Some fs
                     ∧ r !! n
                       = Some (learn_sheet detect_header_row verify_label
                                 es fs))
                  ∧ (n ∉ X → r !! n = None))).
    - intros _ n. split; [by intros ?%elem_of_empty|].
      intros _. apply lookup_empty.
    - intros x Y r Hx IH Hsub n.
      assert (x ∈ common_sheets) as [Hxe Hxf]%Hcommon.
      { apply Hsub, elem_of_union_l, elem_of_singleton. done. }
      destruct (find_data_sheets_get_sheet ej x Hej Hxe) as [es Hes].
      destruct (find_data_sheets_get_sheet fj x Hfj Hxf) as [fs Hfs].
      rewrite Hes, Hfs.
      assert (Y ⊆ common_sheets) as HY.
      { intros y Hy. apply Hsub, elem_of_union_r, Hy. }
      destruct (IH HY n) as [IHin IHout].
      destruct (decide (n = x)) as [->|Hne].
      + split.
        * intros _. exists es, fs. by rewrite lookup_insert_eq.
        * intros Hno. destruct Hno. by apply elem_of_union_l, elem_of_singleton.
      + rewrite lookup_insert_ne by done. split.
        * intros [Hn%elem_of_singleton|Hn]%elem_of_union; [done|].
          by apply IHin.
        * intros Hn. apply IHout. intros HnY. apply Hn.
          by apply elem_of_union_r. }
  destruct (Hfold common_sheets (reflexivity _) name) as [Hin Hout].
  case_bool_decide as Hname.
  - by apply Hin, Hcommon.
  - apply Hout. by rewrite Hcommon.
Qed.

End learned.

End training_theory.

Section training_examples.
Import Py EnhancedTrainer ValuePatterns EnhancedLearning Notions.

Lemma enhanced_learn_from_pair_sheets_witness :
  ∃ es fs,
    CrossSheet.get_sheet empty_document "Rates" = Some es
    ∧ CrossSheet.get_sheet filled_document "Rates" = Some fs
    ∧ enhanced_learn_from_pair columns_as_headers unknown_label
        empty_document filled_document !! "Rates"
      = Some (learn_sheet columns_as_headers unknown_label es fs).
Proof.
  assert (NoDup empty_document.*1) as Hempty.
  { apply (bool_decide_unpack _). vm_compute. exact I. }
  assert (NoDup filled_document.*1) as Hfilled.
  { apply (bool_decide_unpack _). vm_compute. exact I. }
  pose proof (enhanced_learn_from_pair_sheets columns_as_headers
                unknown_label empty_document filled_document "Rates"
                Hempty Hfilled) as Hlearned.
  cbv zeta in Hlearned. rewrite bool_decide_eq_true_2 in Hlearned.
  - exact Hlearned.
  - split; apply (bool_decide_unpack _); vm_compute; exact I.
Defined.

End training_examples.
